(** * Mindstate SDK: sealing, key delivery and checkpoint lineage

    A shallow embedding of the cryptographic core of [@mindstate/sdk]
    (capsule.ts, commitment.ts, encryption.ts, verify.ts, sealed.ts,
    keyDelivery.ts, onChainKeyDelivery.ts, client.ts, explorer.ts) and the
    properties of it that the specification states.

    Conventions of the embedding.
    - A [Uint8Array] is a [list byte].
    - A JavaScript string is a [string]: its UTF-8 bytes.
      [Text.toLowerCase] lowercases the ASCII letters, [Text.decode] takes
      bytes that need no repair, and [Hex.fromHex] pairs the characters
      of an ASCII string: they are the host's functions on ASCII strings,
      which the hex identifiers, addresses and digests of the SDK are.
      Where a property depends on what the host does to other strings,
      it is stated for ASCII strings, or about the functions of module
      [Host], which take the host's [toLowerCase] as a parameter.
    - A JavaScript value that the SDK inspects at run time (a capsule, a
      parsed JSON document) is a [JsValue]; a plain object is a finite map
      from property names to values.
    - [throw new Error(msg)] is an [Err e], where [e : Error] names the
      throw site and carries the values its message interpolates;
      [message e] is the text.
    - Libraries outside the repository (keccak, the canonicalize package,
      JSON, AES-256-GCM of node:crypto, tweetnacl) are the fields of the
      class [Runtime]; random bytes come from an explicit [Entropy] stream.
    - [await]ed calls to external collaborators (the contract, the signer,
      the key delivery provider, the storage provider) are the nodes of a
      program tree [Prog]; running a tree against a handler yields the
      result together with the trace of calls made. *)

From Stdlib Require Import ZArith List Lia.
From Stdlib.Strings Require Import String Ascii Byte.
From Stdlib Require Import DecimalString.
From stdpp Require Import base gmap sets list strings sorting.
From Equations Require Import Equations.

Set Warnings "-register-all".

(* ===================================================================== *)
(** * Strings and bytes                                                    *)
(* ===================================================================== *)

#[global] Instance byte_eq_dec : EqDecision byte := Byte.byte_eq_dec.

Module Text.

Definition is_upper (c : ascii) : bool :=
  let n := nat_of_ascii c in (65 <=? n)%nat && (n <=? 90)%nat.

Definition lower_char (c : ascii) : ascii :=
  if is_upper c then ascii_of_nat (nat_of_ascii c + 32) else c.

(** [String.prototype.toLowerCase] on an ASCII string: the letters A to Z
    are lowercased. *)
Fixpoint toLowerCase (s : string) : string :=
  match s with
  | EmptyString => EmptyString
  | String c r => String (lower_char c) (toLowerCase r)
  end.

(** [s.startsWith(p)]. *)
Definition startsWith (s p : string) : bool := String.prefix p s.

(** [s.slice(n)] for [0 <= n]. *)
Fixpoint slice_from (n : nat) (s : string) : string :=
  match n, s with
  | O, _ => s
  | S n', String _ r => slice_from n' r
  | S _, EmptyString => EmptyString
  end.

(** ['c'.repeat(n)]. *)
Fixpoint repeat_char (c : ascii) (n : nat) : string :=
  match n with
  | O => EmptyString
  | S n' => String c (repeat_char c n')
  end.

(** [new TextEncoder().encode(s)]. *)
Definition encode (s : string) : list byte := list_byte_of_string s.

(** [new TextDecoder().decode(bytes)], for bytes that are well-formed
    UTF-8 and do not start with a byte order mark. *)
Definition decode (bytes : list byte) : string := string_of_list_byte bytes.

(** A length interpolated into a template string: [`${n}`]. *)
Definition of_nat (n : nat) : string := NilEmpty.string_of_uint (Nat.to_uint n).

(** Equality up to the case of ASCII letters. *)
Definition eq_nocase (s t : string) : Prop := toLowerCase s = toLowerCase t.

End Text.

Module Hex.

(** One hex digit of [n.toString(16)], for [n < 16]. *)
Definition digit (n : N) : ascii :=
  if (n <? 10)%N then ascii_of_N (48 + n) else ascii_of_N (87 + n).

(** [b.toString(16).padStart(2, '0')]. *)
Definition of_byte (b : byte) : string :=
  let n := Byte.to_N b in
  String (digit (n / 16)) (String (digit (n mod 16)) EmptyString).

Fixpoint digits (bytes : list byte) : string :=
  match bytes with
  | [] => EmptyString
  | b :: rest => of_byte b +:+ digits rest
  end.

(** [toHex] of commitment.ts and of keyDelivery.ts (the two are the same
    function): a 0x-prefixed lowercase hex string. *)
Definition toHex (bytes : list byte) : string := "0x" +:+ digits bytes.

(** The value of a hex digit, either case. *)
Definition digit_value (c : ascii) : option Z :=
  let n := Z.of_nat (nat_of_ascii c) in
  if (48 <=? n)%Z && (n <=? 57)%Z then Some (n - 48)%Z
  else if (97 <=? n)%Z && (n <=? 102)%Z then Some (n - 87)%Z
  else if (65 <=? n)%Z && (n <=? 70)%Z then Some (n - 55)%Z
  else None.

(** White space that [parseInt] skips (the ASCII part of it). *)
Definition is_space (c : ascii) : bool :=
  let n := nat_of_ascii c in
  ((9 <=? n)%nat && (n <=? 13)%nat) || (n =? 32)%nat.

Fixpoint skip_spaces (s : string) : string :=
  match s with
  | String c r => if is_space c then skip_spaces r else s
  | EmptyString => s
  end.

(** The longest prefix of hex digits, read as a number; [None] when the
    prefix is empty. *)
Fixpoint read_digits (acc : option Z) (s : string) : option Z :=
  match s with
  | String c r =>
      match digit_value c with
      | Some d => read_digits (Some (match acc with Some a => a * 16 + d | None => d end)%Z) r
      | None => acc
      end
  | EmptyString => acc
  end.

Definition strip_0x (s : string) : string :=
  match s with
  | String "0" (String c r) =>
      if Ascii.eqb c "x" || Ascii.eqb c "X" then r else s
  | _ => s
  end.

(** [parseInt(s, 16)]; [None] is [NaN]. *)
Definition parseInt16 (s : string) : option Z :=
  let s := skip_spaces s in
  let '(sign, s) :=
    match s with
    | String "-" r => ((-1)%Z, r)
    | String "+" r => (1%Z, r)
    | _ => (1%Z, s)
    end in
  match read_digits None (strip_0x s) with
  | Some n => Some (sign * n)%Z
  | None => None
  end.

(** Storing a number into a [Uint8Array] slot: [NaN] becomes 0, an
    integer is taken modulo 256. *)
Definition to_uint8 (v : option Z) : byte :=
  match v with
  | Some z => default x00 (Byte.of_N (Z.to_N (z mod 256)))
  | None => x00
  end.

Fixpoint pairs (s : string) : list byte :=
  match s with
  | String a (String b r) =>
      to_uint8 (parseInt16 (String a (String b EmptyString))) :: pairs r
  | _ => []
  end.

(** [fromHex] of keyDelivery.ts, for an ASCII string: the input is not
    validated; the array has [floor(clean.length / 2)] slots and slot [i]
    holds [parseInt(clean.slice(2i, 2i + 2), 16)]. *)
Definition fromHex (hex : string) : list byte :=
  let clean := if Text.startsWith hex "0x" then Text.slice_from 2 hex else hex in
  pairs clean.

End Hex.

(** [ZERO_BYTES32] of abi.ts: ['0x' + '0'.repeat(64)]. *)
Definition ZERO_BYTES32 : string := "0x" +:+ Text.repeat_char "0" 64.


(* ===================================================================== *)
(** * JavaScript values                                                    *)
(* ===================================================================== *)

(** The values the SDK inspects at run time.  [JFunction] stands for any
    value that has no JSON form at all (a function, a symbol). *)
Inductive JsValue : Type :=
| JUndefined
| JNull
| JBool (b : bool)
| JNumber (n : Z)
| JString (s : string)
| JArray (items : list JsValue)
| JObject (props : gmap string JsValue)
| JFunction.

Inductive JsType : Type :=
| TUndefined | TObject | TBoolean | TNumber | TString | TFunction.

Module Js.

(** [typeof v]. *)
Definition typeof (v : JsValue) : JsType :=
  match v with
  | JUndefined => TUndefined
  | JNull | JArray _ | JObject _ => TObject
  | JBool _ => TBoolean
  | JNumber _ => TNumber
  | JString _ => TString
  | JFunction => TFunction
  end.

Definition is_object_type (v : JsValue) : bool :=
  match typeof v with TObject => true | _ => false end.

(** [Array.isArray(v)]. *)
Definition isArray (v : JsValue) : bool :=
  match v with JArray _ => true | _ => false end.

Definition is_null (v : JsValue) : bool :=
  match v with JNull => true | _ => false end.

Definition is_undefined (v : JsValue) : bool :=
  match v with JUndefined => true | _ => false end.

(** Truthiness: what [if (v)] and [!v] test. *)
Definition truthy (v : JsValue) : bool :=
  match v with
  | JUndefined | JNull => false
  | JBool b => b
  | JNumber n => negb (n =? 0)%Z
  | JString s => negb (String.eqb s "")
  | JArray _ | JObject _ | JFunction => true
  end.

(** [v.k] for a value that is neither [null] nor [undefined] and a
    property name that no built-in prototype defines (the names the SDK
    reads are version, payload, checkpointId, wrappedKey, nonce and
    senderPublicKey): the own property of a plain object, [undefined]
    otherwise. *)
Definition get (v : JsValue) (k : string) : JsValue :=
  match v with
  | JObject props => default JUndefined (props !! k)
  | _ => JUndefined
  end.

End Js.

(* ===================================================================== *)
(** * Errors                                                               *)
(* ===================================================================== *)

(** One constructor per [throw] of the modelled code, with the values its
    message interpolates; [Thrown] is an exception of the JavaScript
    runtime or of a library, or the rejection of an external call. *)
Inductive Error : Type :=
(* capsule.ts *)
| CanonicalizeUndefined
| CapsuleNotObject
| CapsuleVersionInvalid
| CapsulePayloadInvalid
| CapsuleParseFailed (detail : string)
(* encryption.ts *)
| EncryptionKeyLength (got : nat)
| DecryptionKeyLength (got : nat)
| SealedTooShort (got : nat)
| DecryptionFailed (detail : string)
| BoxEncryptionFailed
| BoxDecryptionFailed
(* verify.ts *)
| StateCommitmentMismatch (computed expected : string)
| CiphertextHashMismatch (computed expected : string)
| GenesisPredecessorNotZero (got : string)
| LineageBroken (index : nat) (expectedPredecessor got : string)
(* keyDelivery.ts, onChainKeyDelivery.ts *)
| EnvelopeParseFailed (detail : string)
| EnvelopeMissingFields
| NoKeyStored (checkpointId : string)
| ConsumerKeyLength (got : nat)
(* explorer.ts *)
| LineageCycle (checkpointId : string)
| CheckpointNotFound (checkpointId : string)
(* client.ts *)
| SignerRequiredToConsume
| SignerRequiredToWrite
| EnvelopeNotYetAvailable
(* thrown outside the SDK *)
| Thrown (detail : string).

(** The message of the [Error] object thrown. *)
Definition message (e : Error) : string :=
  match e with
  | CanonicalizeUndefined =>
      "Mindstate: canonicalize returned undefined — input may contain unsupported types"
  | CapsuleNotObject => "Mindstate: capsule must be a non-null object"
  | CapsuleVersionInvalid => "Mindstate: capsule.version must be a non-empty string"
  | CapsulePayloadInvalid => "Mindstate: capsule.payload must be a non-null object"
  | CapsuleParseFailed d => "Mindstate: failed to parse capsule bytes as JSON — " +:+ d
  | EncryptionKeyLength n =>
      "Mindstate: encryption key must be 32 bytes, got " +:+ Text.of_nat n
  | DecryptionKeyLength n =>
      "Mindstate: decryption key must be 32 bytes, got " +:+ Text.of_nat n
  | SealedTooShort n =>
      "Mindstate: sealed data too short — expected at least 28 bytes, got " +:+ Text.of_nat n
  | DecryptionFailed d => "Mindstate: AES-256-GCM decryption failed — " +:+ d
  | BoxEncryptionFailed => "Mindstate: NaCl box encryption failed during key wrapping"
  | BoxDecryptionFailed =>
      "Mindstate: NaCl box decryption failed — the key envelope may be corrupt or the wrong secret key was provided"
  | StateCommitmentMismatch c x =>
      "Mindstate: state commitment mismatch — computed " +:+ c +:+ ", expected " +:+ x
  | CiphertextHashMismatch c x =>
      "Mindstate: ciphertext hash mismatch — computed " +:+ c +:+ ", expected " +:+ x
  | GenesisPredecessorNotZero g =>
      "Mindstate: first checkpoint predecessor must be zero — got " +:+ g
  | LineageBroken i x g =>
      "Mindstate: checkpoint lineage broken at index " +:+ Text.of_nat i +:+
      " — expected predecessorId " +:+ x +:+ ", got " +:+ g
  | EnvelopeParseFailed d => "Mindstate: failed to parse key envelope — " +:+ d
  | EnvelopeMissingFields => "Mindstate: invalid key envelope — missing required fields"
  | NoKeyStored c =>
      "Mindstate: no key stored for checkpoint " +:+ c +:+
      ". Was storeKey() called after publishing?"
  | ConsumerKeyLength n =>
      "Mindstate: consumer public key must be 32 bytes, got " +:+ Text.of_nat n
  | LineageCycle c =>
      "Mindstate: cycle detected at checkpoint " +:+ c +:+ " during lineage walk"
  | CheckpointNotFound c =>
      "Mindstate: checkpoint " +:+ c +:+ " not found during lineage walk"
  | SignerRequiredToConsume =>
      "Mindstate: a signer is required to consume checkpoints (needed for redemption)"
  | SignerRequiredToWrite => "Mindstate: a signer is required for write operations"
  | EnvelopeNotYetAvailable =>
      "Mindstate: key envelope is not yet available for this checkpoint. " +:+
      "The publisher may not have fulfilled this redemption yet. " +:+
      "Call redeem() manually after confirming with the publisher, or wait and retry."
  | Thrown d => d
  end.

(** The outcome of a call: a value, or an exception. *)
Inductive result (A : Type) : Type :=
| Ok (a : A)
| Err (e : Error).
Arguments Ok {A} a.
Arguments Err {A} e.

#[global] Instance result_ret : MRet result := fun A a => Ok a.
#[global] Instance result_bind : MBind result :=
  fun A B f m => match m with Ok a => f a | Err e => Err e end.

Definition is_ok {A} (r : result A) : bool :=
  match r with Ok _ => true | Err _ => false end.

(** A function of a library outside the repository either returns or
    throws an [Error] with some message. *)
Inductive External (A : Type) : Type :=
| Returns (a : A)
| Throws (msg : string).
Arguments Returns {A} a.
Arguments Throws {A} msg.

(** Letting a library's exception propagate. *)
Definition propagate {A} (x : External A) : result A :=
  match x with Returns a => Ok a | Throws msg => Err (Thrown msg) end.

(* ===================================================================== *)
(** * Libraries outside the repository                                     *)
(* ===================================================================== *)

(** What the SDK imports: [keccak_256] of @noble/hashes, the
    [canonicalize] package (RFC 8785; it returns [undefined] for a value
    with no JSON form), [JSON.parse] and [JSON.stringify], AES-256-GCM of
    node:crypto ([createCipheriv] ... [getAuthTag] as one function that
    returns ciphertext and tag; [createDecipheriv] ... [final] as one
    function that throws when the tag does not authenticate), and
    tweetnacl's [box]. *)
Class Runtime : Type := {
  keccak_256 : list byte -> list byte;
  canonicalize : JsValue -> External (option string);
  JSON_parse : string -> External JsValue;
  JSON_stringify : JsValue -> string;
  aes_256_gcm_encrypt : list byte -> list byte -> list byte -> list byte * list byte;
  aes_256_gcm_decrypt : list byte -> list byte -> list byte -> list byte -> External (list byte);
  nacl_box_keyPair_fromSecretKey : list byte -> External (list byte);
  nacl_box : list byte -> list byte -> list byte -> list byte -> External (option (list byte));
  nacl_box_open : list byte -> list byte -> list byte -> list byte -> External (option (list byte));
}.

(** [nacl.box.nonceLength]. *)
Definition nacl_box_nonceLength : nat := 24.

(** The operating system's random source, as the stream of bytes it will
    deliver. *)
Definition Entropy : Type := nat -> byte.

(** [randomBytes(n)] of node:crypto and [nacl.randomBytes(n)]: the next
    [n] bytes of the stream. *)
Definition randomBytes (n : nat) (ent : Entropy) : list byte * Entropy :=
  (map ent (seq 0 n), fun i => ent (n + i)%nat).

(* ===================================================================== *)
(** * types.ts                                                             *)
(* ===================================================================== *)

(** [KeyEnvelope]: a content key wrapped for one recipient. *)
Module Envelope.
Record t : Type := make {
  checkpointId : string;
  wrappedKey : list byte;
  nonce : list byte;
  senderPublicKey : list byte;
}.
End Envelope.
Abbreviation KeyEnvelope := Envelope.t.

(** [CheckpointRecord]. *)
Module Checkpoint.
Record t : Type := make {
  checkpointId : string;
  predecessorId : string;
  stateCommitment : string;
  ciphertextHash : string;
  ciphertextUri : string;
  manifestHash : string;
  publishedAt : Z;
  blockNumber : Z;
}.
End Checkpoint.
Abbreviation CheckpointRecord := Checkpoint.t.

(** [SealedCapsule]. *)
Module Sealed.
Record t : Type := make {
  ciphertext : list byte;
  contentHash : string;
  stateCommitment : string;
  metadataHash : string;
  encryptionKey : list byte;
}.
End Sealed.
Abbreviation SealedCapsule := Sealed.t.

(** A capsule is the JavaScript object itself: the [Capsule] interface is
    erased at run time and [assertValidCapsule] checks its shape. *)
Abbreviation Capsule := JsValue (only parsing).

(* ===================================================================== *)
(** * capsule.ts                                                           *)
(* ===================================================================== *)

Section CapsuleModule.
Context `{rt : Runtime}.

Definition canonicalBytes (value : JsValue) : result (list byte) :=
  json ← propagate (canonicalize value);
  match json with
  | None => Err CanonicalizeUndefined
  | Some text => Ok (Text.encode text)
  end.

Definition assertValidCapsule (capsule : JsValue) : result unit :=
  if Js.is_null capsule || negb (Js.is_object_type capsule) then
    Err CapsuleNotObject
  else
    let version := Js.get capsule "version" in
    let payload := Js.get capsule "payload" in
    if match version with
       | JString s => (String.length s =? 0)%nat
       | _ => true
       end
    then Err CapsuleVersionInvalid
    else if Js.is_null payload || Js.is_undefined payload
            || negb (Js.is_object_type payload) || Js.isArray payload
    then Err CapsulePayloadInvalid
    else Ok tt.

Definition serializeCapsule (capsule : Capsule) : result (list byte) :=
  _ ← assertValidCapsule capsule;
  canonicalBytes capsule.

Definition deserializeCapsule (bytes : list byte) : result Capsule :=
  match JSON_parse (Text.decode bytes) with
  | Throws msg => Err (CapsuleParseFailed msg)
  | Returns parsed =>
      _ ← assertValidCapsule parsed;
      Ok parsed
  end.

Definition serializeCanonical (value : JsValue) : result (list byte) :=
  canonicalBytes value.

End CapsuleModule.

(* ===================================================================== *)
(** * commitment.ts                                                        *)
(* ===================================================================== *)

Section CommitmentModule.
Context `{rt : Runtime}.

Definition hashBytes (data : list byte) : string :=
  Hex.toHex (keccak_256 data).

Definition computeStateCommitment (capsule : Capsule) : result string :=
  bytes ← serializeCapsule capsule;
  Ok (hashBytes bytes).

Definition computeMetadataHash (value : JsValue) : result string :=
  bytes ← serializeCanonical value;
  Ok (hashBytes bytes).

Definition computeCiphertextHash (ciphertext : list byte) : string :=
  hashBytes ciphertext.

End CommitmentModule.

(* ===================================================================== *)
(** * encryption.ts                                                        *)
(* ===================================================================== *)

Definition IV_LENGTH : nat := 12.
Definition AUTH_TAG_LENGTH : nat := 16.
Definition KEY_LENGTH : nat := 32.

Module Uint8Array.

(** [new Uint8Array(n)]: [n] zero bytes. *)
Definition zeros (n : nat) : list byte := List.repeat x00 n.

(** [target.set(source, offset)]; a [RangeError] when the source does not
    fit. *)
Definition set (target source : list byte) (offset : nat) : result (list byte) :=
  if (length target <? offset + length source)%nat then
    Err (Thrown "RangeError: offset is out of bounds")
  else
    Ok (take offset target ++ source ++ drop (offset + length source) target).

(** [a.slice(from, to)] for [0 <= from <= to <= a.length]. *)
Definition slice (from to : nat) (a : list byte) : list byte :=
  take (to - from) (drop from a).

End Uint8Array.

Section EncryptionModule.
Context `{rt : Runtime}.

Definition generateContentKey (ent : Entropy) : list byte * Entropy :=
  randomBytes KEY_LENGTH ent.

Definition encrypt (plaintext key : list byte) (ent : Entropy)
  : result (list byte * Entropy) :=
  if decide (length key ≠ KEY_LENGTH) then
    Err (EncryptionKeyLength (length key))
  else
    let '(iv, ent') := randomBytes IV_LENGTH ent in
    let '(encrypted, authTag) := aes_256_gcm_encrypt key iv plaintext in
    let result0 := Uint8Array.zeros (IV_LENGTH + length encrypted + AUTH_TAG_LENGTH) in
    result1 ← Uint8Array.set result0 iv 0;
    result2 ← Uint8Array.set result1 encrypted IV_LENGTH;
    result3 ← Uint8Array.set result2 authTag (IV_LENGTH + length encrypted);
    Ok (result3, ent').

Definition decrypt (sealed key : list byte) : result (list byte) :=
  if decide (length key ≠ KEY_LENGTH) then
    Err (DecryptionKeyLength (length key))
  else if decide (length sealed < IV_LENGTH + AUTH_TAG_LENGTH)%nat then
    Err (SealedTooShort (length sealed))
  else
    let iv := Uint8Array.slice 0 IV_LENGTH sealed in
    let authTag :=
      Uint8Array.slice (length sealed - AUTH_TAG_LENGTH) (length sealed) sealed in
    let ciphertext :=
      Uint8Array.slice IV_LENGTH (length sealed - AUTH_TAG_LENGTH) sealed in
    match aes_256_gcm_decrypt key iv ciphertext authTag with
    | Returns decrypted => Ok decrypted
    | Throws msg => Err (DecryptionFailed msg)
    end.

Definition wrapKey (contentKey recipientPublicKey senderSecretKey : list byte)
  (ent : Entropy) : result (KeyEnvelope * Entropy) :=
  let '(nonce, ent') := randomBytes nacl_box_nonceLength ent in
  senderPublicKey ← propagate (nacl_box_keyPair_fromSecretKey senderSecretKey);
  wrappedKey ← propagate (nacl_box contentKey nonce recipientPublicKey senderSecretKey);
  match wrappedKey with
  | None => Err BoxEncryptionFailed
  | Some wrapped =>
      Ok ({| Envelope.checkpointId := "";
             Envelope.wrappedKey := wrapped;
             Envelope.nonce := nonce;
             Envelope.senderPublicKey := senderPublicKey |}, ent')
  end.

Definition unwrapKey (envelope : KeyEnvelope) (recipientSecretKey : list byte)
  : result (list byte) :=
  contentKey ← propagate
    (nacl_box_open (Envelope.wrappedKey envelope) (Envelope.nonce envelope)
       (Envelope.senderPublicKey envelope) recipientSecretKey);
  match contentKey with
  | None => Err BoxDecryptionFailed
  | Some key => Ok key
  end.

End EncryptionModule.

(* ===================================================================== *)
(** * verify.ts                                                            *)
(* ===================================================================== *)

Section VerifyModule.
Context `{rt : Runtime}.

Definition verifyStateCommitment (capsule : Capsule) (expectedCommitment : string)
  : result bool :=
  computed ← computeStateCommitment capsule;
  let normComputed := Text.toLowerCase computed in
  let normExpected := Text.toLowerCase expectedCommitment in
  if decide (normComputed ≠ normExpected) then
    Err (StateCommitmentMismatch computed expectedCommitment)
  else Ok true.

Definition verifyCiphertextHash (ciphertext : list byte) (expectedHash : string)
  : result bool :=
  let computed := computeCiphertextHash ciphertext in
  let normComputed := Text.toLowerCase computed in
  let normExpected := Text.toLowerCase expectedHash in
  if decide (normComputed ≠ normExpected) then
    Err (CiphertextHashMismatch computed expectedHash)
  else Ok true.

(** The body of [for (let i = 1; i < checkpoints.length; i++)], over the
    indices still to visit. *)
Fixpoint lineage_links (indices : list nat) (checkpoints : list CheckpointRecord)
  : result bool :=
  match indices with
  | [] => Ok true
  | i :: rest =>
      match checkpoints !! (i - 1)%nat, checkpoints !! i with
      | Some prev, Some curr =>
          if decide (Text.toLowerCase (Checkpoint.predecessorId curr)
                     ≠ Text.toLowerCase (Checkpoint.checkpointId prev))
          then Err (LineageBroken i (Checkpoint.checkpointId prev)
                      (Checkpoint.predecessorId curr))
          else lineage_links rest checkpoints
      | _, _ => Err (Thrown "TypeError: cannot read properties of undefined")
      end
  end.

Definition verifyCheckpointLineage (checkpoints : list CheckpointRecord)
  : result bool :=
  match checkpoints with
  | [] => Ok true
  | first :: _ =>
      if decide (Text.toLowerCase (Checkpoint.predecessorId first) ≠ ZERO_BYTES32)
      then Err (GenesisPredecessorNotZero (Checkpoint.predecessorId first))
      else lineage_links (seq 1 (length checkpoints - 1)) checkpoints
  end.

Definition verifyAndDecrypt (ciphertext key : list byte)
  (expectedStateCommitment expectedCiphertextHash : string) : result Capsule :=
  _ ← verifyCiphertextHash ciphertext expectedCiphertextHash;
  plaintext ← decrypt ciphertext key;
  capsule ← deserializeCapsule plaintext;
  _ ← verifyStateCommitment capsule expectedStateCommitment;
  Ok capsule.

End VerifyModule.

(* ===================================================================== *)
(** * sealed.ts                                                            *)
(* ===================================================================== *)

Section SealedModule.
Context `{rt : Runtime}.

(** [if (s) { check(s) }] for an optional string parameter [s]: the check
    runs when the argument is given and is not the empty string. *)
Definition when_given (s : option string) (check : string -> result bool)
  : result bool :=
  match s with
  | Some text => if String.eqb text "" then Ok true else check text
  | None => Ok true
  end.

Definition seal (capsule : Capsule) (metadata : JsValue) (ent : Entropy)
  : result (SealedCapsule * Entropy) :=
  plaintext ← serializeCapsule capsule;
  stateCommitment ← computeStateCommitment capsule;
  metadataHash ←
    (if Js.truthy metadata then computeMetadataHash metadata
     else Ok ("0x" +:+ Text.repeat_char "0" 64));
  let '(encryptionKey, ent1) := generateContentKey ent in
  '(ciphertext, ent2) ← encrypt plaintext encryptionKey ent1;
  let contentHash := computeCiphertextHash ciphertext in
  Ok ({| Sealed.ciphertext := ciphertext;
         Sealed.contentHash := contentHash;
         Sealed.stateCommitment := stateCommitment;
         Sealed.metadataHash := metadataHash;
         Sealed.encryptionKey := encryptionKey |}, ent2).

Definition unseal (ciphertext key : list byte)
  (stateCommitment ciphertextHash : option string) : result Capsule :=
  _ ← when_given ciphertextHash (verifyCiphertextHash ciphertext);
  plaintext ← decrypt ciphertext key;
  capsule ← deserializeCapsule plaintext;
  _ ← when_given stateCommitment (verifyStateCommitment capsule);
  Ok capsule.

End SealedModule.

(* ===================================================================== *)
(** * keyDelivery.ts: envelope identifier and serialization                *)
(* ===================================================================== *)

(** What [deserializeEnvelope] returns.  [json.checkpointId] is copied
    without a check, so the field holds whatever truthy value the
    document has there; the three byte fields went through [fromHex]. *)
Module Decoded.
Record t : Type := make {
  checkpointId : JsValue;
  wrappedKey : list byte;
  nonce : list byte;
  senderPublicKey : list byte;
}.
Definition of_envelope (e : KeyEnvelope) : t :=
  {| checkpointId := JString (Envelope.checkpointId e);
     wrappedKey := Envelope.wrappedKey e;
     nonce := Envelope.nonce e;
     senderPublicKey := Envelope.senderPublicKey e |}.
End Decoded.

Section KeyDeliveryModule.
Context `{rt : Runtime}.

Definition computeEnvelopeId (tokenAddress checkpointId consumerAddress : string)
  : string :=
  let input :=
    Text.toLowerCase tokenAddress +:+ ":" +:+
    Text.toLowerCase checkpointId +:+ ":" +:+
    Text.toLowerCase consumerAddress in
  Hex.toHex (keccak_256 (Text.encode input)).

(** The [EnvelopeJson] object literal of [serializeEnvelope]. *)
Definition envelopeJson (envelope : KeyEnvelope) : JsValue :=
  JObject (list_to_map
    [ ("checkpointId", JString (Envelope.checkpointId envelope));
      ("wrappedKey", JString (Hex.toHex (Envelope.wrappedKey envelope)));
      ("nonce", JString (Hex.toHex (Envelope.nonce envelope)));
      ("senderPublicKey", JString (Hex.toHex (Envelope.senderPublicKey envelope))) ]).

Definition serializeEnvelope (envelope : KeyEnvelope) : list byte :=
  Text.encode (JSON_stringify (envelopeJson envelope)).

(** [fromHex(v)] for a property value [v] of the parsed document: a value
    that is not a string has no [startsWith] method. *)
Definition fromHex_value (v : JsValue) : result (list byte) :=
  match v with
  | JString hex => Ok (Hex.fromHex hex)
  | _ => Err (Thrown "TypeError: hex.startsWith is not a function")
  end.

Definition deserializeEnvelope (data : list byte) : result Decoded.t :=
  match JSON_parse (Text.decode data) with
  | Throws msg => Err (EnvelopeParseFailed msg)
  | Returns json =>
      if Js.is_null json || Js.is_undefined json then
        Err (Thrown "TypeError: cannot read properties of null")
      else if negb (Js.truthy (Js.get json "checkpointId"))
              || negb (Js.truthy (Js.get json "wrappedKey"))
              || negb (Js.truthy (Js.get json "nonce"))
              || negb (Js.truthy (Js.get json "senderPublicKey"))
      then Err EnvelopeMissingFields
      else
        wrappedKey ← fromHex_value (Js.get json "wrappedKey");
        nonce ← fromHex_value (Js.get json "nonce");
        senderPublicKey ← fromHex_value (Js.get json "senderPublicKey");
        Ok {| Decoded.checkpointId := Js.get json "checkpointId";
              Decoded.wrappedKey := wrappedKey;
              Decoded.nonce := nonce;
              Decoded.senderPublicKey := senderPublicKey |}
  end.

End KeyDeliveryModule.

(* ===================================================================== *)
(** * Calls to external collaborators                                      *)
(* ===================================================================== *)

(** The tuple [contract.getCheckpoint(id)] returns. *)
Module Raw.
Record t : Type := make {
  predecessorId : string;
  stateCommitment : string;
  ciphertextHash : string;
  ciphertextUri : string;
  manifestHash : string;
  publishedAt : Z;
  blockNumber : Z;
}.
End Raw.

(** An awaited call and the type of what it resolves to: the signer, the
    MindstateToken contract, the [KeyDeliveryProvider] and the
    [StorageProvider] in use.  [ContractRedeem] is [contract.redeem(id)]
    followed by [tx.wait()]. *)
Inductive Call : Type -> Type :=
| SignerGetAddress : Call string
| ContractHasRedeemed (tokenAddress account checkpointId : string) : Call bool
| ContractRedeem (tokenAddress checkpointId : string) : Call unit
| ContractGetCheckpoint (tokenAddress checkpointId : string) : Call Raw.t
| DeliveryFetchEnvelope (tokenAddress checkpointId consumerAddress : string)
    : Call KeyEnvelope
| DeliveryStoreEnvelope (tokenAddress checkpointId consumerAddress : string)
    (envelope : KeyEnvelope) : Call unit
| StorageDownload (uri : string) : Call (list byte).

(** An asynchronous computation: it returns, throws, or awaits a call and
    continues with the value the promise resolved to or the error it was
    rejected with. *)
Inductive Prog (A : Type) : Type :=
| Ret (a : A)
| Throw (e : Error)
| Await {X : Type} (call : Call X) (k : result X -> Prog A).
Arguments Ret {A} a.
Arguments Throw {A} e.
Arguments Await {A X} call k.

Fixpoint prog_bind {A B : Type} (f : A -> Prog B) (p : Prog A) : Prog B :=
  match p with
  | Ret a => f a
  | Throw e => Throw e
  | Await call k => Await call (fun r => prog_bind f (k r))
  end.

#[global] Instance prog_mret : MRet Prog := fun A a => Ret a.
#[global] Instance prog_mbind : MBind Prog := fun A B f p => prog_bind f p.

(** [await call]: a rejection is rethrown. *)
Definition await {X : Type} (call : Call X) : Prog X :=
  Await call (fun r => match r with Ok x => Ret x | Err e => Throw e end).

(** A synchronous step inside an async function. *)
Definition lift {A : Type} (r : result A) : Prog A :=
  match r with Ok a => Ret a | Err e => Throw e end.

(** [try { p } catch { handler }]. *)
Fixpoint try_catch {A : Type} (p : Prog A) (handler : Error -> Prog A) : Prog A :=
  match p with
  | Ret a => Ret a
  | Throw e => handler e
  | Await call k => Await call (fun r => try_catch (k r) handler)
  end.

(** One call made, with how it settled. *)
Inductive Event : Type :=
| Called {X : Type} (call : Call X) (outcome : result X).

(** The collaborators: from a call and the state of the outside world to
    the way the call settles and the next state. *)
Definition Handler (W : Type) : Type := forall X, Call X -> W -> result X * W.

(** Running a computation: its outcome, the final state of the world and
    the calls made, oldest first. *)
Fixpoint run {W A : Type} (h : Handler W) (p : Prog A) (w : W)
  : result A * W * list Event :=
  match p with
  | Ret a => (Ok a, w, [])
  | Throw e => (Err e, w, [])
  | Await call k =>
      let '(r, w1) := h _ call w in
      let '(res, w2, trace) := run h (k r) w1 in
      (res, w2, Called call r :: trace)
  end.

Definition outcome {W A : Type} (x : result A * W * list Event) : result A := x.1.1.
Definition trace {W A : Type} (x : result A * W * list Event) : list Event := x.2.

(** Predicates on events. *)
Definition is_redeem (ev : Event) : bool :=
  match ev with Called (ContractRedeem _ _) _ => true | _ => false end.

Definition is_fetch_ok (ev : Event) : bool :=
  match ev with Called (DeliveryFetchEnvelope _ _ _) (Ok _) => true | _ => false end.

Definition is_fetch_rejected (ev : Event) : bool :=
  match ev with Called (DeliveryFetchEnvelope _ _ _) (Err _) => true | _ => false end.

Definition is_hasRedeemed (answer : bool) (ev : Event) : bool :=
  match ev with
  | Called (ContractHasRedeemed _ _ _) (Ok b) => Bool.eqb b answer
  | _ => false
  end.

Definition is_lookup (ev : Event) : bool :=
  match ev with Called (ContractGetCheckpoint _ _) _ => true | _ => false end.

(** The identifier a [getCheckpoint] call looks up. *)
Definition lookup_id (ev : Event) : option string :=
  match ev with
  | Called (ContractGetCheckpoint _ id) _ => Some id
  | _ => None
  end.

(** The envelope a [storeEnvelope] call delivers. *)
Definition stored_envelope (ev : Event) : option KeyEnvelope :=
  match ev with
  | Called (DeliveryStoreEnvelope _ _ _ envelope) _ => Some envelope
  | _ => None
  end.

(* ===================================================================== *)
(** * keyDelivery.ts: PublisherKeyManager                                  *)
(* ===================================================================== *)

Module PublisherKeyManager.

(** The manager: its private map [keys] and the publisher's key pair. *)
Record t : Type := make {
  keys : gmap string (list byte);
  publicKey : list byte;
  secretKey : list byte;
}.

(** [new PublisherKeyManager(keyPair, delivery)]. *)
Definition create (publicKey secretKey : list byte) : t :=
  {| keys := ∅; publicKey := publicKey; secretKey := secretKey |}.

Definition with_keys (m : t) (keys' : gmap string (list byte)) : t :=
  {| keys := keys'; publicKey := publicKey m; secretKey := secretKey m |}.

Definition storeKey (m : t) (checkpointId : string) (key : list byte) : t :=
  with_keys m (<[Text.toLowerCase checkpointId := key]> (keys m)).

Definition hasKey (m : t) (checkpointId : string) : bool :=
  bool_decide (is_Some (keys m !! Text.toLowerCase checkpointId)).

(** [result[id] = value] on a plain object: an assignment to [__proto__]
    goes to the setter of [Object.prototype], which ignores a string, so
    no own property is created. *)
Definition assign_property (result : gmap string string) (id value : string)
  : gmap string string :=
  if String.eqb id "__proto__" then result else <[id := value]> result.

(** [exportKeys()]: the loop over the entries of the map. *)
Definition exportKeys (m : t) : gmap string string :=
  fold_left (fun result '(id, key) => assign_property result id (Hex.toHex key))
    (map_to_list (keys m)) ∅.

(** [importKeys(keys)], over [Object.entries(keys)]. *)
Definition importKeys (m : t) (entries : list (string * string)) : t :=
  with_keys m
    (fold_left (fun acc '(id, hex) => <[Text.toLowerCase id := Hex.fromHex hex]> acc)
       entries (keys m)).

Section WithRuntime.
Context `{rt : Runtime}.

Definition fulfillRedemption (m : t)
  (tokenAddress checkpointId consumerAddress : string)
  (consumerPublicKey : list byte) (ent : Entropy) : Prog unit :=
  let normalizedId := Text.toLowerCase checkpointId in
  match keys m !! normalizedId with
  | None => Throw (NoKeyStored checkpointId)
  | Some K =>
      if decide (length consumerPublicKey ≠ 32%nat) then
        Throw (ConsumerKeyLength (length consumerPublicKey))
      else
        '(envelope, _) ← lift (wrapKey K consumerPublicKey (secretKey m) ent);
        let envelope :=
          {| Envelope.checkpointId := checkpointId;
             Envelope.wrappedKey := Envelope.wrappedKey envelope;
             Envelope.nonce := Envelope.nonce envelope;
             Envelope.senderPublicKey := Envelope.senderPublicKey envelope |} in
        await (DeliveryStoreEnvelope tokenAddress checkpointId consumerAddress envelope)
  end.

End WithRuntime.
End PublisherKeyManager.

(* ===================================================================== *)
(** * onChainKeyDelivery.ts: OnChainPublisherKeyManager                    *)
(* ===================================================================== *)

Module OnChainPublisherKeyManager.

Record t : Type := make {
  keys : gmap string (list byte);
  publicKey : list byte;
  secretKey : list byte;
}.

Definition create (publicKey secretKey : list byte) : t :=
  {| keys := ∅; publicKey := publicKey; secretKey := secretKey |}.

Definition storeKey (m : t) (checkpointId : string) (key : list byte) : t :=
  {| keys := <[Text.toLowerCase checkpointId := key]> (keys m);
     publicKey := publicKey m; secretKey := secretKey m |}.

Definition hasKey (m : t) (checkpointId : string) : bool :=
  bool_decide (is_Some (keys m !! Text.toLowerCase checkpointId)).

Section WithRuntime.
Context `{rt : Runtime}.

Definition fulfillRedemption (m : t)
  (tokenAddress checkpointId consumerAddress : string)
  (consumerPublicKey : list byte) (ent : Entropy) : Prog unit :=
  let normalizedId := Text.toLowerCase checkpointId in
  match keys m !! normalizedId with
  | None => Throw (NoKeyStored checkpointId)
  | Some K =>
      if decide (length consumerPublicKey ≠ 32%nat) then
        Throw (ConsumerKeyLength (length consumerPublicKey))
      else
        '(envelope, _) ← lift (wrapKey K consumerPublicKey (secretKey m) ent);
        let envelope :=
          {| Envelope.checkpointId := checkpointId;
             Envelope.wrappedKey := Envelope.wrappedKey envelope;
             Envelope.nonce := Envelope.nonce envelope;
             Envelope.senderPublicKey := Envelope.senderPublicKey envelope |} in
        await (DeliveryStoreEnvelope tokenAddress checkpointId consumerAddress envelope)
  end.

End WithRuntime.
End OnChainPublisherKeyManager.

(* ===================================================================== *)
(** * client.ts: MindstateClient                                           *)
(* ===================================================================== *)

Module MindstateClient.

(** The client: a provider is always there, a signer is optional. *)
Record t : Type := make { signer : bool }.

Section WithRuntime.
Context `{rt : Runtime}.

Definition getCheckpoint (tokenAddress checkpointId : string)
  : Prog CheckpointRecord :=
  cp ← await (ContractGetCheckpoint tokenAddress checkpointId);
  Ret {| Checkpoint.checkpointId := checkpointId;
         Checkpoint.predecessorId := Raw.predecessorId cp;
         Checkpoint.stateCommitment := Raw.stateCommitment cp;
         Checkpoint.ciphertextHash := Raw.ciphertextHash cp;
         Checkpoint.ciphertextUri := Raw.ciphertextUri cp;
         Checkpoint.manifestHash := Raw.manifestHash cp;
         Checkpoint.publishedAt := Raw.publishedAt cp;
         Checkpoint.blockNumber := Raw.blockNumber cp |}.

Definition hasRedeemed (tokenAddress account checkpointId : string) : Prog bool :=
  await (ContractHasRedeemed tokenAddress account checkpointId).

(** [redeem]: [writeContract] throws without a signer. *)
Definition redeem (client : t) (tokenAddress checkpointId : string) : Prog unit :=
  if signer client then await (ContractRedeem tokenAddress checkpointId)
  else Throw SignerRequiredToWrite.

(** The steps of [consume] after the envelope is in hand (4 to 11). *)
Definition consume_rest (tokenAddress checkpointId : string)
  (keyEnvelope : KeyEnvelope) (secretKey : list byte)
  : Prog (Capsule * CheckpointRecord) :=
  checkpoint ← getCheckpoint tokenAddress checkpointId;
  ciphertext ← await (StorageDownload (Checkpoint.ciphertextUri checkpoint));
  _ ← lift (verifyCiphertextHash ciphertext (Checkpoint.ciphertextHash checkpoint));
  contentKey ← lift (unwrapKey keyEnvelope secretKey);
  plaintext ← lift (decrypt ciphertext contentKey);
  capsule ← lift (deserializeCapsule plaintext);
  _ ← lift (verifyStateCommitment capsule (Checkpoint.stateCommitment checkpoint));
  Ret (capsule, checkpoint).

Definition consume (client : t) (tokenAddress checkpointId : string)
  (secretKey : list byte) : Prog (Capsule * CheckpointRecord) :=
  signerAddress ←
    (if signer client then address ← await SignerGetAddress; Ret (Some address)
     else Ret None);
  match signerAddress with
  | None | Some "" => Throw SignerRequiredToConsume
  | Some signerAddress =>
      alreadyRedeemed ← hasRedeemed tokenAddress signerAddress checkpointId;
      keyEnvelope ←
        (if negb alreadyRedeemed then
           keyEnvelope ←
             try_catch
               (await (DeliveryFetchEnvelope tokenAddress checkpointId signerAddress))
               (fun _ => Throw EnvelopeNotYetAvailable);
           _ ← redeem client tokenAddress checkpointId;
           Ret keyEnvelope
         else
           await (DeliveryFetchEnvelope tokenAddress checkpointId signerAddress));
      consume_rest tokenAddress checkpointId keyEnvelope secretKey
  end.

End WithRuntime.
End MindstateClient.

(* ===================================================================== *)
(** * explorer.ts: MindstateExplorer                                       *)
(* ===================================================================== *)

Module MindstateExplorer.

(** The two numbers of the record are kept as the integers the contract
    returns ([Number(...)] is exact below 2^53). *)
Definition parseCheckpointFromContract (checkpointId : string) (cp : Raw.t)
  : CheckpointRecord :=
  {| Checkpoint.checkpointId := checkpointId;
     Checkpoint.predecessorId := Raw.predecessorId cp;
     Checkpoint.stateCommitment := Raw.stateCommitment cp;
     Checkpoint.ciphertextHash := Raw.ciphertextHash cp;
     Checkpoint.ciphertextUri := Raw.ciphertextUri cp;
     Checkpoint.manifestHash := Raw.manifestHash cp;
     Checkpoint.publishedAt := Raw.publishedAt cp;
     Checkpoint.blockNumber := Raw.blockNumber cp |}.

(** The [while] loop of [getLineage] for [maxDepth] a natural number, from
    the state ([currentId], [lineage], [visited]) at the top of an
    iteration.  The loop runs while [lineage.length < maxDepth], so
    [maxDepth - lineage.length] decreases.  [Host.getLineage] below has
    [maxDepth] as the number it is in the source. *)
Equations? lineage_walk (tokenAddress : string) (maxDepth : nat)
  (currentId : string) (lineage : list CheckpointRecord) (visited : gset string)
  : Prog (list CheckpointRecord) by wf (maxDepth - length lineage)%nat lt :=
lineage_walk tokenAddress maxDepth currentId lineage visited
  with decide (currentId ≠ ZERO_BYTES32 ∧ (length lineage < maxDepth)%nat) := {
  | right _ => Ret lineage
  | left _ =>
      let normalizedId := Text.toLowerCase currentId in
      if decide (normalizedId ∈ visited) then Throw (LineageCycle currentId)
      else
        Await (ContractGetCheckpoint tokenAddress currentId) (fun r =>
          match r with
          | Err e => Throw e
          | Ok cp =>
              if decide (Raw.publishedAt cp = 0%Z) then
                Throw (CheckpointNotFound currentId)
              else
                lineage_walk tokenAddress maxDepth (Raw.predecessorId cp)
                  (lineage ++ [parseCheckpointFromContract currentId cp])
                  (visited ∪ {[normalizedId]})
          end) }.
Proof.
  rewrite length_app. simpl. lia.
Qed.

Definition getLineage (tokenAddress checkpointId : string) (maxDepth : nat)
  : Prog (list CheckpointRecord) :=
  lineage_walk tokenAddress maxDepth checkpointId [] ∅.

End MindstateExplorer.

(* ===================================================================== *)
(** * The host's numbers and its toLowerCase                               *)
(* ===================================================================== *)

(** A JavaScript number, as far as comparing it with the length of an
    array needs it.  A finite number is the fraction [num / den] (every
    finite double is one); besides there are the two infinities and
    [NaN]. *)
Module JsNumber.

Inductive t : Type :=
| Finite (num : Z) (den : positive)
| PosInfinity
| NegInfinity
| NaN.

(** A natural number as a number. *)
Definition of_nat (n : nat) : t := Finite (Z.of_nat n) 1.

(** [n < x] for an array length [n]; a comparison with [NaN] is false. *)
Definition length_lt (n : nat) (x : t) : bool :=
  match x with
  | Finite num den => (Z.of_nat n * Z.pos den <? num)%Z
  | PosInfinity => true
  | NegInfinity | NaN => false
  end.

End JsNumber.

(** The functions whose result depends on how letters outside ASCII are
    lowercased, once more, with the host's [String.prototype.toLowerCase]
    as a parameter.  The host lowercases by the Unicode case tables, of
    which [Text.toLowerCase] is the ASCII part; nothing is assumed of the
    parameter.  [getLineage] is given with [maxDepth] as the number it
    is in the source. *)
Module Host.
Section WithLowercase.
Context `{rt : Runtime}.
Variable toLowerCase : string -> string.

(** verify.ts: the body of [for (let i = 1; i < checkpoints.length; i++)],
    over the indices still to visit. *)
Fixpoint lineage_links (indices : list nat) (checkpoints : list CheckpointRecord)
  : result bool :=
  match indices with
  | [] => Ok true
  | i :: rest =>
      match checkpoints !! (i - 1)%nat, checkpoints !! i with
      | Some prev, Some curr =>
          if decide (toLowerCase (Checkpoint.predecessorId curr)
                     ≠ toLowerCase (Checkpoint.checkpointId prev))
          then Err (LineageBroken i (Checkpoint.checkpointId prev)
                      (Checkpoint.predecessorId curr))
          else lineage_links rest checkpoints
      | _, _ => Err (Thrown "TypeError: cannot read properties of undefined")
      end
  end.

Definition verifyCheckpointLineage (checkpoints : list CheckpointRecord)
  : result bool :=
  match checkpoints with
  | [] => Ok true
  | first :: _ =>
      if decide (toLowerCase (Checkpoint.predecessorId first) ≠ ZERO_BYTES32)
      then Err (GenesisPredecessorNotZero (Checkpoint.predecessorId first))
      else lineage_links (seq 1 (length checkpoints - 1)) checkpoints
  end.

(** keyDelivery.ts *)
Definition computeEnvelopeId (tokenAddress checkpointId consumerAddress : string)
  : string :=
  let input :=
    toLowerCase tokenAddress +:+ ":" +:+
    toLowerCase checkpointId +:+ ":" +:+
    toLowerCase consumerAddress in
  Hex.toHex (keccak_256 (Text.encode input)).

(** explorer.ts: the [while] loop of [getLineage], from the state
    ([currentId], [lineage], [visited]) at the top of an iteration.  With
    [maxDepth] infinite the loop need not end, so the walk is given the
    number [fuel] of iterations it may make: [None] says that the loop was
    still running when they were used up. *)
Fixpoint lineage_walk (fuel : nat) (tokenAddress : string) (maxDepth : JsNumber.t)
  (currentId : string) (lineage : list CheckpointRecord) (visited : gset string)
  : Prog (option (list CheckpointRecord)) :=
  if bool_decide (currentId ≠ ZERO_BYTES32)
     && JsNumber.length_lt (length lineage) maxDepth
  then
    match fuel with
    | O => Ret None
    | S fuel =>
        let normalizedId := toLowerCase currentId in
        if decide (normalizedId ∈ visited) then Throw (LineageCycle currentId)
        else
          Await (ContractGetCheckpoint tokenAddress currentId) (fun r =>
            match r with
            | Err e => Throw e
            | Ok cp =>
                if decide (Raw.publishedAt cp = 0%Z) then
                  Throw (CheckpointNotFound currentId)
                else
                  lineage_walk fuel tokenAddress maxDepth (Raw.predecessorId cp)
                    (lineage ++ [MindstateExplorer.parseCheckpointFromContract currentId cp])
                    (visited ∪ {[normalizedId]})
            end)
    end
  else Ret (Some lineage).

(** [getLineage(tokenAddress, checkpointId, maxDepth = 10000)]. *)
Definition getLineage (fuel : nat) (tokenAddress checkpointId : string)
  (maxDepth : option JsNumber.t) : Prog (option (list CheckpointRecord)) :=
  let maxDepth := default (JsNumber.Finite 10000 1) maxDepth in
  lineage_walk fuel tokenAddress maxDepth checkpointId [] ∅.

End WithLowercase.
End Host.

(* ===================================================================== *)
(** * capsule.ts: constructing capsules                                    *)
(* ===================================================================== *)

(** The [throw]s of the code modelled from here on, by their message. *)
Definition PayloadNotObject : Error :=
  Thrown "Mindstate: payload must be a non-null object".
Definition IdentityKernelRequired : Error :=
  Thrown "Mindstate: identityKernel with a valid id is required".
Definition ExecutionManifestRequired : Error :=
  Thrown "Mindstate: executionManifest with a valid modelId is required".
Definition ManifestModelIdRequired : Error :=
  Thrown "Mindstate: manifest.modelId is required".
Definition DescriptionIdRequired : Error :=
  Thrown "Mindstate: checkpointId is required in description".

(** The [options] of [createCapsule]: [{ schema?: string; version?: string }]. *)
Module CapsuleOptions.
Record t : Type := make {
  schema : option string;
  version : option string;
}.
End CapsuleOptions.

Section CapsuleConstruction.
Context `{rt : Runtime}.

Definition createCapsule (payload : JsValue) (options : option CapsuleOptions.t)
  : result Capsule :=
  if negb (Js.truthy payload) || negb (Js.is_object_type payload) || Js.isArray payload then
    Err PayloadNotObject
  else
    let version := default "1.0.0" (options ≫= CapsuleOptions.version) in
    let capsule : gmap string JsValue :=
      list_to_map [ ("version", JString version); ("payload", payload) ] in
    let capsule :=
      match options ≫= CapsuleOptions.schema with
      | Some schema =>
          if String.eqb schema "" then capsule else <["schema" := JString schema]> capsule
      | None => capsule
      end in
    Ok (JObject capsule).

(** [createAgentCapsule({ identityKernel, executionManifest, memoryIndex })];
    an absent [memoryIndex] is [JUndefined]. *)
Definition createAgentCapsule (identityKernel executionManifest memoryIndex : JsValue)
  : result Capsule :=
  if negb (Js.truthy identityKernel) || negb (Js.truthy (Js.get identityKernel "id")) then
    Err IdentityKernelRequired
  else if negb (Js.truthy executionManifest)
          || negb (Js.truthy (Js.get executionManifest "modelId")) then
    Err ExecutionManifestRequired
  else
    let payload :=
      JObject (list_to_map
        [ ("identityKernel", identityKernel);
          ("executionManifest", executionManifest);
          ("memoryIndex",
           if Js.is_null memoryIndex || Js.is_undefined memoryIndex then
             JObject (list_to_map [ ("version", JString "1.0.0"); ("segments", JArray []) ])
           else memoryIndex) ]) in
    Ok (JObject (list_to_map
          [ ("version", JString "1.0.0");
            ("schema", JString "agent/v1");
            ("payload", payload) ])).

Definition serializeManifest (manifest : JsValue) : result (list byte) :=
  if Js.is_null manifest || Js.is_undefined manifest then
    Err (Thrown "TypeError: cannot read properties of undefined")
  else
    let modelId := Js.get manifest "modelId" in
    if negb (Js.truthy modelId)
       || negb (match Js.typeof modelId with TString => true | _ => false end) then
      Err ManifestModelIdRequired
    else canonicalBytes manifest.

End CapsuleConstruction.

(* ===================================================================== *)
(** * tierPolicy.ts                                                        *)
(* ===================================================================== *)

Inductive StorageTier : Type := Hot | Warm | Cold.

#[global] Instance StorageTier_eq_dec : EqDecision StorageTier.
Proof. solve_decision. Defined.

(** [TierContext]; every field is optional. *)
Module TierContext.
Record t : Type := make {
  label : option string;
  tags : option (list string);
  checkpointIndex : option Z;
  isGenesis : option bool;
}.
End TierContext.

Module DefaultTierPolicy.
Definition resolveTier (context : TierContext.t) : StorageTier := Hot.
End DefaultTierPolicy.

Module PromotionTierPolicy.

Record t : Type := make {
  coldTags : gset string;
  warmTags : gset string;
  promoteGenesis : bool;
}.

(** The constructor's [options]. *)
Module Options.
Record t : Type := make {
  coldTags : option (list string);
  warmTags : option (list string);
  promoteGenesis : option bool;
}.
End Options.

(** [new PromotionTierPolicy(options)]. *)
Definition create (options : option Options.t) : t :=
  {| coldTags :=
       list_to_set (default ["stable"; "release"; "canonical"; "genesis"]
                      (options ≫= Options.coldTags));
     warmTags :=
       list_to_set (default ["archive"; "compliance"; "audit"]
                      (options ≫= Options.warmTags));
     promoteGenesis := default true (options ≫= Options.promoteGenesis) |}.

(** [for (const tag of tags) { if (set.has(tag.toLowerCase())) return ... }]:
    whether the loop returns. *)
Fixpoint some_tag_in (set : gset string) (tags : list string) : bool :=
  match tags with
  | [] => false
  | tag :: rest =>
      if bool_decide (Text.toLowerCase tag ∈ set) then true else some_tag_in set rest
  end.

(** [context.label && set.has(context.label.toLowerCase())]. *)
Definition label_in (set : gset string) (label : option string) : bool :=
  match label with
  | Some l => negb (String.eqb l "") && bool_decide (Text.toLowerCase l ∈ set)
  | None => false
  end.

Definition resolveTier (p : t) (context : TierContext.t) : StorageTier :=
  if promoteGenesis p && default false (TierContext.isGenesis context) then Cold
  else if label_in (coldTags p) (TierContext.label context) then Cold
  else if label_in (warmTags p) (TierContext.label context) then Warm
  else
    match TierContext.tags context with
    | Some tags =>
        if some_tag_in (coldTags p) tags then Cold
        else if some_tag_in (warmTags p) tags then Warm
        else Hot
    | None => Hot
    end.

End PromotionTierPolicy.

(* ===================================================================== *)
(** * types.ts: StorageProvider and CheckpointDescription                  *)
(* ===================================================================== *)

(** A [StorageProvider] over a store of type [S]: each method takes the
    store as it is and gives the way the promise settles and the store
    afterwards. *)
Module StorageProvider.
Record t (S : Type) : Type := make {
  upload : list byte -> S -> result string * S;
  download : string -> S -> result (list byte) * S;
}.
Arguments make {S} upload download.
Arguments upload {S} _ _ _.
Arguments download {S} _ _ _.
End StorageProvider.

(** [CheckpointDescription]. *)
Module Description.
Record t : Type := make {
  checkpointId : string;
  title : option string;
  description : option string;
  tags : option (list string);
  metadata : option JsValue;
}.
End Description.
Abbreviation CheckpointDescription := Description.t.

(** A JavaScript [Map] with string keys whose iteration order is
    observed: the entries in insertion order; [set] on a key that is
    present replaces the value where it stands. *)
Module JsMap.
Section WithValues.
Context {V : Type}.

Definition t : Type := list (string * V).

Fixpoint get (k : string) (m : t) : option V :=
  match m with
  | [] => None
  | (k', v) :: rest => if String.eqb k k' then Some v else get k rest
  end.

Fixpoint set (k : string) (v : V) (m : t) : t :=
  match m with
  | [] => [(k, v)]
  | (k', v') :: rest =>
      if String.eqb k k' then (k', v) :: rest else (k', v') :: set k v rest
  end.

Definition values (m : t) : list V := m.*2.

Definition keys (m : t) : list string := m.*1.

End WithValues.
Arguments t V : clear implicits.
End JsMap.

(* ===================================================================== *)
(** * keyDelivery.ts: StorageKeyDelivery                                   *)
(* ===================================================================== *)

(** [loadIndex], [publishIndex], [loadFullIndex] and [publishFullIndex],
    which read and write the maps as JSON documents, are left out. *)
Module StorageKeyDelivery.

(** The private maps [index] (envelope identifier to storage URI) and
    [descriptions]. *)
Record t : Type := make {
  index : gmap string string;
  descriptions : JsMap.t CheckpointDescription;
}.

(** [new StorageKeyDelivery(storage, existingIndex)], over
    [Object.entries(existingIndex)]. *)
Definition create (existingIndex : option (list (string * string))) : t :=
  {| index :=
       match existingIndex with
       | Some entries => fold_left (fun acc '(k, v) => <[k := v]> acc) entries ∅
       | None => ∅
       end;
     descriptions := [] |}.


Definition setDescription (d : t) (desc : CheckpointDescription) : result t :=
  if String.eqb (Description.checkpointId desc) "" then Err DescriptionIdRequired
  else
    Ok {| index := index d;
          descriptions :=
            JsMap.set (Text.toLowerCase (Description.checkpointId desc)) desc
              (descriptions d) |}.

Definition getDescription (d : t) (checkpointId : string) : option CheckpointDescription :=
  JsMap.get (Text.toLowerCase checkpointId) (descriptions d).

Definition getAllDescriptions (d : t) : list CheckpointDescription :=
  JsMap.values (descriptions d).

Section WithStorage.
Context `{rt : Runtime} {S : Type} (storage : StorageProvider.t S).



End WithStorage.
End StorageKeyDelivery.

(* ===================================================================== *)
(** * sealed.ts: upload, download and key sharing                          *)
(* ===================================================================== *)

(** [SealReceipt]. *)
Module Receipt.
Record t : Type := make {
  stateCommitment : string;
  ciphertextHash : string;
  metadataHash : string;
  ciphertextUri : string;
  sealedAt : string;
}.
End Receipt.
Abbreviation SealReceipt := Receipt.t.

(** What [sealAndUpload] resolves to. *)
Module Uploaded.
Record t : Type := make {
  sealed : SealedCapsule;
  uri : string;
  receipt : SealReceipt;
}.
End Uploaded.

Section SealedStorage.
Context `{rt : Runtime} {S : Type}.

(** [now] is what [new Date().toISOString()] gives once the upload has
    settled. *)
Definition sealAndUpload (capsule : Capsule) (storage : StorageProvider.t S)
  (metadata : JsValue) (ent : Entropy) (now : string) (st : S)
  : result (Uploaded.t * Entropy) * S :=
  match seal capsule metadata ent with
  | Err e => (Err e, st)
  | Ok (sealed, ent') =>
      match StorageProvider.upload storage (Sealed.ciphertext sealed) st with
      | (Err e, st') => (Err e, st')
      | (Ok uri, st') =>
          (Ok ({| Uploaded.sealed := sealed;
                  Uploaded.uri := uri;
                  Uploaded.receipt :=
                    {| Receipt.stateCommitment := Sealed.stateCommitment sealed;
                       Receipt.ciphertextHash := Sealed.contentHash sealed;
                       Receipt.metadataHash := Sealed.metadataHash sealed;
                       Receipt.ciphertextUri := uri;
                       Receipt.sealedAt := now |} |}, ent'), st')
      end
  end.

Definition downloadAndUnseal (uri : string) (key : list byte)
  (storage : StorageProvider.t S) (stateCommitment ciphertextHash : option string) (st : S)
  : result Capsule * S :=
  match StorageProvider.download storage uri st with
  | (Ok ciphertext, st') => (unseal ciphertext key stateCommitment ciphertextHash, st')
  | (Err e, st') => (Err e, st')
  end.

Definition wrapKeyForRecipient (contentKey recipientPublicKey senderSecretKey : list byte)
  (ent : Entropy) : result (KeyEnvelope * Entropy) :=
  wrapKey contentKey recipientPublicKey senderSecretKey ent.

Definition unwrapKeyFromEnvelope (envelope : KeyEnvelope) (recipientSecretKey : list byte)
  : result (list byte) :=
  unwrapKey envelope recipientSecretKey.

End SealedStorage.

(* ===================================================================== *)
(** * A reference runtime                                                  *)
(* ===================================================================== *)

(** Executable definitions of the [Runtime] fields, used to run the SDK on
    concrete inputs.  [JSON_parse], [JSON_stringify] and [canonicalize]
    follow ECMA-404, [JSON.stringify] and the canonicalize package on
    ASCII documents with integer numbers (an object prints its members in
    key order).  The digest, the authenticated cipher and the box are
    stand-ins with the interface and the size conventions of keccak-256,
    AES-256-GCM and curve25519-xsalsa20-poly1305: they are not those
    algorithms. *)
Module Reference.

Definition dq : ascii := ascii_of_nat 34.
Definition backslash : ascii := ascii_of_nat 92.

(** A JSON string literal for [s]. *)
Fixpoint escape (s : string) : string :=
  match s with
  | EmptyString => EmptyString
  | String c r =>
      let n := nat_of_ascii c in
      (if Ascii.eqb c dq then String backslash (String dq EmptyString)
       else if Ascii.eqb c backslash then String backslash (String backslash EmptyString)
       else if (n =? 8)%nat then String backslash "b"
       else if (n =? 9)%nat then String backslash "t"
       else if (n =? 10)%nat then String backslash "n"
       else if (n =? 12)%nat then String backslash "f"
       else if (n =? 13)%nat then String backslash "r"
       else if (n <? 32)%nat then
         String backslash ("u00" +:+ Hex.of_byte (byte_of_ascii c))
       else String c EmptyString) +:+ escape r
  end.

Definition quote (s : string) : string :=
  String dq (escape s +:+ String dq EmptyString).

Definition number (n : Z) : string := NilEmpty.string_of_int (Z.to_int n).

Fixpoint join (parts : list string) : string :=
  match parts with
  | [] => EmptyString
  | [p] => p
  | p :: rest => p +:+ "," +:+ join rest
  end.

Definition by_key (a b : string * string) : Prop := String.le a.1 b.1.
#[global] Instance by_key_dec : RelDecision by_key := fun a b => decide (String.le a.1 b.1).

Definition members (printed : list (string * string)) : string :=
  "{" +:+ join (map (fun kv => quote kv.1 +:+ ":" +:+ kv.2) (merge_sort by_key printed)) +:+ "}".

(** [JSON.stringify(v)]; [None] is [undefined]. *)
Fixpoint stringify (v : JsValue) : option string :=
  match v with
  | JUndefined | JFunction => None
  | JNull => Some "null"
  | JBool true => Some "true"
  | JBool false => Some "false"
  | JNumber n => Some (number n)
  | JString s => Some (quote s)
  | JArray items =>
      Some ("[" +:+ join (map (fun item => default "null" (stringify item)) items) +:+ "]")
  | JObject props =>
      Some (members
        (map_fold (fun k item acc =>
           match stringify item with
           | Some text => (k, text) :: acc
           | None => acc
           end) [] props))
  end.

(** The canonicalize package, below the top level: an [undefined] array
    item prints as [null], an [undefined] member is left out, and a value
    [JSON.stringify] has no text for is interpolated as [undefined]. *)
Fixpoint canonical (v : JsValue) : string :=
  match v with
  | JArray items =>
      "[" +:+ join (map (fun item =>
         match item with JUndefined => "null" | _ => canonical item end) items) +:+ "]"
  | JObject props =>
      members
        (map_fold (fun k item acc =>
           match item with
           | JUndefined => acc
           | _ => (k, canonical item) :: acc
           end) [] props)
  | _ => default "undefined" (stringify v)
  end.

Definition canonicalize (v : JsValue) : External (option string) :=
  match v with
  | JArray _ | JObject _ => Returns (Some (canonical v))
  | _ => Returns (stringify v)
  end.

(** ** JSON.parse *)

Definition is_ws (c : ascii) : bool :=
  let n := nat_of_ascii c in
  (n =? 32)%nat || (n =? 9)%nat || (n =? 10)%nat || (n =? 13)%nat.

Fixpoint skip_ws (s : string) : string :=
  match s with
  | String c r => if is_ws c then skip_ws r else s
  | EmptyString => s
  end.

Definition is_digit (c : ascii) : bool :=
  let n := nat_of_ascii c in (48 <=? n)%nat && (n <=? 57)%nat.

(** The characters of a string literal after its opening quote, and what
    follows the closing quote. *)
Fixpoint parse_chars (s : string) : option (string * string) :=
  match s with
  | EmptyString => None
  | String c r =>
      if Ascii.eqb c dq then Some (EmptyString, r)
      else if Ascii.eqb c backslash then
        match r with
        | String "u" (String "0" (String "0" (String a (String b r')))) =>
            match Hex.digit_value a, Hex.digit_value b, parse_chars r' with
            | Some x, Some y, Some (body, rest) =>
                if (x <? 8)%Z then
                  Some (String (ascii_of_N (Z.to_N (16 * x + y))) body, rest)
                else None
            | _, _, _ => None
            end
        | String e r' =>
            let unescaped :=
              if Ascii.eqb e dq then Some dq
              else if Ascii.eqb e backslash then Some backslash
              else if Ascii.eqb e "/" then Some "/"%char
              else if Ascii.eqb e "b" then Some (ascii_of_nat 8)
              else if Ascii.eqb e "t" then Some (ascii_of_nat 9)
              else if Ascii.eqb e "n" then Some (ascii_of_nat 10)
              else if Ascii.eqb e "f" then Some (ascii_of_nat 12)
              else if Ascii.eqb e "r" then Some (ascii_of_nat 13)
              else None in
            match unescaped, parse_chars r' with
            | Some u, Some (body, rest) => Some (String u body, rest)
            | _, _ => None
            end
        | EmptyString => None
        end
      else if (nat_of_ascii c <? 32)%nat then None
      else
        match parse_chars r with
        | Some (body, rest) => Some (String c body, rest)
        | None => None
        end
  end.

Fixpoint parse_digits (acc : Z) (s : string) : Z * string :=
  match s with
  | String c r =>
      if is_digit c then parse_digits (acc * 10 + (Z.of_nat (nat_of_ascii c) - 48)) r
      else (acc, s)
  | EmptyString => (acc, s)
  end.

(** An integer literal: no leading zeros, no fraction, no exponent. *)
Definition parse_number (s : string) : option (Z * string) :=
  let '(negative, s) :=
    match s with String "-" r => (true, r) | _ => (false, s) end in
  match s with
  | String c r =>
      if negb (is_digit c) then None
      else if Ascii.eqb c "0" && match r with String d _ => is_digit d | _ => false end
      then None
      else
        let '(n, rest) := parse_digits 0 s in
        match rest with
        | String "." _ | String "e" _ | String "E" _ => None
        | _ => Some (if negative then (- n)%Z else n, rest)
        end
  | EmptyString => None
  end.

Definition expect (word : string) (v : JsValue) (s : string) : option (JsValue * string) :=
  if String.prefix word s then Some (v, Text.slice_from (String.length word) s) else None.

Fixpoint parse_value (fuel : nat) (s : string) : option (JsValue * string) :=
  match fuel with
  | O => None
  | S fuel' =>
      match skip_ws s with
      | EmptyString => None
      | String c r as s' =>
          if Ascii.eqb c "n" then expect "null" JNull s'
          else if Ascii.eqb c "t" then expect "true" (JBool true) s'
          else if Ascii.eqb c "f" then expect "false" (JBool false) s'
          else if Ascii.eqb c dq then
            match parse_chars r with
            | Some (body, rest) => Some (JString body, rest)
            | None => None
            end
          else if Ascii.eqb c "[" then
            match skip_ws r with
            | String "]" rest => Some (JArray [], rest)
            | _ =>
                match parse_items fuel' r with
                | Some (items, rest) => Some (JArray items, rest)
                | None => None
                end
            end
          else if Ascii.eqb c "{" then
            match skip_ws r with
            | String "}" rest => Some (JObject ∅, rest)
            | _ =>
                match parse_members fuel' r with
                | Some (props, rest) => Some (JObject (list_to_map (rev props)), rest)
                | None => None
                end
            end
          else
            match parse_number s' with
            | Some (n, rest) => Some (JNumber n, rest)
            | None => None
            end
      end
  end
with parse_items (fuel : nat) (s : string) : option (list JsValue * string) :=
  match fuel with
  | O => None
  | S fuel' =>
      match parse_value fuel' s with
      | Some (item, rest) =>
          match skip_ws rest with
          | String "," rest' =>
              match parse_items fuel' rest' with
              | Some (items, rest'') => Some (item :: items, rest'')
              | None => None
              end
          | String "]" rest' => Some ([item], rest')
          | _ => None
          end
      | None => None
      end
  end
with parse_members (fuel : nat) (s : string)
  : option (list (string * JsValue) * string) :=
  match fuel with
  | O => None
  | S fuel' =>
      match skip_ws s with
      | String c r =>
          if Ascii.eqb c dq then
            match parse_chars r with
            | Some (key, rest) =>
                match skip_ws rest with
                | String ":" rest' =>
                    match parse_value fuel' rest' with
                    | Some (item, rest'') =>
                        match skip_ws rest'' with
                        | String "," rest3 =>
                            match parse_members fuel' rest3 with
                            | Some (more, rest4) => Some ((key, item) :: more, rest4)
                            | None => None
                            end
                        | String "}" rest3 => Some ([(key, item)], rest3)
                        | _ => None
                        end
                    | None => None
                    end
                | _ => None
                end
            | None => None
            end
          else None
      | EmptyString => None
      end
  end.

Definition JSON_parse (text : string) : External JsValue :=
  match parse_value (2 * String.length text + 2) text with
  | Some (v, rest) =>
      match skip_ws rest with
      | EmptyString => Returns v
      | _ => Throws "Unexpected non-whitespace character after JSON"
      end
  | None => Throws "Unexpected token in JSON"
  end.

Definition JSON_stringify (v : JsValue) : string := default "" (stringify v).

(** ** Stand-ins for the cryptographic libraries *)

Fixpoint big_endian (width : nat) (n : N) : list byte :=
  match width with
  | O => []
  | S w => big_endian w (n / 256) ++ [default x00 (Byte.of_N (n mod 256))]
  end.

(** A 32-byte checksum in place of keccak-256. *)
Definition digest (data : list byte) : list byte :=
  big_endian 32
    (fold_left (fun acc b => ((acc * 257 + Byte.to_N b + 1) mod (2 ^ 256))%N) data 0%N).

(** An authenticated cipher in place of AES-256-GCM: the ciphertext is
    the plaintext reversed, the 16-byte tag is computed from key, nonce
    and ciphertext. *)
Definition tag_of (key iv ciphertext : list byte) : list byte :=
  take 16 (digest (key ++ iv ++ ciphertext)).

Definition gcm_encrypt (key iv plaintext : list byte) : list byte * list byte :=
  let ciphertext := rev plaintext in (ciphertext, tag_of key iv ciphertext).

Definition gcm_decrypt (key iv ciphertext authTag : list byte) : External (list byte) :=
  if decide (authTag = tag_of key iv ciphertext) then Returns (rev ciphertext)
  else Throws "Unsupported state or unable to authenticate data".

(** A box in place of tweetnacl's: sizes are checked as tweetnacl checks
    them, the boxed message is the message behind 16 bytes. *)
Definition box_keyPair_fromSecretKey (secretKey : list byte) : External (list byte) :=
  if decide (length secretKey = 32%nat) then Returns (rev secretKey)
  else Throws "bad secret key size".

Definition box (msg nonce publicKey secretKey : list byte) : External (option (list byte)) :=
  if decide (length publicKey = 32%nat ∧ length secretKey = 32%nat) then
    if decide (length nonce = 24%nat) then Returns (Some (List.repeat x00 16 ++ msg))
    else Throws "bad nonce size"
  else Throws "bad key size".

Definition box_open (boxed nonce publicKey secretKey : list byte)
  : External (option (list byte)) :=
  if decide (length publicKey = 32%nat ∧ length secretKey = 32%nat) then
    if decide (length nonce = 24%nat) then
      if decide (take 16 boxed = List.repeat x00 16) then Returns (Some (drop 16 boxed))
      else Returns None
    else Throws "bad nonce size"
  else Throws "bad key size".

#[global] Instance runtime : Runtime :=
  Build_Runtime digest canonicalize JSON_parse JSON_stringify
    gcm_encrypt gcm_decrypt box_keyPair_fromSecretKey box box_open.

End Reference.

(* ===================================================================== *)
(** * Vocabulary of the properties                                         *)
(* ===================================================================== *)

(** Record [i], for [i >= 1], does not chain from record [i - 1]. *)
Definition broken_at (checkpoints : list CheckpointRecord) (i : nat) : Prop :=
  (1 <= i)%nat /\
  exists prev curr,
    checkpoints !! (i - 1)%nat = Some prev /\ checkpoints !! i = Some curr /\
    ~ Text.eq_nocase (Checkpoint.predecessorId curr) (Checkpoint.checkpointId prev).

(** A checkpoint record for examples: only the two identifiers matter. *)
Definition record (id pred : string) : CheckpointRecord :=
  Checkpoint.make id pred "" "" "" "" 1 1.

(** A well-formed hex string: an optional 0x prefix, then an even number
    of hex digits. *)
Fixpoint all_hex_digits (s : string) : bool :=
  match s with
  | EmptyString => true
  | String c r =>
      match Hex.digit_value c with Some _ => all_hex_digits r | None => false end
  end.

Definition well_formed_hex (s : string) : bool :=
  let clean := if Text.startsWith s "0x" then Text.slice_from 2 s else s in
  all_hex_digits clean && Nat.even (String.length clean).

(** The four fields [deserializeEnvelope] requires. *)
Definition required_fields : list string :=
  ["checkpointId"; "wrappedKey"; "nonce"; "senderPublicKey"].

(** A required field is absent from the document, or its value is falsy
    ([null], [false], 0 or the empty string). *)
Definition field_missing (json : JsValue) : Prop :=
  exists k, k ∈ required_fields /\ Js.truthy (Js.get json k) = false.

(** A string between double quotes, for writing JSON text. *)
Definition q (s : string) : string :=
  String Reference.dq (s +:+ String Reference.dq EmptyString).

(** A JSON document with the four fields, one of them not hex. *)
Definition bad_hex_document : string :=
  "{" +:+ q "checkpointId" +:+ ":" +:+ q "0xabc123" +:+ "," +:+
  q "wrappedKey" +:+ ":" +:+ q "zz" +:+ "," +:+
  q "nonce" +:+ ":" +:+ q "0x0506" +:+ "," +:+
  q "senderPublicKey" +:+ ":" +:+ q "0x090a" +:+ "}".

(** An envelope as [wrapKey] returns it: the checkpoint is not filled in. *)
Definition unbound_envelope : KeyEnvelope :=
  Envelope.make "" [x01; x02; x03; x04] [x05; x06; x07; x08] [x09; x0a; x0b; x0c].

(** The envelope of the repository's round-trip test. *)
Definition test_envelope : KeyEnvelope :=
  Envelope.make "0xabc123" [x01; x02; x03; x04] [x05; x06; x07; x08] [x09; x0a; x0b; x0c].

(** The contract of AES-256-GCM that [seal] and [unseal] rely on: with a
    32-byte key and a 12-byte nonce, the tag is 16 bytes long and the
    decipher returns the plaintext for the ciphertext and tag the cipher
    produced. *)
Definition AES_GCM_correct `{rt : Runtime} : Prop :=
  forall key iv plaintext : list byte,
    length key = 32%nat -> length iv = 12%nat ->
    length (aes_256_gcm_encrypt key iv plaintext).2 = 16%nat
    /\ aes_256_gcm_decrypt key iv
         (aes_256_gcm_encrypt key iv plaintext).1
         (aes_256_gcm_encrypt key iv plaintext).2 = Returns plaintext.

(** [canonicalize] has a text for the value. *)
Definition canonicalizable `{rt : Runtime} (v : JsValue) : Prop :=
  exists text, canonicalize v = Returns (Some text).

(** The value is JSON-representable: [JSON.parse] reads it back from its
    canonical text. *)
Definition JSON_representable `{rt : Runtime} (v : JsValue) : Prop :=
  exists text, canonicalize v = Returns (Some text) /\ JSON_parse text = Returns v.

(** A capsule for examples: [{version: "1.0.0", payload: {model: "gpt-4o",
    memory: [1, 2]}}]. *)
Definition example_capsule : Capsule :=
  JObject (list_to_map
    [ ("version", JString "1.0.0");
      ("payload", JObject (list_to_map
         [ ("model", JString "gpt-4o");
           ("memory", JArray [JNumber 1; JNumber 2]) ])) ]).

(** An entropy stream for examples: 0, 1, 2, ... *)
Definition counting : Entropy := fun i => default x00 (Byte.of_nat (i mod 256)).

(** What fulfilling a redemption with the content key [K] does: check the
    consumer's key length, wrap [K] for the consumer with the publisher's
    secret key, bind the envelope to [checkpointId] and hand it to the
    delivery provider. *)
Definition deliver_wrapped `{rt : Runtime} (K secretKey : list byte)
  (tokenAddress checkpointId consumerAddress : string)
  (consumerPublicKey : list byte) (ent : Entropy) : Prog unit :=
  if decide (length consumerPublicKey ≠ 32%nat) then
    Throw (ConsumerKeyLength (length consumerPublicKey))
  else
    '(envelope, _) ← lift (wrapKey K consumerPublicKey secretKey ent);
    await (DeliveryStoreEnvelope tokenAddress checkpointId consumerAddress
             {| Envelope.checkpointId := checkpointId;
                Envelope.wrappedKey := Envelope.wrappedKey envelope;
                Envelope.nonce := Envelope.nonce envelope;
                Envelope.senderPublicKey := Envelope.senderPublicKey envelope |}).

(** Every key of the store is a lowercase identifier. *)
Definition lowercase_keys (keys : gmap string (list byte)) : Prop :=
  forall k, is_Some (keys !! k) -> Text.toLowerCase k = k.

(** A world for examples: whether the consumer has redeemed, the envelope
    delivered so far, the checkpoints on chain and the blobs in storage. *)
Module Mock.
Record t : Type := make {
  redeemed : bool;
  envelope : option KeyEnvelope;
  chain : gmap string Raw.t;
  blobs : gmap string (list byte);
}.

Definition not_found : Raw.t := Raw.make ZERO_BYTES32 "" "" "" "" 0 0.

Definition handler : Handler t := fun X call w =>
  match call in Call X return result X * t with
  | SignerGetAddress => (Ok "0xc0ffee", w)
  | ContractHasRedeemed _ _ _ => (Ok (redeemed w), w)
  | ContractRedeem _ _ => (Ok tt, make true (envelope w) (chain w) (blobs w))
  | ContractGetCheckpoint _ id => (Ok (default not_found (chain w !! id)), w)
  | DeliveryFetchEnvelope _ _ _ =>
      (match envelope w with
       | Some e => Ok e
       | None => Err (Thrown "Mindstate: on-chain key envelope not found.")
       end, w)
  | DeliveryStoreEnvelope _ _ _ e => (Ok tt, make (redeemed w) (Some e) (chain w) (blobs w))
  | StorageDownload uri =>
      (match blobs w !! uri with
       | Some data => Ok data
       | None => Err (Thrown "Not found")
       end, w)
  end.

Definition empty : t := make false None ∅ ∅.
End Mock.

(** An event that is neither a redemption nor a call about the envelope
    or the redemption status. *)
Definition quiet (ev : Event) : Prop :=
  is_redeem ev = false /\ is_fetch_ok ev = false /\ is_fetch_rejected ev = false
  /\ forall b, is_hasRedeemed b ev = false.

(** The identifiers a run looked up, oldest first. *)
Definition lookups (tr : list Event) : list string := omap lookup_id tr.

(** A record source that never reaches the zero sentinel: the predecessor
    of [id] is [id] followed by a zero digit. *)
Definition endless : Handler unit := fun X call w =>
  match call in Call X return result X * unit with
  | ContractGetCheckpoint _ id => (Ok (Raw.make (id +:+ "0") "" "" "" "" 1 1), w)
  | _ => (Err (Thrown "not available"), w)
  end.

(** A chain of two checkpoints that name each other as predecessor, the
    second in another letter case. *)
Definition two_cycle : Mock.t :=
  Mock.make false None
    (list_to_map [ ("0xaa", Raw.make "0xbb" "" "" "" "" 1 1);
                   ("0xbb", Raw.make "0xAA" "" "" "" "" 1 1) ]) ∅.

(** Publish, fulfil and consume on the reference runtime against the mock
    world: the capsule [consume] returns and, for each call it made,
    whether the call was [redeem]. *)
Definition publisher_secret : list byte := List.repeat x02 32.
Definition consumer_secret : list byte := List.repeat x03 32.
Definition consumer_public : list byte := rev consumer_secret.

Definition end_to_end : result (Capsule * list bool) :=
  '(sealed, ent1) ← seal (rt := Reference.runtime) example_capsule JUndefined counting;
  let raw :=
    Raw.make ZERO_BYTES32 (Sealed.stateCommitment sealed) (Sealed.contentHash sealed)
      "mock://0" (Sealed.metadataHash sealed) 1700000000 42 in
  let w0 :=
    Mock.make false None {["0xcp01" := raw]} {["mock://0" := Sealed.ciphertext sealed]} in
  let m :=
    PublisherKeyManager.storeKey
      (PublisherKeyManager.create (rev publisher_secret) publisher_secret)
      "0xCP01" (Sealed.encryptionKey sealed) in
  let w1 :=
    (run Mock.handler
       (PublisherKeyManager.fulfillRedemption (rt := Reference.runtime) m
          "0xToken" "0xcp01" "0xc0ffee" consumer_public ent1) w0).1.2 in
  let x :=
    run Mock.handler
      (MindstateClient.consume (rt := Reference.runtime) (MindstateClient.make true)
         "0xToken" "0xcp01" consumer_secret) w1 in
  '(capsule, _) ← outcome x;
  Ok (capsule, is_redeem <$> trace x).

(** The contract of tweetnacl's [box] that key wrapping relies on: with a
    24-byte nonce and the public keys derived from the two secret keys,
    what one party boxes for the other, the other opens. *)
Definition NaCl_box_correct `{rt : Runtime} : Prop :=
  forall msg nonce senderSecretKey recipientSecretKey senderPublicKey recipientPublicKey,
    length nonce = 24%nat ->
    nacl_box_keyPair_fromSecretKey senderSecretKey = Returns senderPublicKey ->
    nacl_box_keyPair_fromSecretKey recipientSecretKey = Returns recipientPublicKey ->
    exists boxed,
      nacl_box msg nonce recipientPublicKey senderSecretKey = Returns (Some boxed)
      /\ nacl_box_open boxed nonce senderPublicKey recipientSecretKey = Returns (Some msg).

(** The example capsule sealed on the reference runtime, with no
    metadata. *)
Definition example_sealed : SealedCapsule :=
  match seal (rt := Reference.runtime) example_capsule JUndefined counting with
  | Ok (sealed, _) => sealed
  | Err _ => Sealed.make [] "" "" "" []
  end.

(** The conditions [resolveTier] looks at: the checkpoint is a genesis
    checkpoint and the policy promotes those; the label is not empty and,
    lowercased, belongs to the set; some tag, lowercased, belongs to the
    set. *)
Definition genesis_promoted (p : PromotionTierPolicy.t) (context : TierContext.t) : Prop :=
  PromotionTierPolicy.promoteGenesis p = true /\ TierContext.isGenesis context = Some true.

Definition label_matches (set : gset string) (context : TierContext.t) : Prop :=
  exists l, TierContext.label context = Some l /\ l <> "" /\ Text.toLowerCase l ∈ set.

Definition tag_matches (set : gset string) (context : TierContext.t) : Prop :=
  exists tags tag,
    TierContext.tags context = Some tags /\ tag ∈ tags /\ Text.toLowerCase tag ∈ set.

(** A content-addressed store for examples: the URI of a blob is made of
    its hex digits. *)
Definition content_store : StorageProvider.t (gmap string (list byte)) :=
  StorageProvider.make
    (fun data st =>
       let uri := "mock://" +:+ Hex.digits data in (Ok uri, <[uri := data]> st))
    (fun uri st =>
       (match st !! uri with
        | Some data => Ok data
        | None => Err (Thrown "Not found")
        end, st)).

(** A description for examples. *)
Definition example_description (checkpointId title : string) : CheckpointDescription :=
  Description.make checkpointId (Some title) None None None.

(** A storage provider that keeps what it takes: every upload succeeds,
    and the URI it returns downloads the bytes uploaded. *)
Definition keeps_uploads {S : Type} (storage : StorageProvider.t S) : Prop :=
  forall data st,
    exists uri st1 st2,
      StorageProvider.upload storage data st = (Ok uri, st1)
      /\ StorageProvider.download storage uri st1 = (Ok data, st2).

(** The call is about the given token and checkpoint, or is one that
    names neither (asking the signer's address, a download); [consume]
    has no business storing envelopes. *)
Definition addressed_to (tokenAddress checkpointId : string) (ev : Event) : Prop :=
  match ev with
  | Called SignerGetAddress _ => True
  | Called (ContractHasRedeemed t _ c) _ => t = tokenAddress /\ c = checkpointId
  | Called (ContractRedeem t c) _ => t = tokenAddress /\ c = checkpointId
  | Called (ContractGetCheckpoint t c) _ => t = tokenAddress /\ c = checkpointId
  | Called (DeliveryFetchEnvelope t c _) _ => t = tokenAddress /\ c = checkpointId
  | Called (DeliveryStoreEnvelope _ _ _ _) _ => False
  | Called (StorageDownload _) _ => True
  end.

(** The mock world once the example capsule is sealed, recorded on chain
    as checkpoint [0xcp01], stored, and its key delivered to the
    consumer. *)
Definition example_checkpoint : Raw.t :=
  Raw.make ZERO_BYTES32 (Sealed.stateCommitment example_sealed)
    (Sealed.contentHash example_sealed) "mock://0" (Sealed.metadataHash example_sealed)
    1700000000 42.

Definition delivered_world : Mock.t :=
  let w0 :=
    Mock.make false None {["0xcp01" := example_checkpoint]}
      {["mock://0" := Sealed.ciphertext example_sealed]} in
  let m :=
    PublisherKeyManager.storeKey
      (PublisherKeyManager.create (rev publisher_secret) publisher_secret)
      "0xCP01" (Sealed.encryptionKey example_sealed) in
  (run Mock.handler
     (PublisherKeyManager.fulfillRedemption (rt := Reference.runtime) m
        "0xToken" "0xcp01" "0xc0ffee" consumer_public counting) w0).1.2.

(** The records form a chain from [start]: the first was looked up under
    [start], each next one under the predecessor the one before it
    names. *)
Fixpoint chained (start : string) (lineage : list CheckpointRecord) : Prop :=
  match lineage with
  | [] => True
  | r :: rest =>
      Checkpoint.checkpointId r = start /\ chained (Checkpoint.predecessorId r) rest
  end.

(** A chain of two checkpoints for examples: [0xb2] follows [0xa1], which
    is the genesis. *)
Definition two_chain : Mock.t :=
  Mock.make false None
    (list_to_map [ ("0xb2", Raw.make "0xa1" "" "" "" "" 1 1);
                   ("0xa1", Raw.make ZERO_BYTES32 "" "" "" "" 1 1) ]) ∅.

(** The string has ASCII characters only.  Of such a string the UTF-8
    bytes are the UTF-16 code units, and [Text.toLowerCase] is the host's
    [toLowerCase]. *)
Definition is_ascii_char (c : ascii) : bool := (nat_of_ascii c <? 128)%nat.

Fixpoint is_ascii (s : string) : bool :=
  match s with
  | EmptyString => true
  | String c r => is_ascii_char c && is_ascii r
  end.

(** The bytes are ASCII: [TextDecoder] decodes them to the string with
    these code units, there is no byte order mark to strip and no
    ill-formed sequence to replace. *)
Definition ascii_bytes (data : list byte) : bool := is_ascii (Text.decode data).

(** The first record names the zero sentinel as its predecessor, and
    record [i], for [i >= 1], does not chain from record [i - 1], as
    [Host.verifyCheckpointLineage] compares them. *)
Definition genesis_ok_by (toLowerCase : string -> string)
  (checkpoints : list CheckpointRecord) : Prop :=
  match checkpoints with
  | [] => True
  | first :: _ => toLowerCase (Checkpoint.predecessorId first) = ZERO_BYTES32
  end.

Definition broken_at_by (toLowerCase : string -> string)
  (checkpoints : list CheckpointRecord) (i : nat) : Prop :=
  (1 <= i)%nat /\
  exists prev curr,
    checkpoints !! (i - 1)%nat = Some prev /\ checkpoints !! i = Some curr /\
    toLowerCase (Checkpoint.predecessorId curr) <> toLowerCase (Checkpoint.checkpointId prev).

(** [x < n] for a number [x] and a count [n]. *)
Definition below (x : JsNumber.t) (n : nat) : Prop :=
  match x with
  | JsNumber.Finite num den => (num < Z.of_nat n * Z.pos den)%Z
  | JsNumber.NegInfinity => True
  | JsNumber.PosInfinity | JsNumber.NaN => False
  end.

(** A [getCheckpoint] call with the identifier looked up and the way the
    call settled; the lookups of a run, oldest first. *)
Definition lookup_answer (ev : Event) : option (string * result Raw.t) :=
  match ev with
  | @Called X call r =>
      match call in Call X return result X -> option (string * result Raw.t) with
      | ContractGetCheckpoint _ id => fun r => Some (id, r)
      | _ => fun _ => None
      end r
  end.

Definition answers (tr : list Event) : list (string * result Raw.t) :=
  omap lookup_answer tr.

(** The label and the tags of the context are ASCII strings. *)
Definition ascii_context (context : TierContext.t) : Prop :=
  (forall l, TierContext.label context = Some l -> is_ascii l = true)
  /\ (forall tags tag,
        TierContext.tags context = Some tags -> tag ∈ tags -> is_ascii tag = true).

(** Every key of the store is an ASCII string. *)
Definition ascii_keys (keys : gmap string (list byte)) : Prop :=
  forall k, is_Some (keys !! k) -> is_ascii k = true.

(** Lowercase hex digits only: [0-9a-f]. *)
Definition is_lower_hex_digit (c : ascii) : bool :=
  let n := nat_of_ascii c in
  ((48 <=? n)%nat && (n <=? 57)%nat) || ((97 <=? n)%nat && (n <=? 102)%nat).

Fixpoint lower_hex_digits (s : string) : bool :=
  match s with
  | EmptyString => true
  | String c r => is_lower_hex_digit c && lower_hex_digits r
  end.

(** The result of a walk that ended. *)
Definition ended {A : Type} (r : result A) : result (option A) :=
  match r with Ok a => Ok (Some a) | Err e => Err e end.

(* ===================================================================== *)
(** * Facts about strings and hex                                          *)
(* ===================================================================== *)

Section TextFacts.

Lemma lower_char_idem (c : ascii) : Text.lower_char (Text.lower_char c) = Text.lower_char c.
Proof.
  destruct c as [[] [] [] [] [] [] [] []]; reflexivity.
Qed.

Lemma toLowerCase_idem (s : string) :
  Text.toLowerCase (Text.toLowerCase s) = Text.toLowerCase s.
Proof.
  induction s as [|c s IH]; simpl; [reflexivity|].
  rewrite lower_char_idem, IH. reflexivity.
Qed.

Lemma toLowerCase_app (s t : string) :
  Text.toLowerCase (s +:+ t) = Text.toLowerCase s +:+ Text.toLowerCase t.
Proof.
  induction s as [|c s IH]; simpl; [reflexivity|].
  rewrite IH. reflexivity.
Qed.

Lemma eq_nocase_lower (s : string) : Text.eq_nocase (Text.toLowerCase s) s.
Proof. unfold Text.eq_nocase. apply toLowerCase_idem. Qed.

Lemma decode_encode (s : string) : Text.decode (Text.encode s) = s.
Proof. apply string_of_list_byte_of_string. Qed.

Lemma of_byte_lower (b : byte) : Text.toLowerCase (Hex.of_byte b) = Hex.of_byte b.
Proof. destruct b; reflexivity. Qed.

Lemma digits_lower (bytes : list byte) :
  Text.toLowerCase (Hex.digits bytes) = Hex.digits bytes.
Proof.
  induction bytes as [|b bytes IH]; [reflexivity|].
  cbn [Hex.digits]. rewrite toLowerCase_app, of_byte_lower, IH. reflexivity.
Qed.

Lemma toHex_lower (bytes : list byte) :
  Text.toLowerCase (Hex.toHex bytes) = Hex.toHex bytes.
Proof.
  unfold Hex.toHex. rewrite toLowerCase_app, digits_lower. reflexivity.
Qed.

Lemma parse_of_byte (b : byte) :
  Hex.to_uint8 (Hex.parseInt16 (Hex.of_byte b)) = b.
Proof. destruct b; vm_compute; reflexivity. Qed.

Lemma of_byte_shape (b : byte) :
  exists d1 d2, Hex.of_byte b = String d1 (String d2 EmptyString).
Proof. unfold Hex.of_byte. eauto. Qed.

Lemma pairs_digits (bytes : list byte) : Hex.pairs (Hex.digits bytes) = bytes.
Proof.
  induction bytes as [|b bytes IH]; [reflexivity|].
  cbn [Hex.digits].
  destruct (of_byte_shape b) as (d1 & d2 & E).
  pose proof (parse_of_byte b) as P. rewrite E in *.
  change (Hex.pairs (String d1 (String d2 (Hex.digits bytes))) = b :: bytes).
  cbn [Hex.pairs]. rewrite P, IH. reflexivity.
Qed.

Lemma fromHex_toHex (bytes : list byte) : Hex.fromHex (Hex.toHex bytes) = bytes.
Proof.
  unfold Hex.fromHex, Hex.toHex.
  change ("0x" +:+ Hex.digits bytes) with (String "0" (String "x" (Hex.digits bytes))).
  cbn.
  replace (String.prefix "" (Hex.digits bytes)) with true
    by (destruct (Hex.digits bytes); reflexivity).
  apply pairs_digits.
Qed.

Lemma toHex_nonempty (bytes : list byte) : String.eqb (Hex.toHex bytes) "" = false.
Proof. reflexivity. Qed.

Lemma toHex_0x (bytes : list byte) : Text.startsWith (Hex.toHex bytes) "0x" = true.
Proof.
  unfold Text.startsWith, Hex.toHex.
  change ("0x" +:+ Hex.digits bytes) with (String "0" (String "x" (Hex.digits bytes))).
  cbn. destruct (Hex.digits bytes); reflexivity.
Qed.

Lemma ZERO_BYTES32_lower : Text.toLowerCase ZERO_BYTES32 = ZERO_BYTES32.
Proof. reflexivity. Qed.

End TextFacts.

(* ===================================================================== *)
(** * encryption.ts: the error kinds of encrypt and decrypt                *)
(* ===================================================================== *)

Section EncryptionFacts.
Context `{rt : Runtime}.

Lemma slice_prefix (n : nat) (a : list byte) : Uint8Array.slice 0 n a = take n a.
Proof. unfold Uint8Array.slice. rewrite Nat.sub_0_r. reflexivity. Qed.

Lemma slice_suffix (n : nat) (a : list byte) :
  (n <= length a)%nat ->
  Uint8Array.slice (length a - n) (length a) a = drop (length a - n) a.
Proof.
  intros Hn. unfold Uint8Array.slice.
  apply take_ge. rewrite length_drop. lia.
Qed.

(** What [decrypt] does with a key of 32 bytes and at least 28 bytes of
    input: the first 12 bytes are the nonce, the last 16 the tag, the
    bytes between the ciphertext, and only the decipher decides. *)
Lemma decrypt_well_sized (sealed key : list byte) :
  length key = 32%nat -> (28 <= length sealed)%nat ->
  decrypt sealed key =
    match aes_256_gcm_decrypt key (take 12 sealed)
            (Uint8Array.slice 12 (length sealed - 16) sealed)
            (drop (length sealed - 16) sealed) with
    | Returns decrypted => Ok decrypted
    | Throws msg => Err (DecryptionFailed msg)
    end.
Proof.
  intros Hk Hs. unfold decrypt, KEY_LENGTH, IV_LENGTH, AUTH_TAG_LENGTH.
  destruct (decide (length key ≠ 32%nat)) as [Hne|_]; [contradiction|].
  destruct (decide (length sealed < 12 + 16)%nat) as [Hlt|_]; [lia|].
  rewrite slice_prefix, slice_suffix by lia. reflexivity.
Qed.

(** C5. [encrypt] and [decrypt] reject a key that is not 32 bytes long
    with the key-length error; [decrypt] with a 32-byte key rejects an
    input shorter than 28 bytes with the too-short error, and an input of
    28 bytes or more is handed to the decipher, whose failure to
    authenticate the tag gives the decryption-failed error; the messages
    of the three kinds differ whatever values they interpolate. *)
Theorem encrypt_decrypt_error_kinds :
  (forall (plaintext key : list byte) (ent : Entropy),
      length key <> 32%nat ->
      encrypt plaintext key ent = Err (EncryptionKeyLength (length key)))
  /\ (forall sealed key : list byte,
      length key <> 32%nat ->
      decrypt sealed key = Err (DecryptionKeyLength (length key)))
  /\ (forall sealed key : list byte,
      length key = 32%nat -> (length sealed < 28)%nat ->
      decrypt sealed key = Err (SealedTooShort (length sealed)))
  /\ (forall sealed key : list byte,
      length key = 32%nat -> (28 <= length sealed)%nat ->
      (forall n, decrypt sealed key <> Err (SealedTooShort n))
      /\ forall msg,
         aes_256_gcm_decrypt key (take 12 sealed)
           (Uint8Array.slice 12 (length sealed - 16) sealed)
           (drop (length sealed - 16) sealed) = Throws msg ->
         decrypt sealed key = Err (DecryptionFailed msg))
  /\ (forall (n m : nat) (d : string),
      message (EncryptionKeyLength n) <> message (SealedTooShort m)
      /\ message (DecryptionKeyLength n) <> message (SealedTooShort m)
      /\ message (EncryptionKeyLength n) <> message (DecryptionFailed d)
      /\ message (DecryptionKeyLength n) <> message (DecryptionFailed d)
      /\ message (SealedTooShort m) <> message (DecryptionFailed d)).
Proof.
  repeat split.
  - intros plaintext key ent Hk. unfold encrypt, KEY_LENGTH.
    destruct (decide (length key ≠ 32%nat)); [reflexivity|contradiction].
  - intros sealed key Hk. unfold decrypt, KEY_LENGTH.
    destruct (decide (length key ≠ 32%nat)); [reflexivity|contradiction].
  - intros sealed key Hk Hs. unfold decrypt, KEY_LENGTH, IV_LENGTH, AUTH_TAG_LENGTH.
    destruct (decide (length key ≠ 32%nat)) as [Hne|_]; [contradiction|].
    destruct (decide (length sealed < 12 + 16)%nat) as [_|Hge]; [reflexivity|lia].
  - intros n. rewrite decrypt_well_sized by assumption.
    destruct (aes_256_gcm_decrypt _ _ _ _); discriminate.
  - intros msg Hfail. rewrite decrypt_well_sized by assumption.
    rewrite Hfail. reflexivity.
  - intros E. apply (f_equal (String.get 11)) in E. discriminate E.
  - intros E. apply (f_equal (String.get 11)) in E. discriminate E.
  - intros E. apply (f_equal (String.get 11)) in E. discriminate E.
  - intros E. apply (f_equal (String.get 11)) in E. discriminate E.
  - intros E. apply (f_equal (String.get 11)) in E. discriminate E.
Qed.

End EncryptionFacts.

(** On the reference runtime: an input of exactly 28 bytes (no
    ciphertext at all) reaches the decipher, an input of 27 bytes does
    not, and a 16-byte key is refused before anything else. *)
Example decrypt_28_bytes :
  decrypt (rt := Reference.runtime) (List.repeat x00 28) (List.repeat x01 32)
  = Err (DecryptionFailed "Unsupported state or unable to authenticate data").
Proof. vm_compute. reflexivity. Qed.

Example decrypt_27_bytes :
  decrypt (rt := Reference.runtime) (List.repeat x00 27) (List.repeat x01 32)
  = Err (SealedTooShort 27).
Proof. vm_compute. reflexivity. Qed.

Example decrypt_short_key :
  decrypt (rt := Reference.runtime) (List.repeat x00 10) (List.repeat x01 16)
  = Err (DecryptionKeyLength 16).
Proof. vm_compute. reflexivity. Qed.

(* ===================================================================== *)
(** * verify.ts: commitment checks                                         *)
(* ===================================================================== *)

Section CommitmentChecks.
Context `{rt : Runtime}.

(** C3. [verifyStateCommitment] and [verifyCiphertextHash] never return
    [false].  Each returns [true] exactly when the computed digest equals
    the expected one up to letter case, and throws the mismatch error,
    which carries the computed and the expected digest as given, when the
    two differ.  ([verifyStateCommitment] computes the digest of a capsule
    first; when that itself throws there is no digest to compare.) *)
Theorem verify_commitment_never_false :
  (forall (capsule : Capsule) (expected : string),
      verifyStateCommitment capsule expected <> Ok false
      /\ (verifyStateCommitment capsule expected = Ok true <->
          exists computed, computeStateCommitment capsule = Ok computed
                           /\ Text.eq_nocase computed expected)
      /\ (forall computed, computeStateCommitment capsule = Ok computed ->
          ~ Text.eq_nocase computed expected ->
          verifyStateCommitment capsule expected
          = Err (StateCommitmentMismatch computed expected)))
  /\ (forall (ciphertext : list byte) (expected : string),
      verifyCiphertextHash ciphertext expected <> Ok false
      /\ (verifyCiphertextHash ciphertext expected = Ok true <->
          Text.eq_nocase (computeCiphertextHash ciphertext) expected)
      /\ (~ Text.eq_nocase (computeCiphertextHash ciphertext) expected ->
          verifyCiphertextHash ciphertext expected
          = Err (CiphertextHashMismatch (computeCiphertextHash ciphertext) expected))).
Proof.
  split.
  - intros capsule expected. unfold verifyStateCommitment, Text.eq_nocase.
    destruct (computeStateCommitment capsule) as [computed|e]; cbn.
    + destruct (decide (Text.toLowerCase computed ≠ Text.toLowerCase expected)) as [Hne|Heq].
      * repeat split; try discriminate.
        -- intros (c & [= <-] & Hc). contradiction.
        -- intros c [= <-] _. reflexivity.
      * apply dec_stable in Heq. repeat split; try discriminate.
        -- intros _. eauto.
        -- intros c [= <-] Hc. contradiction.
    + repeat split; try discriminate.
      intros (c & Hc & _). discriminate.
  - intros ciphertext expected. unfold verifyCiphertextHash, Text.eq_nocase.
    destruct (decide (Text.toLowerCase (computeCiphertextHash ciphertext)
                      ≠ Text.toLowerCase expected)) as [Hne|Heq].
    + repeat split; try discriminate; try contradiction; intros; reflexivity.
    + apply dec_stable in Heq.
      repeat split; try discriminate; try contradiction; intros;
        first [assumption | reflexivity].
Qed.

End CommitmentChecks.

(* ===================================================================== *)
(** * verify.ts: checkpoint lineage                                        *)
(* ===================================================================== *)

Section Lineage.

(** The loop over the links, with the ASCII lowercasing. *)
Lemma lineage_links_spec (checkpoints : list CheckpointRecord) :
  forall n a : nat,
    (1 <= a)%nat -> (a + n <= length checkpoints)%nat ->
    (lineage_links (seq a n) checkpoints = Ok true
     /\ forall i, (a <= i < a + n)%nat -> ~ broken_at checkpoints i)
    \/ exists i prev curr,
         (a <= i < a + n)%nat
         /\ checkpoints !! (i - 1)%nat = Some prev /\ checkpoints !! i = Some curr
         /\ ~ Text.eq_nocase (Checkpoint.predecessorId curr) (Checkpoint.checkpointId prev)
         /\ (forall j, (a <= j < i)%nat -> ~ broken_at checkpoints j)
         /\ lineage_links (seq a n) checkpoints
            = Err (LineageBroken i (Checkpoint.checkpointId prev)
                     (Checkpoint.predecessorId curr)).
Proof.
  induction n as [|n IH]; intros a Ha Hlen.
  - left. split; [reflexivity|]. intros i Hi. lia.
  - cbn [seq lineage_links].
    destruct (lookup_lt_is_Some_2 checkpoints (a - 1)) as [prev Hprev]; [lia|].
    destruct (lookup_lt_is_Some_2 checkpoints a) as [curr Hcurr]; [lia|].
    rewrite Hprev, Hcurr.
    destruct (decide (Text.toLowerCase (Checkpoint.predecessorId curr)
                      ≠ Text.toLowerCase (Checkpoint.checkpointId prev))) as [Hne|Heq].
    + right. exists a, prev, curr. repeat split; try assumption; try lia.
    + apply dec_stable in Heq.
      assert (Hok : ~ broken_at checkpoints a).
      { intros (_ & p & c & Hp & Hc & Hbad).
        rewrite Hprev in Hp. rewrite Hcurr in Hc.
        injection Hp as <-. injection Hc as <-. apply Hbad. exact Heq. }
      destruct (IH (S a)) as [[Hres Hall]|(i & p & c & Hi & Hp & Hc & Hbad & Hmin & Hres)];
        [lia|lia| |].
      * left. split; [exact Hres|].
        intros i Hi. destruct (decide (i = a)) as [->|Hia]; [exact Hok|].
        apply Hall. lia.
      * right. exists i, p, c. repeat split; try assumption; try lia.
        intros j Hj. destruct (decide (j = a)) as [->|Hja]; [exact Hok|].
        apply Hmin. lia.
Qed.

End Lineage.

(** The cases of the specification's lineage examples. *)
Example lineage_single :
  verifyCheckpointLineage [record "0xA" ZERO_BYTES32] = Ok true.
Proof. vm_compute. reflexivity. Qed.

Example lineage_pair :
  verifyCheckpointLineage [record "0xA" ZERO_BYTES32; record "0xB" "0xa"] = Ok true.
Proof. vm_compute. reflexivity. Qed.

Example lineage_wrong_predecessor :
  verifyCheckpointLineage [record "0xA" ZERO_BYTES32; record "0xC" "wrong"]
  = Err (LineageBroken 1 "0xA" "wrong").
Proof. vm_compute. reflexivity. Qed.

Example lineage_bad_genesis :
  verifyCheckpointLineage [record "0xA" "0xfff"] = Err (GenesisPredecessorNotZero "0xfff").
Proof. vm_compute. reflexivity. Qed.

(** The same function over the host's [toLowerCase], about which nothing
    is assumed. *)
Section HostLineage.
Variable toLowerCase : string -> string.

Lemma host_lineage_links_spec (checkpoints : list CheckpointRecord) :
  forall n a : nat,
    (1 <= a)%nat -> (a + n <= length checkpoints)%nat ->
    (Host.lineage_links toLowerCase (seq a n) checkpoints = Ok true
     /\ forall i, (a <= i < a + n)%nat -> ~ broken_at_by toLowerCase checkpoints i)
    \/ exists i prev curr,
         (a <= i < a + n)%nat
         /\ checkpoints !! (i - 1)%nat = Some prev /\ checkpoints !! i = Some curr
         /\ toLowerCase (Checkpoint.predecessorId curr)
            <> toLowerCase (Checkpoint.checkpointId prev)
         /\ (forall j, (a <= j < i)%nat -> ~ broken_at_by toLowerCase checkpoints j)
         /\ Host.lineage_links toLowerCase (seq a n) checkpoints
            = Err (LineageBroken i (Checkpoint.checkpointId prev)
                     (Checkpoint.predecessorId curr)).
Proof.
  induction n as [|n IH]; intros a Ha Hlen.
  - left. split; [reflexivity|]. intros i Hi. lia.
  - cbn [seq Host.lineage_links].
    destruct (lookup_lt_is_Some_2 checkpoints (a - 1)) as [prev Hprev]; [lia|].
    destruct (lookup_lt_is_Some_2 checkpoints a) as [curr Hcurr]; [lia|].
    rewrite Hprev, Hcurr.
    destruct (decide (toLowerCase (Checkpoint.predecessorId curr)
                      ≠ toLowerCase (Checkpoint.checkpointId prev))) as [Hne|Heq].
    + right. exists a, prev, curr. repeat split; try assumption; try lia.
    + apply dec_stable in Heq.
      assert (Hok : ~ broken_at_by toLowerCase checkpoints a).
      { intros (_ & p & c & Hp & Hc & Hbad).
        rewrite Hprev in Hp. rewrite Hcurr in Hc.
        injection Hp as <-. injection Hc as <-. apply Hbad. exact Heq. }
      destruct (IH (S a)) as [[Hres Hall]|(i & p & c & Hi & Hp & Hc & Hbad & Hmin & Hres)];
        [lia|lia| |].
      * left. split; [exact Hres|].
        intros i Hi. destruct (decide (i = a)) as [->|Hia]; [exact Hok|].
        apply Hall. lia.
      * right. exists i, p, c. repeat split; try assumption; try lia.
        intros j Hj. destruct (decide (j = a)) as [->|Hja]; [exact Hok|].
        apply Hmin. lia.
Qed.

Lemma broken_at_by_in_range (checkpoints : list CheckpointRecord) (i : nat) :
  broken_at_by toLowerCase checkpoints i -> (1 <= i < length checkpoints)%nat.
Proof.
  intros (Hi & prev & curr & _ & Hcurr & _).
  apply lookup_lt_Some in Hcurr. lia.
Qed.

(** C4. [verifyCheckpointLineage] returns [true] on the empty sequence;
    on a non-empty one it throws the genesis error when the first
    record's predecessor, lowercased, is not the zero sentinel; otherwise
    it throws the lineage-broken error at the smallest index [i >= 1]
    whose predecessor differs, after [toLowerCase], from the identifier
    of record [i - 1]; it returns [true] exactly when there is no
    violation, and it never returns [false].  This holds whatever the
    host's [toLowerCase] does to a string. *)
Theorem verifyCheckpointLineage_spec (checkpoints : list CheckpointRecord) :
  Host.verifyCheckpointLineage toLowerCase [] = Ok true
  /\ (forall first rest,
      checkpoints = first :: rest ->
      toLowerCase (Checkpoint.predecessorId first) <> ZERO_BYTES32 ->
      Host.verifyCheckpointLineage toLowerCase checkpoints
      = Err (GenesisPredecessorNotZero (Checkpoint.predecessorId first)))
  /\ (forall i prev curr,
      checkpoints <> [] -> genesis_ok_by toLowerCase checkpoints ->
      (1 <= i)%nat ->
      checkpoints !! (i - 1)%nat = Some prev -> checkpoints !! i = Some curr ->
      toLowerCase (Checkpoint.predecessorId curr)
      <> toLowerCase (Checkpoint.checkpointId prev) ->
      (forall j, (j < i)%nat -> ~ broken_at_by toLowerCase checkpoints j) ->
      Host.verifyCheckpointLineage toLowerCase checkpoints
      = Err (LineageBroken i (Checkpoint.checkpointId prev)
               (Checkpoint.predecessorId curr)))
  /\ (Host.verifyCheckpointLineage toLowerCase checkpoints = Ok true <->
      genesis_ok_by toLowerCase checkpoints
      /\ forall i, ~ broken_at_by toLowerCase checkpoints i)
  /\ Host.verifyCheckpointLineage toLowerCase checkpoints <> Ok false.
Proof.
  split; [reflexivity|].
  destruct checkpoints as [|first rest] eqn:E.
  { repeat split; try discriminate; try congruence. intros i Hb.
    apply broken_at_by_in_range in Hb. simpl in Hb. lia. }
  rewrite <- E.
  assert (Hv : Host.verifyCheckpointLineage toLowerCase checkpoints =
               if decide (toLowerCase (Checkpoint.predecessorId first) ≠ ZERO_BYTES32)
               then Err (GenesisPredecessorNotZero (Checkpoint.predecessorId first))
               else Host.lineage_links toLowerCase (seq 1 (length checkpoints - 1))
                      checkpoints).
  { rewrite E. reflexivity. }
  assert (Hg : genesis_ok_by toLowerCase checkpoints <->
               toLowerCase (Checkpoint.predecessorId first) = ZERO_BYTES32).
  { rewrite E. reflexivity. }
  assert (Hlen : (1 + (length checkpoints - 1) <= length checkpoints)%nat).
  { rewrite E. simpl. lia. }
  pose proof (host_lineage_links_spec checkpoints (length checkpoints - 1) 1
                (le_n 1) Hlen) as Hspec.
  split; [|split; [|split]].
  - intros first' rest' E' Hne. rewrite E in E'. injection E' as <- <-. rewrite Hv.
    destruct (decide _); [reflexivity|contradiction].
  - intros i prev curr _ Hgen Hi Hprev Hcurr Hbad Hmin. rewrite Hv.
    apply Hg in Hgen.
    destruct (decide _) as [Hne|_]; [contradiction|].
    assert (Hb : broken_at_by toLowerCase checkpoints i) by (split; eauto).
    destruct Hspec as [[_ Hall]|(i' & p & c & Hi' & Hp & Hc & Hbad' & Hmin' & Hres)].
    + exfalso. apply (Hall i); [|exact Hb]. apply broken_at_by_in_range in Hb. lia.
    + assert (i' = i) as ->.
      { destruct (Nat.lt_trichotomy i' i) as [Hlt|[Heq|Hgt]]; [|exact Heq|].
        - exfalso. apply (Hmin i' Hlt). split; [lia|eauto].
        - exfalso. apply (Hmin' i); [lia|exact Hb]. }
      rewrite Hprev in Hp. rewrite Hcurr in Hc.
      injection Hp as <-. injection Hc as <-. exact Hres.
  - rewrite Hv, Hg. destruct (decide _) as [Hne|Heq].
    + split; [discriminate|]. intros [Hz _]. contradiction.
    + apply dec_stable in Heq.
      destruct Hspec as [[Hres Hall]|(i' & p & c & Hi' & Hp & Hc & Hbad' & Hmin' & Hres)].
      * split; [|intros _; exact Hres]. intros _. split; [exact Heq|].
        intros i Hb. apply (Hall i); [|exact Hb].
        apply broken_at_by_in_range in Hb. lia.
      * rewrite Hres. split; [discriminate|]. intros [_ Hall].
        exfalso. apply (Hall i'). split; [lia|eauto].
  - rewrite Hv. destruct (decide _); [discriminate|].
    destruct Hspec as [[Hres _]|(i' & p & c & _ & _ & _ & _ & _ & Hres)];
      rewrite Hres; discriminate.
Qed.

End HostLineage.

(** With the ASCII lowercasing for the host's, the functions of [Host]
    are the ones given first. *)
Lemma host_verifyCheckpointLineage_ascii (checkpoints : list CheckpointRecord) :
  Host.verifyCheckpointLineage Text.toLowerCase checkpoints
  = verifyCheckpointLineage checkpoints.
Proof. reflexivity. Qed.

(* ===================================================================== *)
(** * keyDelivery.ts: envelope serialization                               *)
(* ===================================================================== *)

Section EnvelopeCodec.
Context `{rt : Runtime}.

Lemma envelopeJson_fields (e : KeyEnvelope) :
  Js.get (envelopeJson e) "checkpointId" = JString (Envelope.checkpointId e)
  /\ Js.get (envelopeJson e) "wrappedKey" = JString (Hex.toHex (Envelope.wrappedKey e))
  /\ Js.get (envelopeJson e) "nonce" = JString (Hex.toHex (Envelope.nonce e))
  /\ Js.get (envelopeJson e) "senderPublicKey"
     = JString (Hex.toHex (Envelope.senderPublicKey e)).
Proof. repeat split. Qed.

Lemma fromHex_value_cases (v : JsValue) :
  (exists hex, v = JString hex /\ fromHex_value v = Ok (Hex.fromHex hex))
  \/ fromHex_value v = Err (Thrown "TypeError: hex.startsWith is not a function").
Proof. destruct v; cbn; eauto. Qed.

Lemma truthy_string (s : string) : Js.truthy (JString s) = true <-> s <> "".
Proof.
  cbn. destruct (String.eqb_spec s ""); cbn; split; congruence.
Qed.

Lemma deserialize_parsed (data : list byte) (json : JsValue) :
  JSON_parse (Text.decode data) = Returns json ->
  deserializeEnvelope data =
    if Js.is_null json || Js.is_undefined json then
      Err (Thrown "TypeError: cannot read properties of null")
    else if negb (Js.truthy (Js.get json "checkpointId"))
            || negb (Js.truthy (Js.get json "wrappedKey"))
            || negb (Js.truthy (Js.get json "nonce"))
            || negb (Js.truthy (Js.get json "senderPublicKey"))
    then Err EnvelopeMissingFields
    else
      wrappedKey ← fromHex_value (Js.get json "wrappedKey");
      nonce ← fromHex_value (Js.get json "nonce");
      senderPublicKey ← fromHex_value (Js.get json "senderPublicKey");
      Ok {| Decoded.checkpointId := Js.get json "checkpointId";
            Decoded.wrappedKey := wrappedKey;
            Decoded.nonce := nonce;
            Decoded.senderPublicKey := senderPublicKey |}.
Proof. intros H. unfold deserializeEnvelope. rewrite H. reflexivity. Qed.

Lemma field_missing_iff (json : JsValue) :
  field_missing json <->
  negb (Js.truthy (Js.get json "checkpointId"))
  || negb (Js.truthy (Js.get json "wrappedKey"))
  || negb (Js.truthy (Js.get json "nonce"))
  || negb (Js.truthy (Js.get json "senderPublicKey")) = true.
Proof.
  unfold field_missing, required_fields. split.
  - intros (k & Hk & Hf).
    repeat (apply elem_of_cons in Hk as [->|Hk]); try (rewrite Hf; cbn);
      rewrite ?orb_true_r; try reflexivity.
    apply elem_of_nil in Hk. contradiction.
  - intros H. repeat (apply orb_true_iff in H as [H|H]);
      apply negb_true_iff in H; eexists; (split; [|exact H]);
      repeat constructor.
Qed.

(** C7, as the code has it, for input bytes that are ASCII.
    [deserializeEnvelope] throws the parse error exactly when
    [JSON.parse] throws; for a parsed document other than [null] it
    throws the missing-fields error exactly when one of the four required
    fields is absent or falsy.  The field values are not checked for
    being hex: when the four fields are non-empty strings the envelope is
    returned, its byte fields being [fromHex] of the strings.  And
    [deserializeEnvelope (serializeEnvelope e)] gives [e] back for every
    envelope [e] whose checkpoint identifier is not empty (and whose JSON
    object [JSON.parse] reads back from [JSON.stringify]'s text). *)
Theorem deserializeEnvelope_spec (data : list byte) :
  (ascii_bytes data = true ->
   (forall msg,
       deserializeEnvelope data = Err (EnvelopeParseFailed msg) <->
       JSON_parse (Text.decode data) = Throws msg)
   /\ (forall json,
       JSON_parse (Text.decode data) = Returns json ->
       json <> JNull -> json <> JUndefined ->
       (deserializeEnvelope data = Err EnvelopeMissingFields <-> field_missing json))
   /\ (forall json cid wk n spk,
       JSON_parse (Text.decode data) = Returns json ->
       Js.get json "checkpointId" = JString cid -> cid <> "" ->
       Js.get json "wrappedKey" = JString wk -> wk <> "" -> is_ascii wk = true ->
       Js.get json "nonce" = JString n -> n <> "" -> is_ascii n = true ->
       Js.get json "senderPublicKey" = JString spk -> spk <> "" -> is_ascii spk = true ->
       deserializeEnvelope data
       = Ok {| Decoded.checkpointId := JString cid;
               Decoded.wrappedKey := Hex.fromHex wk;
               Decoded.nonce := Hex.fromHex n;
               Decoded.senderPublicKey := Hex.fromHex spk |}))
  /\ (forall e : KeyEnvelope,
      Envelope.checkpointId e <> "" ->
      JSON_parse (JSON_stringify (envelopeJson e)) = Returns (envelopeJson e) ->
      deserializeEnvelope (serializeEnvelope e) = Ok (Decoded.of_envelope e)).
Proof.
  split; [intros _; split; [|split]|].
  - intros msg. destruct (JSON_parse (Text.decode data)) as [json|msg'] eqn:Hp.
    + rewrite (deserialize_parsed _ _ Hp). split; [|discriminate].
      intros H. exfalso. revert H.
      destruct (_ || _); [discriminate|].
      destruct (_ || _); [discriminate|].
      destruct (fromHex_value_cases (Js.get json "wrappedKey")) as [(? & _ & ->)| ->];
        cbn; [|discriminate].
      destruct (fromHex_value_cases (Js.get json "nonce")) as [(? & _ & ->)| ->];
        cbn; [|discriminate].
      destruct (fromHex_value_cases (Js.get json "senderPublicKey")) as [(? & _ & ->)| ->];
        cbn; discriminate.
    + unfold deserializeEnvelope. rewrite Hp. split; congruence.
  - intros json Hp Hnull Hundef. rewrite (deserialize_parsed _ _ Hp).
    assert (Hn : Js.is_null json || Js.is_undefined json = false)
      by (destruct json; try reflexivity; contradiction).
    rewrite Hn, field_missing_iff.
    destruct (negb (Js.truthy (Js.get json "checkpointId"))
              || negb (Js.truthy (Js.get json "wrappedKey"))
              || negb (Js.truthy (Js.get json "nonce"))
              || negb (Js.truthy (Js.get json "senderPublicKey"))) eqn:Hb;
      [split; reflexivity|].
    split; [|discriminate]. intros H. exfalso. revert H.
    destruct (fromHex_value_cases (Js.get json "wrappedKey")) as [(? & _ & ->)| ->];
      cbn; [|discriminate].
    destruct (fromHex_value_cases (Js.get json "nonce")) as [(? & _ & ->)| ->];
      cbn; [|discriminate].
    destruct (fromHex_value_cases (Js.get json "senderPublicKey")) as [(? & _ & ->)| ->];
      cbn; discriminate.
  - intros json cid wk n spk Hp Hc Hcid Hw Hwk _ Hn Hnn _ Hs Hspk _.
    rewrite (deserialize_parsed _ _ Hp), Hc, Hw, Hn, Hs.
    apply truthy_string in Hcid, Hwk, Hnn, Hspk.
    rewrite Hcid, Hwk, Hnn, Hspk. cbn.
    destruct json; try discriminate Hc. reflexivity.
  - intros e Hcid Hp. unfold serializeEnvelope.
    assert (Hd : JSON_parse (Text.decode (Text.encode (JSON_stringify (envelopeJson e))))
                 = Returns (envelopeJson e)) by (rewrite decode_encode; exact Hp).
    rewrite (deserialize_parsed _ _ Hd).
    destruct (envelopeJson_fields e) as (-> & -> & -> & ->).
    apply truthy_string in Hcid. rewrite Hcid.
    cbn [Js.truthy]. rewrite !toHex_nonempty. cbn.
    rewrite !fromHex_toHex. destruct e; reflexivity.
Qed.

End EnvelopeCodec.

Lemma deserializeEnvelope_spec_witness :
  ascii_bytes (Text.encode bad_hex_document) = true
  /\ (deserializeEnvelope (rt := Reference.runtime) (Text.encode bad_hex_document)
      = Err EnvelopeMissingFields
      <-> field_missing
            (JObject (list_to_map
               [ ("checkpointId", JString "0xabc123"); ("wrappedKey", JString "zz");
                 ("nonce", JString "0x0506"); ("senderPublicKey", JString "0x090a") ]))).
Proof.
  split; [vm_compute; reflexivity|].
  destruct (deserializeEnvelope_spec (rt := Reference.runtime) (Text.encode bad_hex_document))
    as [H _].
  destruct H as (_ & H & _); [vm_compute; reflexivity|].
  apply H; [vm_compute; reflexivity|discriminate|discriminate].
Defined.

(** The round trip of the repository's test, on the reference runtime. *)
Example envelope_roundtrip :
  deserializeEnvelope (rt := Reference.runtime)
    (serializeEnvelope (rt := Reference.runtime) test_envelope)
  = Ok (Decoded.of_envelope test_envelope).
Proof. vm_compute. reflexivity. Qed.

(** C7, as stated, fails.  A document whose [wrappedKey] is not hex is
    accepted (the pair ["zz"] decodes to the byte 0), and the envelope
    [wrapKey] returns, whose checkpoint identifier is still empty, does
    not survive [serializeEnvelope] then [deserializeEnvelope]. *)
Lemma deserializeEnvelope_does_not_check_hex :
  well_formed_hex "zz" = false
  /\ deserializeEnvelope (rt := Reference.runtime) (Text.encode bad_hex_document)
     = Ok {| Decoded.checkpointId := JString "0xabc123";
             Decoded.wrappedKey := [x00];
             Decoded.nonce := [x05; x06];
             Decoded.senderPublicKey := [x09; x0a] |}
  /\ deserializeEnvelope (rt := Reference.runtime)
       (serializeEnvelope (rt := Reference.runtime) unbound_envelope)
     = Err EnvelopeMissingFields.
Proof. vm_compute. repeat split. Qed.

(* ===================================================================== *)
(** * sealed.ts: seal then unseal                                          *)
(* ===================================================================== *)

Section SealUnseal.
Context `{rt : Runtime}.

Lemma randomBytes_length (n : nat) (ent : Entropy) : length (randomBytes n ent).1 = n.
Proof. unfold randomBytes. cbn. rewrite length_map, length_seq. reflexivity. Qed.

Lemma set_zeros (before source : list byte) (n : nat) :
  Uint8Array.set (before ++ Uint8Array.zeros (length source + n)) source (length before)
  = Ok (before ++ source ++ Uint8Array.zeros n).
Proof.
  unfold Uint8Array.set, Uint8Array.zeros.
  rewrite length_app, repeat_length.
  destruct (Nat.ltb_spec (length before + (length source + n))
              (length before + length source)) as [Hlt|_]; [lia|].
  rewrite take_app_length.
  rewrite drop_app_ge by lia.
  replace (length before + length source - length before)%nat with (length source) by lia.
  rewrite repeat_app, drop_app_length'; [reflexivity|symmetry; apply repeat_length].
Qed.

(** The layout [encrypt] produces: nonce, ciphertext, tag. *)
Lemma encrypt_layout (plaintext key : list byte) (ent : Entropy) :
  AES_GCM_correct -> length key = 32%nat ->
  let iv := (randomBytes IV_LENGTH ent).1 in
  let sealed := aes_256_gcm_encrypt key iv plaintext in
  encrypt plaintext key ent = Ok (iv ++ sealed.1 ++ sealed.2, (randomBytes IV_LENGTH ent).2).
Proof.
  intros Hgcm Hk iv sealed. unfold encrypt, KEY_LENGTH.
  destruct (decide (length key ≠ 32%nat)) as [Hne|_]; [contradiction|].
  destruct (randomBytes IV_LENGTH ent) as [iv' ent'] eqn:Hr.
  assert (Hiv : length iv' = 12%nat).
  { pose proof (randomBytes_length IV_LENGTH ent) as H. rewrite Hr in H. exact H. }
  subst iv sealed. cbn [fst snd].
  destruct (Hgcm key iv' plaintext Hk Hiv) as [Htag _].
  destruct (aes_256_gcm_encrypt key iv' plaintext) as [encrypted authTag].
  cbn [fst snd] in *. unfold IV_LENGTH, AUTH_TAG_LENGTH.
  pose proof (set_zeros [] iv' (length encrypted + 16)) as S1.
  cbn [app length] in S1. rewrite Hiv in S1.
  replace (12 + length encrypted + 16)%nat with (12 + (length encrypted + 16))%nat by lia.
  rewrite S1. cbn [mbind result_bind app].
  pose proof (set_zeros iv' encrypted 16) as S2. rewrite Hiv in S2.
  rewrite S2. cbn [mbind result_bind].
  pose proof (set_zeros (iv' ++ encrypted) authTag 0) as S3.
  rewrite length_app, Hiv, Htag, <- app_assoc in S3.
  change (Uint8Array.zeros (16 + 0)) with (Uint8Array.zeros 16) in S3.
  rewrite S3. cbn [mbind result_bind Uint8Array.zeros List.repeat].
  rewrite app_nil_r, <- app_assoc. reflexivity.
Qed.

(** [decrypt] undoes [encrypt]. *)
Lemma decrypt_encrypt (plaintext key : list byte) (ent : Entropy) :
  AES_GCM_correct -> length key = 32%nat ->
  exists sealed ent',
    encrypt plaintext key ent = Ok (sealed, ent')
    /\ decrypt sealed key = Ok plaintext.
Proof.
  intros Hgcm Hk. eexists _, _. split; [apply encrypt_layout; assumption|].
  pose proof (randomBytes_length IV_LENGTH ent) as Hiv.
  set (iv := (randomBytes IV_LENGTH ent).1) in *. unfold IV_LENGTH in Hiv.
  destruct (Hgcm key iv plaintext Hk Hiv) as [Htag Hdec].
  destruct (aes_256_gcm_encrypt key iv plaintext) as [encrypted authTag].
  cbn [fst snd] in *.
  rewrite decrypt_well_sized; [|exact Hk|rewrite !length_app; lia].
  rewrite !length_app, Htag, Hiv.
  replace (12 + (length encrypted + 16) - 16)%nat with (12 + length encrypted)%nat by lia.
  assert (Hiv' : take 12 (iv ++ encrypted ++ authTag) = iv).
  { rewrite <- Hiv. apply take_app_length. }
  assert (Hct : Uint8Array.slice 12 (12 + length encrypted) (iv ++ encrypted ++ authTag)
                = encrypted).
  { unfold Uint8Array.slice. rewrite <- Hiv at 3. rewrite drop_app_length.
    replace (12 + length encrypted - 12)%nat with (length encrypted) by lia.
    apply take_app_length. }
  assert (Htg : drop (12 + length encrypted) (iv ++ encrypted ++ authTag) = authTag).
  { rewrite app_assoc. rewrite <- Hiv, <- length_app. apply drop_app_length. }
  rewrite Hiv', Hct, Htg, Hdec. reflexivity.
Qed.

Lemma hashBytes_nonempty (data : list byte) : String.eqb (hashBytes data) "" = false.
Proof. apply toHex_nonempty. Qed.


End SealUnseal.

(** The reference runtime's stand-in cipher meets the contract. *)
Lemma big_endian_length (width : nat) (n : N) : length (Reference.big_endian width n) = width.
Proof.
  revert n. induction width as [|w IH]; intros n; [reflexivity|].
  cbn [Reference.big_endian]. rewrite length_app, IH. cbn. lia.
Qed.

Lemma reference_gcm_correct : AES_GCM_correct (rt := Reference.runtime).
Proof.
  intros key iv plaintext _ _.
  change (aes_256_gcm_encrypt key iv plaintext)
    with (rev plaintext, Reference.tag_of key iv (rev plaintext)).
  change aes_256_gcm_decrypt with Reference.gcm_decrypt.
  cbn [fst snd]. split.
  - unfold Reference.tag_of, Reference.digest.
    rewrite length_take, big_endian_length. reflexivity.
  - unfold Reference.gcm_decrypt.
    destruct (decide _) as [_|Hne]; [|contradiction Hne; reflexivity].
    rewrite rev_involutive. reflexivity.
Qed.

Lemma example_capsule_representable :
  JSON_representable (rt := Reference.runtime) example_capsule.
Proof. eexists. split; vm_compute; reflexivity. Qed.



(* ===================================================================== *)
(** * encryption.ts, keyDelivery.ts: wrapping and fulfilling               *)
(* ===================================================================== *)

Section KeyWrapping.
Context `{rt : Runtime}.

Lemma run_await {W X : Type} (h : Handler W) (call : Call X) (w : W) :
  run h (await call) w = ((h X call w).1, (h X call w).2, [Called call (h X call w).1]).
Proof.
  unfold await. cbn. destruct (h X call w) as [[x|e] w']; reflexivity.
Qed.

Lemma fulfillRedemption_found (m : PublisherKeyManager.t) (K : list byte)
  (tokenAddress checkpointId consumerAddress : string)
  (consumerPublicKey : list byte) (ent : Entropy) :
  PublisherKeyManager.keys m !! Text.toLowerCase checkpointId = Some K ->
  PublisherKeyManager.fulfillRedemption m tokenAddress checkpointId consumerAddress
    consumerPublicKey ent
  = deliver_wrapped K (PublisherKeyManager.secretKey m) tokenAddress checkpointId
      consumerAddress consumerPublicKey ent.
Proof.
  intros H. unfold PublisherKeyManager.fulfillRedemption, deliver_wrapped.
  rewrite H. reflexivity.
Qed.

Lemma onchain_fulfillRedemption_found (m : OnChainPublisherKeyManager.t) (K : list byte)
  (tokenAddress checkpointId consumerAddress : string)
  (consumerPublicKey : list byte) (ent : Entropy) :
  OnChainPublisherKeyManager.keys m !! Text.toLowerCase checkpointId = Some K ->
  OnChainPublisherKeyManager.fulfillRedemption m tokenAddress checkpointId consumerAddress
    consumerPublicKey ent
  = deliver_wrapped K (OnChainPublisherKeyManager.secretKey m) tokenAddress checkpointId
      consumerAddress consumerPublicKey ent.
Proof.
  intros H. unfold OnChainPublisherKeyManager.fulfillRedemption, deliver_wrapped.
  rewrite H. reflexivity.
Qed.

(** The envelopes [deliver_wrapped] hands over: at most one, bound to the
    checkpoint, and otherwise the envelope [wrapKey] returned. *)
Lemma deliver_wrapped_trace {W : Type} (h : Handler W) (w : W)
  (K secretKey : list byte) (tokenAddress checkpointId consumerAddress : string)
  (consumerPublicKey : list byte) (ent : Entropy) (ev : Event) (e : KeyEnvelope) :
  ev ∈ trace (run h (deliver_wrapped K secretKey tokenAddress checkpointId
                       consumerAddress consumerPublicKey ent) w) ->
  stored_envelope ev = Some e ->
  Envelope.checkpointId e = checkpointId
  /\ exists wrapped ent',
       wrapKey K consumerPublicKey secretKey ent = Ok (wrapped, ent')
       /\ Envelope.checkpointId wrapped = ""
       /\ Envelope.wrappedKey e = Envelope.wrappedKey wrapped
       /\ Envelope.nonce e = Envelope.nonce wrapped
       /\ Envelope.senderPublicKey e = Envelope.senderPublicKey wrapped.
Proof.
  unfold deliver_wrapped.
  destruct (decide (length consumerPublicKey ≠ 32%nat)) as [_|_].
  { cbn. intros H. apply elem_of_nil in H. contradiction. }
  destruct (wrapKey K consumerPublicKey secretKey ent) as [[wrapped ent']|err] eqn:Hw.
  2:{ cbn. intros H. apply elem_of_nil in H. contradiction. }
  cbn [lift mbind prog_mbind prog_bind].
  rewrite run_await. unfold trace. cbn [snd].
  intros Hin Hst. apply list_elem_of_singleton in Hin. subst ev.
  cbn in Hst. injection Hst as <-. cbn. split; [reflexivity|].
  exists wrapped, ent'. repeat split.
  unfold wrapKey in Hw.
  destruct (randomBytes nacl_box_nonceLength ent) as [nonce ent1].
  destruct (nacl_box_keyPair_fromSecretKey secretKey); cbn in Hw; [|discriminate].
  destruct (nacl_box K nonce consumerPublicKey secretKey) as [[?|]|]; cbn in Hw;
    try discriminate.
  injection Hw as <- _. reflexivity.
Qed.

(** What [deliver_wrapped] does once [wrapKey] has returned: one call of
    [storeEnvelope], with the envelope bound to the checkpoint. *)
Lemma deliver_wrapped_run {W : Type} (h : Handler W) (w : W)
  (K secretKey : list byte) (tokenAddress checkpointId consumerAddress : string)
  (consumerPublicKey : list byte) (ent : Entropy) (wrapped : KeyEnvelope) (ent' : Entropy) :
  length consumerPublicKey = 32%nat ->
  wrapKey K consumerPublicKey secretKey ent = Ok (wrapped, ent') ->
  let call :=
    DeliveryStoreEnvelope tokenAddress checkpointId consumerAddress
      {| Envelope.checkpointId := checkpointId;
         Envelope.wrappedKey := Envelope.wrappedKey wrapped;
         Envelope.nonce := Envelope.nonce wrapped;
         Envelope.senderPublicKey := Envelope.senderPublicKey wrapped |} in
  run h (deliver_wrapped K secretKey tokenAddress checkpointId consumerAddress
           consumerPublicKey ent) w
  = ((h unit call w).1, (h unit call w).2, [Called call (h unit call w).1]).
Proof.
  intros Hlen Hw. cbv zeta. unfold deliver_wrapped.
  destruct (decide (length consumerPublicKey ≠ 32%nat)); [contradiction|].
  rewrite Hw. cbn [lift mbind prog_mbind prog_bind]. apply run_await.
Qed.

(** C10. [wrapKey] returns exactly when tweetnacl derives a public key
    from the sender's secret key and boxes the content key; the envelope
    it returns has the empty string as checkpoint identifier, the derived
    public key as sender public key and the fresh 24-byte nonce.  The
    identifier is filled in by the caller: [fulfillRedemption], of either
    key manager, with a key stored for the checkpoint and a 32-byte
    consumer key, makes exactly one call, [storeEnvelope], and hands it
    the envelope of [wrapKey] with the checkpoint being fulfilled written
    over the empty identifier; and whatever the store and the arguments
    are, an envelope it hands to the delivery provider is such an
    envelope. *)
Theorem wrapKey_leaves_checkpoint_empty :
  (forall (contentKey recipientPublicKey senderSecretKey : list byte) (ent : Entropy)
          (envelope : KeyEnvelope) (ent' : Entropy),
      wrapKey contentKey recipientPublicKey senderSecretKey ent = Ok (envelope, ent')
      <-> (Envelope.checkpointId envelope = ""
           /\ nacl_box_keyPair_fromSecretKey senderSecretKey
              = Returns (Envelope.senderPublicKey envelope)
           /\ Envelope.nonce envelope = (randomBytes 24 ent).1
           /\ nacl_box contentKey (randomBytes 24 ent).1 recipientPublicKey senderSecretKey
              = Returns (Some (Envelope.wrappedKey envelope))
           /\ ent' = (randomBytes 24 ent).2))
  /\ (forall (W : Type) (h : Handler W) (w : W) (m : PublisherKeyManager.t)
             (tokenAddress checkpointId consumerAddress : string)
             (consumerPublicKey : list byte) (ent : Entropy)
             (K : list byte) (wrapped : KeyEnvelope) (ent' : Entropy),
      PublisherKeyManager.keys m !! Text.toLowerCase checkpointId = Some K ->
      length consumerPublicKey = 32%nat ->
      wrapKey K consumerPublicKey (PublisherKeyManager.secretKey m) ent = Ok (wrapped, ent') ->
      let call :=
        DeliveryStoreEnvelope tokenAddress checkpointId consumerAddress
          {| Envelope.checkpointId := checkpointId;
             Envelope.wrappedKey := Envelope.wrappedKey wrapped;
             Envelope.nonce := Envelope.nonce wrapped;
             Envelope.senderPublicKey := Envelope.senderPublicKey wrapped |} in
      Envelope.checkpointId wrapped = ""
      /\ run h (PublisherKeyManager.fulfillRedemption m tokenAddress checkpointId
                  consumerAddress consumerPublicKey ent) w
         = ((h unit call w).1, (h unit call w).2, [Called call (h unit call w).1]))
  /\ (forall (W : Type) (h : Handler W) (w : W) (m : OnChainPublisherKeyManager.t)
             (tokenAddress checkpointId consumerAddress : string)
             (consumerPublicKey : list byte) (ent : Entropy)
             (K : list byte) (wrapped : KeyEnvelope) (ent' : Entropy),
      OnChainPublisherKeyManager.keys m !! Text.toLowerCase checkpointId = Some K ->
      length consumerPublicKey = 32%nat ->
      wrapKey K consumerPublicKey (OnChainPublisherKeyManager.secretKey m) ent
      = Ok (wrapped, ent') ->
      let call :=
        DeliveryStoreEnvelope tokenAddress checkpointId consumerAddress
          {| Envelope.checkpointId := checkpointId;
             Envelope.wrappedKey := Envelope.wrappedKey wrapped;
             Envelope.nonce := Envelope.nonce wrapped;
             Envelope.senderPublicKey := Envelope.senderPublicKey wrapped |} in
      Envelope.checkpointId wrapped = ""
      /\ run h (OnChainPublisherKeyManager.fulfillRedemption m tokenAddress checkpointId
                  consumerAddress consumerPublicKey ent) w
         = ((h unit call w).1, (h unit call w).2, [Called call (h unit call w).1]))
  /\ (forall (W : Type) (h : Handler W) (w : W) (m : PublisherKeyManager.t)
             (tokenAddress checkpointId consumerAddress : string)
             (consumerPublicKey : list byte) (ent : Entropy) (ev : Event) (e : KeyEnvelope),
      ev ∈ trace (run h (PublisherKeyManager.fulfillRedemption m tokenAddress checkpointId
                           consumerAddress consumerPublicKey ent) w) ->
      stored_envelope ev = Some e ->
      Envelope.checkpointId e = checkpointId
      /\ exists K wrapped ent',
           wrapKey K consumerPublicKey (PublisherKeyManager.secretKey m) ent
           = Ok (wrapped, ent')
           /\ Envelope.checkpointId wrapped = ""
           /\ Envelope.wrappedKey e = Envelope.wrappedKey wrapped
           /\ Envelope.nonce e = Envelope.nonce wrapped
           /\ Envelope.senderPublicKey e = Envelope.senderPublicKey wrapped)
  /\ (forall (W : Type) (h : Handler W) (w : W) (m : OnChainPublisherKeyManager.t)
             (tokenAddress checkpointId consumerAddress : string)
             (consumerPublicKey : list byte) (ent : Entropy) (ev : Event) (e : KeyEnvelope),
      ev ∈ trace (run h (OnChainPublisherKeyManager.fulfillRedemption m tokenAddress
                           checkpointId consumerAddress consumerPublicKey ent) w) ->
      stored_envelope ev = Some e ->
      Envelope.checkpointId e = checkpointId
      /\ exists K wrapped ent',
           wrapKey K consumerPublicKey (OnChainPublisherKeyManager.secretKey m) ent
           = Ok (wrapped, ent')
           /\ Envelope.checkpointId wrapped = ""
           /\ Envelope.wrappedKey e = Envelope.wrappedKey wrapped
           /\ Envelope.nonce e = Envelope.nonce wrapped
           /\ Envelope.senderPublicKey e = Envelope.senderPublicKey wrapped).
Proof.
  assert (Hwrap : forall (contentKey recipientPublicKey senderSecretKey : list byte)
                         (ent : Entropy) (envelope : KeyEnvelope) (ent' : Entropy),
      wrapKey contentKey recipientPublicKey senderSecretKey ent = Ok (envelope, ent')
      <-> (Envelope.checkpointId envelope = ""
           /\ nacl_box_keyPair_fromSecretKey senderSecretKey
              = Returns (Envelope.senderPublicKey envelope)
           /\ Envelope.nonce envelope = (randomBytes 24 ent).1
           /\ nacl_box contentKey (randomBytes 24 ent).1 recipientPublicKey senderSecretKey
              = Returns (Some (Envelope.wrappedKey envelope))
           /\ ent' = (randomBytes 24 ent).2)).
  { intros contentKey recipientPublicKey senderSecretKey ent envelope ent'.
    unfold wrapKey, nacl_box_nonceLength.
    destruct (randomBytes 24 ent) as [nonce ent1]. cbn [fst snd].
    destruct (nacl_box_keyPair_fromSecretKey senderSecretKey) as [spk|msg];
      cbn [propagate mbind result_bind].
    2:{ split; [discriminate|]. intros (_ & H & _). discriminate. }
    destruct (nacl_box contentKey nonce recipientPublicKey senderSecretKey)
      as [[wrapped|]|msg]; cbn [propagate mbind result_bind].
    + split.
      * intros [= <- <-]. cbn. repeat split.
      * intros (Hc & [= Hs] & Hn & [= Hw] & ->). destruct envelope; cbn in *.
        subst. reflexivity.
    + split; [discriminate|]. intros (_ & _ & _ & H & _). discriminate.
    + split; [discriminate|]. intros (_ & _ & _ & H & _). discriminate. }
  split; [exact Hwrap|]. split; [|split; [|split]].
  - intros W h w m tokenAddress checkpointId consumerAddress consumerPublicKey ent
      K wrapped ent' HK Hlen Hw. cbv zeta.
    split; [apply Hwrap in Hw as Hw'; apply Hw'|].
    rewrite (fulfillRedemption_found _ K) by exact HK.
    exact (deliver_wrapped_run h w _ _ _ _ _ _ _ _ _ Hlen Hw).
  - intros W h w m tokenAddress checkpointId consumerAddress consumerPublicKey ent
      K wrapped ent' HK Hlen Hw. cbv zeta.
    split; [apply Hwrap in Hw as Hw'; apply Hw'|].
    rewrite (onchain_fulfillRedemption_found _ K) by exact HK.
    exact (deliver_wrapped_run h w _ _ _ _ _ _ _ _ _ Hlen Hw).
  - intros W h w m tokenAddress checkpointId consumerAddress consumerPublicKey ent ev e.
    destruct (PublisherKeyManager.keys m !! Text.toLowerCase checkpointId) as [K|] eqn:HK.
    + rewrite (fulfillRedemption_found _ K) by exact HK. intros Hin Hst.
      destruct (deliver_wrapped_trace _ _ _ _ _ _ _ _ _ _ _ Hin Hst)
        as (Hc & wrapped & ent' & H).
      split; [exact Hc|]. exists K, wrapped, ent'. exact H.
    + unfold PublisherKeyManager.fulfillRedemption. rewrite HK. cbn.
      intros H. apply elem_of_nil in H. contradiction.
  - intros W h w m tokenAddress checkpointId consumerAddress consumerPublicKey ent ev e.
    destruct (OnChainPublisherKeyManager.keys m !! Text.toLowerCase checkpointId)
      as [K|] eqn:HK.
    + rewrite (onchain_fulfillRedemption_found _ K) by exact HK. intros Hin Hst.
      destruct (deliver_wrapped_trace _ _ _ _ _ _ _ _ _ _ _ Hin Hst)
        as (Hc & wrapped & ent' & H).
      split; [exact Hc|]. exists K, wrapped, ent'. exact H.
    + unfold OnChainPublisherKeyManager.fulfillRedemption. rewrite HK. cbn.
      intros H. apply elem_of_nil in H. contradiction.
Qed.

End KeyWrapping.

(** On the reference runtime, for the key stored as [0xCP01] and asked
    for as [0xcp01]: the one envelope delivered is bound to [0xcp01]. *)
Lemma wrapKey_leaves_checkpoint_empty_witness :
  let m :=
    PublisherKeyManager.storeKey
      (PublisherKeyManager.create (rev publisher_secret) publisher_secret)
      "0xCP01" (List.repeat x07 32) in
  wrapKey (rt := Reference.runtime) (List.repeat x07 32) consumer_public publisher_secret
    counting
  = Ok ({| Envelope.checkpointId := "";
           Envelope.wrappedKey := List.repeat x00 16 ++ List.repeat x07 32;
           Envelope.nonce := (randomBytes 24 counting).1;
           Envelope.senderPublicKey := rev publisher_secret |},
        (randomBytes 24 counting).2)
  /\ omap stored_envelope
       (trace (run Mock.handler
                 (PublisherKeyManager.fulfillRedemption (rt := Reference.runtime) m
                    "0xToken" "0xcp01" "0xc0ffee" consumer_public counting) Mock.empty))
     = [ {| Envelope.checkpointId := "0xcp01";
            Envelope.wrappedKey := List.repeat x00 16 ++ List.repeat x07 32;
            Envelope.nonce := (randomBytes 24 counting).1;
            Envelope.senderPublicKey := rev publisher_secret |} ].
Proof.
  intros m.
  assert (Hw : wrapKey (rt := Reference.runtime) (List.repeat x07 32) consumer_public
                 publisher_secret counting
               = Ok ({| Envelope.checkpointId := "";
                        Envelope.wrappedKey := List.repeat x00 16 ++ List.repeat x07 32;
                        Envelope.nonce := (randomBytes 24 counting).1;
                        Envelope.senderPublicKey := rev publisher_secret |},
                     (randomBytes 24 counting).2)) by reflexivity.
  split; [exact Hw|].
  destruct (wrapKey_leaves_checkpoint_empty (rt := Reference.runtime)) as (_ & H & _).
  pose proof (H _ Mock.handler Mock.empty m "0xToken" "0xcp01" "0xc0ffee" consumer_public
                counting (List.repeat x07 32) _ _ eq_refl eq_refl Hw) as [_ Hrun].
  rewrite Hrun. reflexivity.
Defined.

(** On the reference runtime: [wrapKey] returns an envelope with no
    checkpoint, and [fulfillRedemption] delivers it bound to the
    checkpoint it was asked to fulfil. *)
Example wrapKey_example :
  wrapKey (rt := Reference.runtime) (List.repeat x07 32) (List.repeat x01 32)
    (List.repeat x02 32) counting
  = Ok ({| Envelope.checkpointId := "";
           Envelope.wrappedKey := List.repeat x00 16 ++ List.repeat x07 32;
           Envelope.nonce := (randomBytes 24 counting).1;
           Envelope.senderPublicKey := List.repeat x02 32 |},
        (randomBytes 24 counting).2).
Proof. reflexivity. Qed.

Example fulfillRedemption_example :
  let m := PublisherKeyManager.storeKey
             (PublisherKeyManager.create (List.repeat x02 32) (List.repeat x02 32))
             "0xCP1" (List.repeat x07 32) in
  omap stored_envelope
    (trace (run Mock.handler
       (PublisherKeyManager.fulfillRedemption (rt := Reference.runtime) m
          "0xToken" "0xcp1" "0xConsumer" (List.repeat x01 32) counting) Mock.empty))
  = [ {| Envelope.checkpointId := "0xcp1";
         Envelope.wrappedKey := List.repeat x00 16 ++ List.repeat x07 32;
         Envelope.nonce := (randomBytes 24 counting).1;
         Envelope.senderPublicKey := List.repeat x02 32 |} ].
Proof. vm_compute. reflexivity. Qed.

(* ===================================================================== *)
(** * keyDelivery.ts, onChainKeyDelivery.ts: the key store                 *)
(* ===================================================================== *)

Section KeyStore.
Context `{rt : Runtime}.

Lemma importKeys_fold_lowercase (entries : list (string * string))
  (keys : gmap string (list byte)) :
  lowercase_keys keys ->
  lowercase_keys
    (fold_left (fun acc '(id, hex) => <[Text.toLowerCase id := Hex.fromHex hex]> acc)
       entries keys).
Proof.
  revert keys. induction entries as [|[id hex] entries IH]; intros keys Hk; [exact Hk|].
  cbn [fold_left]. apply IH. intros k Hsome.
  destruct (decide (k = Text.toLowerCase id)) as [->|Hne].
  - apply toLowerCase_idem.
  - rewrite lookup_insert_ne in Hsome by congruence. apply Hk, Hsome.
Qed.

Lemma importKeys_fold_keeps (entries : list (string * string))
  (keys : gmap string (list byte)) (k : string) :
  is_Some (keys !! k) ->
  is_Some (fold_left (fun acc '(id, hex) => <[Text.toLowerCase id := Hex.fromHex hex]> acc)
             entries keys !! k).
Proof.
  revert keys. induction entries as [|[id hex] entries IH]; intros keys Hk; [exact Hk|].
  cbn [fold_left]. apply IH.
  destruct (decide (k = Text.toLowerCase id)) as [->|Hne].
  - rewrite lookup_insert_eq. eauto.
  - rewrite lookup_insert_ne by congruence. exact Hk.
Qed.

Lemma importKeys_fold_has (entries : list (string * string))
  (keys : gmap string (list byte)) (id hex : string) :
  (id, hex) ∈ entries ->
  is_Some (fold_left (fun acc '(id, hex) => <[Text.toLowerCase id := Hex.fromHex hex]> acc)
             entries keys !! Text.toLowerCase id).
Proof.
  revert keys. induction entries as [|[id' hex'] entries IH]; intros keys Hin.
  - apply elem_of_nil in Hin. contradiction.
  - cbn [fold_left]. apply elem_of_cons in Hin as [[= <- <-]|Hin].
    + apply importKeys_fold_keeps. rewrite lookup_insert_eq. eauto.
    + apply IH, Hin.
Qed.

(** C9. Both key managers store a content key under the lowercased
    checkpoint identifier: after [storeKey s K], for every identifier [t]
    equal to [s] up to letter case, [hasKey t] is true and
    [fulfillRedemption] for [t] wraps [K].  Every key of the store is
    lowercase from construction on and [storeKey] and [importKeys] keep it
    so ([hasKey], [exportKeys] and [fulfillRedemption] do not change the
    store), hence an entry is found under every spelling of its
    identifier, the imported ones included. *)
Theorem key_store_case_insensitive :
  (forall (m : PublisherKeyManager.t) (s t : string) (K : list byte),
      Text.eq_nocase s t ->
      PublisherKeyManager.hasKey (PublisherKeyManager.storeKey m s K) t = true
      /\ forall tokenAddress consumerAddress consumerPublicKey ent,
           PublisherKeyManager.fulfillRedemption (PublisherKeyManager.storeKey m s K)
             tokenAddress t consumerAddress consumerPublicKey ent
           = deliver_wrapped K (PublisherKeyManager.secretKey m) tokenAddress t
               consumerAddress consumerPublicKey ent)
  /\ (forall (m : OnChainPublisherKeyManager.t) (s t : string) (K : list byte),
      Text.eq_nocase s t ->
      OnChainPublisherKeyManager.hasKey (OnChainPublisherKeyManager.storeKey m s K) t = true
      /\ forall tokenAddress consumerAddress consumerPublicKey ent,
           OnChainPublisherKeyManager.fulfillRedemption
             (OnChainPublisherKeyManager.storeKey m s K)
             tokenAddress t consumerAddress consumerPublicKey ent
           = deliver_wrapped K (OnChainPublisherKeyManager.secretKey m) tokenAddress t
               consumerAddress consumerPublicKey ent)
  /\ (forall publicKey secretKey,
      lowercase_keys (PublisherKeyManager.keys (PublisherKeyManager.create publicKey secretKey))
      /\ lowercase_keys
           (OnChainPublisherKeyManager.keys
              (OnChainPublisherKeyManager.create publicKey secretKey)))
  /\ (forall (m : PublisherKeyManager.t) (s : string) (K : list byte),
      lowercase_keys (PublisherKeyManager.keys m) ->
      lowercase_keys (PublisherKeyManager.keys (PublisherKeyManager.storeKey m s K)))
  /\ (forall (m : OnChainPublisherKeyManager.t) (s : string) (K : list byte),
      lowercase_keys (OnChainPublisherKeyManager.keys m) ->
      lowercase_keys
        (OnChainPublisherKeyManager.keys (OnChainPublisherKeyManager.storeKey m s K)))
  /\ (forall (m : PublisherKeyManager.t) (entries : list (string * string)),
      lowercase_keys (PublisherKeyManager.keys m) ->
      lowercase_keys (PublisherKeyManager.keys (PublisherKeyManager.importKeys m entries)))
  /\ (forall (m : PublisherKeyManager.t) (entries : list (string * string))
             (id hex t : string),
      (id, hex) ∈ entries -> Text.eq_nocase id t ->
      PublisherKeyManager.hasKey (PublisherKeyManager.importKeys m entries) t = true)
  /\ (forall (m : PublisherKeyManager.t) (k t : string) (K : list byte),
      lowercase_keys (PublisherKeyManager.keys m) ->
      PublisherKeyManager.keys m !! k = Some K -> Text.eq_nocase t k ->
      PublisherKeyManager.hasKey m t = true
      /\ forall tokenAddress consumerAddress consumerPublicKey ent,
           PublisherKeyManager.fulfillRedemption m
             tokenAddress t consumerAddress consumerPublicKey ent
           = deliver_wrapped K (PublisherKeyManager.secretKey m) tokenAddress t
               consumerAddress consumerPublicKey ent).
Proof.
  repeat apply conj.
  - intros m s t K Hst. unfold Text.eq_nocase in Hst.
    assert (Hl : PublisherKeyManager.keys (PublisherKeyManager.storeKey m s K)
                 !! Text.toLowerCase t = Some K).
    { cbn. rewrite <- Hst. apply lookup_insert_eq. }
    split.
    + unfold PublisherKeyManager.hasKey. rewrite Hl. reflexivity.
    + intros. rewrite (fulfillRedemption_found _ K) by exact Hl. reflexivity.
  - intros m s t K Hst. unfold Text.eq_nocase in Hst.
    assert (Hl : OnChainPublisherKeyManager.keys (OnChainPublisherKeyManager.storeKey m s K)
                 !! Text.toLowerCase t = Some K).
    { cbn. rewrite <- Hst. apply lookup_insert_eq. }
    split.
    + unfold OnChainPublisherKeyManager.hasKey. rewrite Hl. reflexivity.
    + intros. rewrite (onchain_fulfillRedemption_found _ K) by exact Hl. reflexivity.
  - intros publicKey secretKey. split; intros k [v Hv]; cbn in Hv;
      rewrite lookup_empty in Hv; discriminate.
  - intros m s K Hk k Hsome. cbn in Hsome.
    destruct (decide (k = Text.toLowerCase s)) as [->|Hne].
    + apply toLowerCase_idem.
    + rewrite lookup_insert_ne in Hsome by congruence. apply Hk, Hsome.
  - intros m s K Hk k Hsome. cbn in Hsome.
    destruct (decide (k = Text.toLowerCase s)) as [->|Hne].
    + apply toLowerCase_idem.
    + rewrite lookup_insert_ne in Hsome by congruence. apply Hk, Hsome.
  - intros m entries Hk. cbn. apply importKeys_fold_lowercase, Hk.
  - intros m entries id hex t Hin Hnc. unfold Text.eq_nocase in Hnc.
    unfold PublisherKeyManager.hasKey. cbn. rewrite <- Hnc.
    apply bool_decide_eq_true_2, importKeys_fold_has with (hex := hex), Hin.
  - intros m k t K Hk Hl Hnc. unfold Text.eq_nocase in Hnc.
    assert (Hl' : PublisherKeyManager.keys m !! Text.toLowerCase t = Some K).
    { rewrite Hnc, (Hk k) by eauto. exact Hl. }
    split.
    + unfold PublisherKeyManager.hasKey. rewrite Hl'. reflexivity.
    + intros. apply (fulfillRedemption_found _ K), Hl'.
Qed.

End KeyStore.

(** The store of the repository's test, asked under another spelling. *)
Example hasKey_other_case :
  PublisherKeyManager.hasKey
    (PublisherKeyManager.storeKey (PublisherKeyManager.create [] []) "0xCp1" [x01]) "0XcP1"
  = true
  /\ PublisherKeyManager.hasKey
       (PublisherKeyManager.importKeys (PublisherKeyManager.create [] []) [("0xAB", "0x01")])
       "0xab"
     = true.
Proof. vm_compute. split; reflexivity. Qed.

(* ===================================================================== *)
(** * client.ts: consume                                                   *)
(* ===================================================================== *)

Section Consume.
Context `{rt : Runtime}.

(** Running a sequence: the calls of the first part, then those of the
    second. *)
Lemma run_bind {W A B : Type} (h : Handler W) (p : Prog A) (f : A -> Prog B) (w : W) :
  run h (p ≫= f) w =
    match run h p w with
    | (Ok a, w1, t1) =>
        let '(r2, w2, t2) := run h (f a) w1 in (r2, w2, t1 ++ t2)
    | (Err e, w1, t1) => (Err e, w1, t1)
    end.
Proof.
  revert w. induction p as [a|e|X call k IH]; intros w.
  - cbn. destruct (run h (f a) w) as [[r2 w2] t2]. reflexivity.
  - reflexivity.
  - cbn. destruct (h X call w) as [r w1].
    change (prog_bind f (k r)) with (k r ≫= f). rewrite IH.
    destruct (run h (k r) w1) as [[[a|e] w2] t1].
    + destruct (run h (f a) w2) as [[r2 w3] t2]. reflexivity.
    + reflexivity.
Qed.

Lemma run_lift {W A : Type} (h : Handler W) (r : result A) (w : W) :
  run h (lift r) w = (r, w, []).
Proof. destruct r; reflexivity. Qed.

Lemma consume_rest_quiet {W : Type} (h : Handler W) (w : W)
  (tokenAddress checkpointId : string) (keyEnvelope : KeyEnvelope) (secretKey : list byte) :
  Forall quiet
    (trace (run h (MindstateClient.consume_rest tokenAddress checkpointId
                     keyEnvelope secretKey) w)).
Proof.
  unfold MindstateClient.consume_rest, MindstateClient.getCheckpoint, trace.
  cbn.
  destruct (h _ (ContractGetCheckpoint tokenAddress checkpointId) w) as [[cp|e] w1]; cbn.
  2:{ repeat constructor. }
  destruct (h _ (StorageDownload (Raw.ciphertextUri cp)) w1) as [[ciphertext|e] w2]; cbn.
  2:{ repeat constructor. }
  repeat match goal with
         | |- context [lift ?r] => destruct r; cbn
         end; repeat constructor.
Qed.

Lemma app_cons_eq_cons {A : Type} (pre : list A) (ev : A) (post : list A) (a : A) (l : list A) :
  pre ++ ev :: post = a :: l ->
  (pre = [] /\ ev = a /\ post = l) \/ exists pre', pre = a :: pre' /\ pre' ++ ev :: post = l.
Proof.
  destruct pre as [|p pre]; cbn; intros [= -> <-]; eauto.
Qed.

Lemma quiet_in (Q : list Event) (ev : Event) : Forall quiet Q -> ev ∈ Q -> quiet ev.
Proof. intros HQ Hin. rewrite Forall_forall in HQ. apply HQ, Hin. Qed.

Lemma quiet_split (Q pre post : list Event) (ev : Event) :
  Forall quiet Q -> pre ++ ev :: post = Q -> quiet ev.
Proof.
  intros HQ <-. apply (quiet_in _ _ HQ). apply elem_of_app. right. constructor.
Qed.

Ltac consume_step h :=
  match goal with
  | |- context [h ?X ?call ?w] =>
      let r := fresh "r" in let w' := fresh "w" in
      destruct (h X call w) as [r w']; destruct r as [?v|?err];
      cbn -[MindstateClient.consume_rest]
  end.

Ltac split_trace H :=
  repeat (apply app_cons_eq_cons in H as [(-> & <- & <-)|(? & -> & H)]);
  try discriminate.

Ltac in_trace H :=
  repeat (apply elem_of_cons in H as [->|H]); try discriminate.

Ltac consume_tail h Hq :=
  match goal with
  | |- context [run h (MindstateClient.consume_rest ?t ?c ?e ?s) ?w] =>
      let HQ := fresh "HQ" in
      pose proof (Hq w t c e s) as HQ;
      destruct (run h (MindstateClient.consume_rest t c e s) w) as [[? ?] ?];
      cbn in HQ |- *
  end.

Ltac pick_event :=
  first [ eexists; split; [constructor 1|reflexivity]
        | eexists; split; [constructor 2; constructor 1|reflexivity]
        | eexists; split; [do 2 constructor 2; constructor 1|reflexivity]
        | eexists; split; [do 3 constructor 2; constructor 1|reflexivity] ].

Ltac consume_leaf :=
  split; [|split];
  [ intros pre ev post Heq Hred; symmetry in Heq;
    repeat (apply app_cons_eq_cons in Heq as [(-> & -> & ->)|(? & -> & Heq)];
            [try discriminate Hred|]);
    try (exfalso; apply (f_equal length) in Heq; rewrite length_app in Heq;
         cbn in Heq; lia);
    try (match goal with
         | HQ : Forall quiet _ |- _ =>
             destruct (quiet_split _ _ _ _ HQ Heq) as (Hr & _); congruence
         end);
    split; pick_event
  | intros (qa & Ha & Hfa) (qf & Hf & Hff);
    repeat (apply elem_of_cons in Ha as [->|Ha]; [try discriminate Hfa|]);
    repeat (apply elem_of_cons in Hf as [->|Hf]; [try discriminate Hff|]);
    try (apply elem_of_nil in Ha; contradiction);
    try (apply elem_of_nil in Hf; contradiction);
    try (match goal with
         | HQ : Forall quiet _ |- _ =>
             first [ destruct (quiet_in _ _ HQ Ha) as (_ & _ & _ & Hh);
                     rewrite Hh in Hfa; discriminate
                   | destruct (quiet_in _ _ HQ Hf) as (_ & _ & Hh & _);
                     rewrite Hh in Hff; discriminate ]
         end);
    (split; [reflexivity|]); intros ev Hev;
    repeat (apply elem_of_cons in Hev as [->|Hev]; [reflexivity|]);
    try (apply elem_of_nil in Hev; contradiction)
  | intros (qa & Ha & Hfa) ev Hev;
    repeat (apply elem_of_cons in Ha as [->|Ha]; [try discriminate Hfa|]);
    try (apply elem_of_nil in Ha; contradiction);
    try (match goal with
         | HQ : Forall quiet _ |- _ =>
             destruct (quiet_in _ _ HQ Ha) as (_ & _ & _ & Hh);
             rewrite Hh in Hfa; discriminate
         end);
    repeat (apply elem_of_cons in Hev as [->|Hev]; [reflexivity|]);
    try (apply elem_of_nil in Hev; contradiction);
    try (match goal with
         | HQ : Forall quiet _ |- _ =>
             destruct (quiet_in _ _ HQ Hev) as (Hh & _); exact Hh
         end) ].

(** C1. In every run of [consume]: a call of [redeem] comes after a
    [hasRedeemed] that answered [false] and after a [fetchEnvelope] that
    returned an envelope; when [hasRedeemed] answered [false] and
    [fetchEnvelope] was rejected, [consume] fails with the
    envelope-not-yet-available error and [redeem] is not called; and when
    [hasRedeemed] answered [true], [redeem] is not called. *)
Theorem consume_redeems_after_envelope {W : Type} (h : Handler W) (w : W)
  (client : MindstateClient.t) (tokenAddress checkpointId : string)
  (secretKey : list byte) :
  let x := run h (MindstateClient.consume client tokenAddress checkpointId secretKey) w in
  (forall pre ev post,
      trace x = pre ++ ev :: post -> is_redeem ev = true ->
      (exists f, f ∈ pre /\ is_fetch_ok f = true)
      /\ (exists a, a ∈ pre /\ is_hasRedeemed false a = true))
  /\ ((exists a, a ∈ trace x /\ is_hasRedeemed false a = true) ->
      (exists f, f ∈ trace x /\ is_fetch_rejected f = true) ->
      outcome x = Err EnvelopeNotYetAvailable
      /\ forall ev, ev ∈ trace x -> is_redeem ev = false)
  /\ ((exists a, a ∈ trace x /\ is_hasRedeemed true a = true) ->
      forall ev, ev ∈ trace x -> is_redeem ev = false).
Proof.
  unfold MindstateClient.consume, MindstateClient.hasRedeemed, MindstateClient.redeem.
  pose proof (consume_rest_quiet h) as Hq. unfold trace, outcome in *.
  destruct (MindstateClient.signer client); cbn -[MindstateClient.consume_rest].
  2:{ consume_leaf. }
  consume_step h.
  2:{ consume_leaf. }
  match goal with v : string |- _ => destruct v as [|c address] end;
    cbn -[MindstateClient.consume_rest].
  { consume_leaf. }
  consume_step h.
  2:{ consume_leaf. }
  match goal with v : bool |- _ => destruct v end;
    cbn -[MindstateClient.consume_rest].
  - (* already redeemed *)
    consume_step h.
    2:{ consume_leaf. }
    consume_tail h Hq. consume_leaf.
  - consume_step h.
    2:{ consume_leaf. }
    consume_step h.
    2:{ consume_leaf. }
    consume_tail h Hq. consume_leaf.
Qed.

End Consume.

(* ===================================================================== *)
(** * explorer.ts: the lineage walk                                        *)
(* ===================================================================== *)

Section Walk.
Import MindstateExplorer.

(** One iteration of the loop. *)
Lemma lineage_walk_unfold (tokenAddress : string) (maxDepth : nat) (currentId : string)
  (lineage : list CheckpointRecord) (visited : gset string) :
  lineage_walk tokenAddress maxDepth currentId lineage visited =
    if decide (currentId ≠ ZERO_BYTES32 ∧ (length lineage < maxDepth)%nat) then
      if decide (Text.toLowerCase currentId ∈ visited) then
        Throw (LineageCycle currentId)
      else
        Await (ContractGetCheckpoint tokenAddress currentId) (fun r =>
          match r with
          | Err e => Throw e
          | Ok cp =>
              if decide (Raw.publishedAt cp = 0%Z) then
                Throw (CheckpointNotFound currentId)
              else
                lineage_walk tokenAddress maxDepth (Raw.predecessorId cp)
                  (lineage ++ [parseCheckpointFromContract currentId cp])
                  (visited ∪ {[Text.toLowerCase currentId]})
          end)
    else Ret lineage.
Proof. simp lineage_walk. destruct (decide _); reflexivity. Qed.

Ltac walk_leaf :=
  cbn; unfold lookups; cbn; split_and!;
  [ lia
  | repeat constructor
  | intros result Hr; first [discriminate Hr | injection Hr as <-; lia]
  | repeat constructor; intros Hx; apply elem_of_nil in Hx; contradiction
  | intros id Hid;
    first [ apply elem_of_nil in Hid; contradiction
          | apply list_elem_of_singleton in Hid as ->; assumption ]
  | intros result Hr;
    first [ discriminate Hr
          | injection Hr as <-; exists []; rewrite app_nil_r; (split; [reflexivity|]);
            match goal with
            | Hexit : ¬ (?c ≠ _ ∧ _) |- _ =>
                destruct (decide (c = ZERO_BYTES32)) as [->|Hc];
                [ right; reflexivity
                | left; apply Nat.le_ngt; intros Hlt; apply Hexit; split; assumption ]
            end ] ].

(** What a walk from any loop state does, by induction on the number of
    iterations still allowed. *)
Lemma lineage_walk_bounds {W : Type} (h : Handler W) (tokenAddress : string)
  (maxDepth : nat) (n : nat) :
  forall (currentId : string) (lineage : list CheckpointRecord)
         (visited : gset string) (w : W),
    (maxDepth - length lineage <= n)%nat ->
    let x := run h (lineage_walk tokenAddress maxDepth currentId lineage visited) w in
    (length (trace x) <= maxDepth - length lineage)%nat
    /\ Forall (fun ev => is_lookup ev = true) (trace x)
    /\ (forall result, outcome x = Ok result ->
        (length result <= Nat.max maxDepth (length lineage))%nat)
    /\ NoDup (Text.toLowerCase <$> lookups (trace x))
    /\ (forall id, id ∈ lookups (trace x) -> Text.toLowerCase id ∉ visited)
    /\ (forall result, outcome x = Ok result ->
        exists more,
          result = lineage ++ more
          /\ ((maxDepth <= length result)%nat
              \/ last (currentId :: (Checkpoint.predecessorId <$> more))
                 = Some ZERO_BYTES32)).
Proof.
  induction n as [|n IH]; intros currentId lineage visited w Hn;
    rewrite lineage_walk_unfold.
  - destruct (decide _) as [[_ Hlt]|Hexit]; [lia|]. walk_leaf.
  - destruct (decide _) as [[Hz Hlt]|Hexit]; [|walk_leaf].
    destruct (decide (Text.toLowerCase currentId ∈ visited)) as [Hin|Hnotin];
      [walk_leaf|].
    cbn. destruct (h Raw.t (ContractGetCheckpoint tokenAddress currentId) w) as [[cp|e] w1];
      [|walk_leaf].
    destruct (decide (Raw.publishedAt cp = 0%Z)) as [_|_]; [walk_leaf|].
    specialize (IH (Raw.predecessorId cp)
                  (lineage ++ [parseCheckpointFromContract currentId cp])
                  (visited ∪ {[Text.toLowerCase currentId]}) w1).
    rewrite length_app in IH. cbn [length] in IH.
    destruct IH as (Hlen & Hall & Hres & Hnd & Hvis & Hend); [lia|].
    destruct (run h _ w1) as [[res w2] tr]. unfold trace, outcome in *.
    cbn [fst snd] in *. unfold lookups in *. cbn [omap lookup_id fmap list_fmap].
    split_and!.
    + cbn. lia.
    + constructor; [reflexivity|exact Hall].
    + intros result Hr. specialize (Hres result Hr). lia.
    + cbn. constructor; [|exact Hnd].
      intros Hdup. apply list_elem_of_fmap in Hdup as (id & Heq & Hid).
      apply (Hvis id Hid). rewrite <- Heq. set_solver.
    + intros id Hid. cbn in Hid. apply elem_of_cons in Hid as [->|Hid]; [exact Hnotin|].
      specialize (Hvis id Hid). set_solver.
    + intros result Hr. destruct (Hend result Hr) as (more & -> & Hlast).
      exists (parseCheckpointFromContract currentId cp :: more).
      split; [rewrite <- app_assoc; reflexivity|].
      destruct Hlast as [Hfull|Hzero]; [left; exact Hfull|right].
      cbn [fmap list_fmap]. rewrite last_cons_cons. exact Hzero.
Qed.

End Walk.

(** Against a source that never reaches the sentinel the walk stops at
    the depth given; on a two-element cycle it throws at the identifier
    that repeats. *)
Example getLineage_endless :
  outcome (run endless (MindstateExplorer.getLineage "0xToken" "0x1" 3) tt)
  = Ok [ Checkpoint.make "0x1" "0x10" "" "" "" "" 1 1;
         Checkpoint.make "0x10" "0x100" "" "" "" "" 1 1;
         Checkpoint.make "0x100" "0x1000" "" "" "" "" 1 1 ]
  /\ lookups (trace (run endless (MindstateExplorer.getLineage "0xToken" "0x1" 3) tt))
     = ["0x1"; "0x10"; "0x100"].
Proof. vm_compute. split; reflexivity. Qed.

Example getLineage_cycle :
  outcome (run Mock.handler (MindstateExplorer.getLineage "0xToken" "0xaa" 10) two_cycle)
  = Err (LineageCycle "0xAA")
  /\ lookups (trace (run Mock.handler
                       (MindstateExplorer.getLineage "0xToken" "0xaa" 10) two_cycle))
     = ["0xaa"; "0xbb"].
Proof. vm_compute. split; reflexivity. Qed.

(** The depth bound comes first: on the same cycle with [maxDepth = 2]
    the walk returns the two records without turning to the predecessor
    ["0xAA"] of the last one. *)
Example getLineage_cycle_cut_off :
  outcome (run Mock.handler (MindstateExplorer.getLineage "0xToken" "0xaa" 2) two_cycle)
  = Ok [ Checkpoint.make "0xaa" "0xbb" "" "" "" "" 1 1;
         Checkpoint.make "0xbb" "0xAA" "" "" "" "" 1 1 ]
  /\ Text.toLowerCase "0xAA" = Text.toLowerCase "0xaa".
Proof. vm_compute. split; reflexivity. Qed.

(* ===================================================================== *)
(** * explorer.ts: the lineage walk for any depth                          *)
(* ===================================================================== *)

Section HostWalk.
Context {W : Type}.
Variable toLowerCase : string -> string.
Variable h : Handler W.
Variable tokenAddress : string.
Variable maxDepth : JsNumber.t.

Lemma length_lt_mono (k n : nat) :
  JsNumber.length_lt k maxDepth = true -> JsNumber.length_lt n maxDepth = false ->
  (k < n)%nat.
Proof.
  destruct maxDepth as [num den| | |]; cbn; try discriminate.
  intros Hk Hn. apply Z.ltb_lt in Hk. apply Z.ltb_ge in Hn. nia.
Qed.

Lemma host_walk_unfold (fuel : nat) (currentId : string)
  (lineage : list CheckpointRecord) (visited : gset string) :
  Host.lineage_walk toLowerCase fuel tokenAddress maxDepth currentId lineage visited =
    if bool_decide (currentId ≠ ZERO_BYTES32)
       && JsNumber.length_lt (length lineage) maxDepth
    then
      match fuel with
      | O => Ret None
      | S fuel =>
          if decide (toLowerCase currentId ∈ visited) then Throw (LineageCycle currentId)
          else
            Await (ContractGetCheckpoint tokenAddress currentId) (fun r =>
              match r with
              | Err e => Throw e
              | Ok cp =>
                  if decide (Raw.publishedAt cp = 0%Z) then
                    Throw (CheckpointNotFound currentId)
                  else
                    Host.lineage_walk toLowerCase fuel tokenAddress maxDepth
                      (Raw.predecessorId cp)
                      (lineage ++ [MindstateExplorer.parseCheckpointFromContract currentId cp])
                      (visited ∪ {[toLowerCase currentId]})
              end)
      end
    else Ret (Some lineage).
Proof. destruct fuel; reflexivity. Qed.

Lemma single_answer_split (a b : string * result Raw.t)
  (pre post : list (string * result Raw.t)) :
  [a] = pre ++ b :: post -> pre = [] /\ a = b /\ post = [].
Proof.
  destruct pre as [|p pre]; cbn.
  - intros [= -> <-]. repeat split.
  - intros [= _ H]. destruct pre; discriminate H.
Qed.

Ltac host_leaf :=
  cbn; unfold lookups, answers; cbn; split_and!;
  [ discriminate
  | lia
  | repeat constructor
  | intros result Hr; first [discriminate Hr | injection Hr as <-; lia]
  | repeat constructor; intros Hx; apply elem_of_nil in Hx; contradiction
  | intros id Hid;
    first [ apply elem_of_nil in Hid; contradiction
          | apply list_elem_of_singleton in Hid as ->; assumption ]
  | intros pre id cp' post Hsplit;
    first [ destruct pre; discriminate Hsplit
          | apply single_answer_split in Hsplit as (-> & [= <- <-] & ->);
            intros; contradiction
          | apply single_answer_split in Hsplit as (_ & Hbad & _); discriminate Hbad ] ].

(** What a walk from any loop state does when the depth is reached after
    [n] records, by induction on the iterations it may make. *)
Lemma host_walk_bounds (n : nat) :
  JsNumber.length_lt n maxDepth = false ->
  forall (fuel : nat) (currentId : string) (lineage : list CheckpointRecord)
         (visited : gset string) (w : W),
    (n - length lineage <= fuel)%nat ->
    let x := run h (Host.lineage_walk toLowerCase fuel tokenAddress maxDepth currentId
                      lineage visited) w in
    outcome x <> Ok None
    /\ (length (trace x) <= n - length lineage)%nat
    /\ Forall (fun ev => is_lookup ev = true) (trace x)
    /\ (forall result, outcome x = Ok (Some result) ->
        (length result <= Nat.max n (length lineage))%nat)
    /\ NoDup (toLowerCase <$> lookups (trace x))
    /\ (forall id, id ∈ lookups (trace x) -> toLowerCase id ∉ visited)
    /\ (forall pre id cp post,
        answers (trace x) = pre ++ (id, Ok cp) :: post ->
        Raw.publishedAt cp <> 0%Z ->
        Raw.predecessorId cp <> ZERO_BYTES32 ->
        JsNumber.length_lt (length lineage + S (length pre)) maxDepth = true ->
        toLowerCase (Raw.predecessorId cp) ∈ visited
        \/ toLowerCase (Raw.predecessorId cp) ∈ toLowerCase <$> (pre.*1 ++ [id]) ->
        post = [] /\ outcome x = Err (LineageCycle (Raw.predecessorId cp))).
Proof.
  intros Hn. induction fuel as [|fuel IH]; intros currentId lineage visited w Hfuel;
    rewrite host_walk_unfold.
  - destruct (bool_decide (currentId ≠ ZERO_BYTES32)
              && JsNumber.length_lt (length lineage) maxDepth) eqn:Hcond.
    + apply andb_true_iff in Hcond as [_ Hlt].
      pose proof (length_lt_mono _ _ Hlt Hn). lia.
    + host_leaf.
  - destruct (bool_decide (currentId ≠ ZERO_BYTES32)
              && JsNumber.length_lt (length lineage) maxDepth) eqn:Hcond; [|host_leaf].
    apply andb_true_iff in Hcond as [Hz Hlt].
    pose proof (length_lt_mono _ _ Hlt Hn) as Hless.
    destruct (decide (toLowerCase currentId ∈ visited)) as [Hin|Hnotin]; [host_leaf|].
    cbn. destruct (h Raw.t (ContractGetCheckpoint tokenAddress currentId) w) as [[cp|e] w1];
      [|host_leaf].
    destruct (decide (Raw.publishedAt cp = 0%Z)) as [Hpub|Hpub]; [host_leaf|].
    pose proof (IH (Raw.predecessorId cp)
                  (lineage ++ [MindstateExplorer.parseCheckpointFromContract currentId cp])
                  (visited ∪ {[toLowerCase currentId]}) w1) as IHx.
    rewrite length_app in IHx. cbn [length] in IHx.
    destruct IHx as (Hend & Hlen & Hall & Hres & Hnd & Hvis & Hcyc); [lia|].
    (* the state the next iteration starts from, for the cycle clause *)
    assert (Hnext : forall cp',
      cp' = cp ->
      Raw.predecessorId cp' <> ZERO_BYTES32 ->
      JsNumber.length_lt (length lineage + 1) maxDepth = true ->
      toLowerCase (Raw.predecessorId cp') ∈ visited ∪ {[toLowerCase currentId]} ->
      run h (Host.lineage_walk toLowerCase fuel tokenAddress maxDepth
               (Raw.predecessorId cp)
               (lineage ++ [MindstateExplorer.parseCheckpointFromContract currentId cp])
               (visited ∪ {[toLowerCase currentId]})) w1
      = (Err (LineageCycle (Raw.predecessorId cp)), w1, [])).
    { intros cp' -> Hz' Hlt' Hin'. rewrite host_walk_unfold, length_app. cbn [length].
      rewrite Hlt', (bool_decide_eq_true_2 _ Hz'). cbn [andb].
      pose proof (length_lt_mono _ _ Hlt' Hn).
      destruct fuel as [|fuel']; [lia|].
      destruct (decide _) as [_|Hno]; [reflexivity|contradiction]. }
    destruct (run h _ w1) as [[res w2] tr] eqn:Hrun. unfold trace, outcome in *.
    cbn [fst snd] in *. unfold lookups, answers in *.
    cbn [omap lookup_id lookup_answer fmap list_fmap].
    split_and!.
    + exact Hend.
    + cbn. lia.
    + constructor; [reflexivity|exact Hall].
    + intros result Hr. specialize (Hres result Hr). lia.
    + cbn. constructor; [|exact Hnd].
      intros Hdup. apply list_elem_of_fmap in Hdup as (id & Heq & Hid).
      apply (Hvis id Hid). rewrite <- Heq. apply elem_of_union_r, elem_of_singleton.
      reflexivity.
    + intros id Hid. cbn in Hid. apply elem_of_cons in Hid as [->|Hid]; [exact Hnotin|].
      specialize (Hvis id Hid). intros Hv. apply Hvis, elem_of_union_l, Hv.
    + intros pre id cp' post Hsplit Hpub' Hz' Hlt' Hin'.
      change (omap lookup_answer
                (Called (ContractGetCheckpoint tokenAddress currentId) (Ok cp) :: tr))
        with ((currentId, Ok cp) :: omap lookup_answer tr) in Hsplit.
      destruct pre as [|p pre].
      * cbn in Hsplit. injection Hsplit as <- <- Hpost. cbn in Hin', Hlt'.
        assert (Hin2 : toLowerCase (Raw.predecessorId cp)
                       ∈ visited ∪ {[toLowerCase currentId]}).
        { destruct Hin' as [Hin'|Hin']; [apply elem_of_union_l, Hin'|].
          apply list_elem_of_singleton in Hin'. rewrite Hin'.
          apply elem_of_union_r, elem_of_singleton. reflexivity. }
        specialize (Hnext cp eq_refl Hz' Hlt' Hin2). injection Hnext as -> _ ->.
        cbn in Hpost. subst post. split; reflexivity.
      * cbn in Hsplit. injection Hsplit as Hhead Hsplit. subst p.
        apply (Hcyc pre id cp' post Hsplit Hpub' Hz').
        -- cbn [length] in Hlt'.
           replace (length lineage + 1 + S (length pre))%nat
             with (length lineage + S (S (length pre)))%nat by lia.
           exact Hlt'.
        -- cbn in Hin'. destruct Hin' as [Hin'|Hin']; [left; apply elem_of_union_l, Hin'|].
           apply elem_of_cons in Hin' as [->|Hin']; [left|right; exact Hin'].
           apply elem_of_union_r, elem_of_singleton. reflexivity.
Qed.

(** Iterations that are not needed make no difference. *)
Lemma host_walk_fuel (n : nat) :
  JsNumber.length_lt n maxDepth = false ->
  forall (fuel fuel' : nat) (currentId : string) (lineage : list CheckpointRecord)
         (visited : gset string) (w : W),
    (n - length lineage <= fuel)%nat -> (n - length lineage <= fuel')%nat ->
    run h (Host.lineage_walk toLowerCase fuel tokenAddress maxDepth currentId
             lineage visited) w
    = run h (Host.lineage_walk toLowerCase fuel' tokenAddress maxDepth currentId
               lineage visited) w.
Proof.
  intros Hn. induction fuel as [|fuel IH]; intros fuel' currentId lineage visited w Hf Hf';
    rewrite !(host_walk_unfold _ currentId);
    destruct (bool_decide (currentId ≠ ZERO_BYTES32)
              && JsNumber.length_lt (length lineage) maxDepth) eqn:Hcond;
    try reflexivity;
    apply andb_true_iff in Hcond as [_ Hlt];
    pose proof (length_lt_mono _ _ Hlt Hn) as Hless; [lia|].
  destruct fuel' as [|fuel']; [lia|].
  destruct (decide _); [reflexivity|]. cbn.
  destruct (h Raw.t (ContractGetCheckpoint tokenAddress currentId) w) as [[cp|e] w1];
    [|reflexivity].
  destruct (decide _); [reflexivity|].
  rewrite (IH fuel'); [reflexivity| |]; rewrite length_app; cbn [length]; lia.
Qed.

End HostWalk.

(** C8, as the code has it.  Let [n] be a number of records that is not
    below [maxDepth] (for a natural number [maxDepth] itself will do).
    Whatever the record source answers, a walk allowed [n] iterations or
    more ends, and iterations beyond [n] make no difference; it makes at
    most [n] calls, all of them lookups, and returns at most [n] records;
    it looks no identifier up twice, as [toLowerCase] compares them; and
    when a lookup answers with a predecessor that is not the zero
    sentinel, while the depth is not reached, and that predecessor equals
    after [toLowerCase] an identifier looked up so far, the walk makes no
    further call and throws the lineage-cycle error naming that
    predecessor.  This holds whatever the host's [toLowerCase] does to a
    string. *)
Theorem getLineage_bounded {W : Type} (toLowerCase : string -> string)
  (h : Handler W) (w : W) (tokenAddress checkpointId : string)
  (maxDepth : JsNumber.t) (n fuel : nat) :
  JsNumber.length_lt n maxDepth = false -> (n <= fuel)%nat ->
  let x := run h (Host.getLineage toLowerCase fuel tokenAddress checkpointId
                    (Some maxDepth)) w in
  outcome x <> Ok None
  /\ x = run h (Host.getLineage toLowerCase n tokenAddress checkpointId (Some maxDepth)) w
  /\ (length (trace x) <= n)%nat
  /\ Forall (fun ev => is_lookup ev = true) (trace x)
  /\ (forall lineage, outcome x = Ok (Some lineage) -> (length lineage <= n)%nat)
  /\ NoDup (toLowerCase <$> lookups (trace x))
  /\ (forall pre id cp post,
      answers (trace x) = pre ++ (id, Ok cp) :: post ->
      Raw.publishedAt cp <> 0%Z ->
      Raw.predecessorId cp <> ZERO_BYTES32 ->
      JsNumber.length_lt (S (length pre)) maxDepth = true ->
      toLowerCase (Raw.predecessorId cp) ∈ toLowerCase <$> (pre.*1 ++ [id]) ->
      post = [] /\ outcome x = Err (LineageCycle (Raw.predecessorId cp)))
  /\ (forall k, JsNumber.length_lt k (JsNumber.of_nat k) = false).
Proof.
  intros Hn Hfuel x. subst x. unfold Host.getLineage. cbn [default].
  destruct (host_walk_bounds toLowerCase h tokenAddress maxDepth n Hn fuel checkpointId [] ∅ w)
    as (Hend & Hlen & Hall & Hres & Hnd & _ & Hcyc); [cbn; lia|].
  cbn [length] in *. rewrite Nat.sub_0_r in Hlen.
  split_and!.
  - exact Hend.
  - apply (host_walk_fuel toLowerCase h tokenAddress maxDepth n Hn); cbn; lia.
  - exact Hlen.
  - exact Hall.
  - intros lineage Hl. specialize (Hres lineage Hl). lia.
  - exact Hnd.
  - intros pre id cp post Hsplit Hpub Hz Hlt Hin.
    apply (Hcyc pre id cp post Hsplit Hpub Hz Hlt). right. exact Hin.
  - intros k. cbn. apply Z.ltb_ge. lia.
Qed.

Lemma getLineage_bounded_witness :
  JsNumber.length_lt 3 (JsNumber.of_nat 3) = false
  /\ (3 <= 5)%nat
  /\ (length (trace (run endless
                       (Host.getLineage Text.toLowerCase 5 "0xToken" "0x1"
                          (Some (JsNumber.of_nat 3))) tt)) <= 3)%nat.
Proof.
  split; [reflexivity|]. split; [lia|].
  apply (getLineage_bounded Text.toLowerCase endless tt "0xToken" "0x1"
           (JsNumber.of_nat 3) 3 5); [reflexivity|lia].
Defined.

Lemma length_toLowerCase (s : string) :
  String.length (Text.toLowerCase s) = String.length s.
Proof. induction s as [|c s IH]; [reflexivity|]. cbn. rewrite IH. reflexivity. Qed.

Lemma repeat_char_snoc (c : ascii) (k : nat) :
  Text.repeat_char c k +:+ String c EmptyString = Text.repeat_char c (S k).
Proof.
  induction k as [|k IH]; [reflexivity|].
  change (Text.repeat_char c (S k) +:+ String c "")
    with (String c (Text.repeat_char c k +:+ String c "")).
  rewrite IH. reflexivity.
Qed.

Lemma length_repeat_char (c : ascii) (k : nat) : String.length (Text.repeat_char c k) = k.
Proof. induction k as [|k IH]; [reflexivity|]. cbn. rewrite IH. reflexivity. Qed.

Lemma length_endless_id (k : nat) :
  String.length (Text.toLowerCase ("0x1" +:+ Text.repeat_char "0" k)) = (3 + k)%nat.
Proof.
  rewrite length_toLowerCase.
  change ("0x1" +:+ Text.repeat_char "0" k)
    with (String "0" (String "x" (String "1" (Text.repeat_char "0" k)))).
  cbn [String.length]. rewrite length_repeat_char. reflexivity.
Qed.

(** With no bound on the depth, the walk against the endless source is
    still running after any number of iterations. *)
Lemma endless_walk_runs_on (fuel : nat) :
  forall (k : nat) (lineage : list CheckpointRecord) (visited : gset string),
    (forall s, s ∈ visited -> (String.length s < 3 + k)%nat) ->
    let x := run endless
               (Host.lineage_walk Text.toLowerCase fuel "0xToken" JsNumber.PosInfinity
                  ("0x1" +:+ Text.repeat_char "0" k) lineage visited) tt in
    outcome x = Ok None /\ length (trace x) = fuel.
Proof.
  induction fuel as [|fuel IH]; intros k lineage visited Hvis; rewrite host_walk_unfold;
    cbn [JsNumber.length_lt];
    (rewrite bool_decide_eq_true_2; [|intros H; vm_compute in H; discriminate H]);
    cbn [andb]; [split; reflexivity|].
  destruct (decide _) as [Hin|_].
  { apply Hvis in Hin. rewrite length_endless_id in Hin. lia. }
  cbn [run endless]. cbn [decide_rel]. 
  destruct (decide (Raw.publishedAt
                      (Raw.make (("0x1" +:+ Text.repeat_char "0" k) +:+ "0") "" "" "" "" 1 1)
                    = 0%Z)) as [Hbad|_]; [discriminate Hbad|].
  cbn [Raw.predecessorId].
  change (("0x1" +:+ Text.repeat_char "0" k) +:+ "0")
    with ("0x1" +:+ (Text.repeat_char "0" k +:+ "0")).
  rewrite repeat_char_snoc.
  specialize (IH (S k)
                (lineage ++ [MindstateExplorer.parseCheckpointFromContract
                               ("0x1" +:+ Text.repeat_char "0" k)
                               (Raw.make ("0x1" +:+ Text.repeat_char "0" (S k))
                                  "" "" "" "" 1 1)])
                (visited ∪ {[Text.toLowerCase ("0x1" +:+ Text.repeat_char "0" k)]})).
  destruct IH as [Hout Hlen].
  { intros s Hs. apply elem_of_union in Hs as [Hs|Hs].
    - apply Hvis in Hs. lia.
    - apply elem_of_singleton in Hs. subst s. rewrite length_endless_id. lia. }
  destruct (run endless _ tt) as [[res w2] tr]. unfold outcome, trace in *.
  cbn [fst snd] in *. split; [exact Hout|]. cbn. rewrite Hlen. reflexivity.
Qed.

(** C8, as stated, fails.  With [maxDepth = 1.5] the walk against the
    endless source makes two lookups and returns two records, more than
    [maxDepth]; with [maxDepth = Infinity] it never ends: after any
    number of iterations it has made as many lookups and is still
    running. *)
Lemma getLineage_depth_not_a_bound :
  (let x := run endless
              (Host.getLineage Text.toLowerCase 5 "0xToken" "0x1"
                 (Some (JsNumber.Finite 3 2))) tt in
   lookups (trace x) = ["0x1"; "0x10"]
   /\ (exists lineage, outcome x = Ok (Some lineage) /\ length lineage = 2%nat)
   /\ below (JsNumber.Finite 3 2) 2)
  /\ (forall fuel,
      let x := run endless
                 (Host.getLineage Text.toLowerCase fuel "0xToken" "0x1"
                    (Some JsNumber.PosInfinity)) tt in
      outcome x = Ok None /\ length (trace x) = fuel).
Proof.
  split.
  - cbv zeta. split; [vm_compute; reflexivity|]. split; [|cbn; lia].
    eexists. split; [vm_compute; reflexivity|reflexivity].
  - intros fuel. unfold Host.getLineage. cbn [default].
    apply (endless_walk_runs_on fuel 0 [] ∅).
    intros s Hs. apply elem_of_empty in Hs. contradiction.
Qed.

(** For a natural number as [maxDepth], and with the ASCII lowercasing
    for the host's, the walk of [Host], allowed [maxDepth] iterations or
    more, is the walk [MindstateExplorer.getLineage] defines by recursion
    on the depth left. *)
Lemma host_walk_natural {W : Type} (h : Handler W) (tokenAddress : string) (k : nat) :
  forall (fuel : nat) (currentId : string) (lineage : list CheckpointRecord)
         (visited : gset string) (w : W),
    (k - length lineage <= fuel)%nat ->
    run h (Host.lineage_walk Text.toLowerCase fuel tokenAddress (JsNumber.of_nat k)
             currentId lineage visited) w
    = (ended (outcome (run h (MindstateExplorer.lineage_walk tokenAddress k currentId
                                lineage visited) w)),
       (run h (MindstateExplorer.lineage_walk tokenAddress k currentId lineage visited) w).1.2,
       trace (run h (MindstateExplorer.lineage_walk tokenAddress k currentId
                       lineage visited) w)).
Proof.
  assert (Hcond : forall currentId (lineage : list CheckpointRecord),
    bool_decide (currentId ≠ ZERO_BYTES32)
    && JsNumber.length_lt (length lineage) (JsNumber.of_nat k)
    = bool_decide (currentId ≠ ZERO_BYTES32 ∧ (length lineage < k)%nat)).
  { intros currentId lineage. cbn [JsNumber.length_lt JsNumber.of_nat].
    destruct (decide (currentId ≠ ZERO_BYTES32)) as [Hz|Hz];
      [rewrite (bool_decide_eq_true_2 _ Hz)|rewrite (bool_decide_eq_false_2 _ Hz)];
      cbn [andb].
    - destruct (Z.ltb_spec (Z.of_nat (length lineage) * 1) (Z.of_nat k)).
      + symmetry. apply bool_decide_eq_true_2. split; [exact Hz|lia].
      + symmetry. apply bool_decide_eq_false_2. intros [_ Hlt]. lia.
    - symmetry. apply bool_decide_eq_false_2. intros [H _]. contradiction. }
  induction fuel as [|fuel IH]; intros currentId lineage visited w Hfuel;
    rewrite host_walk_unfold, lineage_walk_unfold, Hcond;
    destruct (decide (currentId ≠ ZERO_BYTES32 ∧ (length lineage < k)%nat)) as [[Hz Hlt]|Hno];
    [rewrite bool_decide_eq_true_2 by (split; assumption)
    |rewrite (bool_decide_eq_false_2 _ Hno)
    |rewrite bool_decide_eq_true_2 by (split; assumption)
    |rewrite (bool_decide_eq_false_2 _ Hno)];
    try reflexivity; [lia|].
  destruct (decide _); [reflexivity|]. cbn [run].
  destruct (h Raw.t (ContractGetCheckpoint tokenAddress currentId) w) as [[cp|e] w1];
    [|reflexivity].
  destruct (decide _); [reflexivity|].
  rewrite IH by (rewrite length_app; cbn [length]; lia).
  destruct (run h (MindstateExplorer.lineage_walk _ _ _ _ _) w1) as [[res w2] tr].
  reflexivity.
Qed.

Lemma host_getLineage_natural {W : Type} (h : Handler W) (w : W)
  (tokenAddress checkpointId : string) (k fuel : nat) :
  (k <= fuel)%nat ->
  run h (Host.getLineage Text.toLowerCase fuel tokenAddress checkpointId
           (Some (JsNumber.of_nat k))) w
  = (ended (outcome (run h (MindstateExplorer.getLineage tokenAddress checkpointId k) w)),
     (run h (MindstateExplorer.getLineage tokenAddress checkpointId k) w).1.2,
     trace (run h (MindstateExplorer.getLineage tokenAddress checkpointId k) w)).
Proof.
  intros Hk. apply host_walk_natural. cbn. lia.
Qed.

(* ===================================================================== *)
(** * Runs on the reference runtime                                        *)
(* ===================================================================== *)

(** The envelope is not delivered yet: [consume] fails before burning
    anything. *)
Example consume_envelope_not_delivered :
  let x := run Mock.handler
             (MindstateClient.consume (rt := Reference.runtime) (MindstateClient.make true)
                "0xToken" "0xcp01" consumer_secret) Mock.empty in
  outcome x = Err EnvelopeNotYetAvailable
  /\ (is_redeem <$> trace x) = [false; false; false]
  /\ Mock.redeemed x.1.2 = false.
Proof. vm_compute. repeat split. Qed.

(** Seal, record, fulfil, consume: the consumer gets the capsule back,
    and the fourth call of [consume], after [getAddress], [hasRedeemed]
    and [fetchEnvelope], is the redemption. *)
Example end_to_end_roundtrip :
  end_to_end = Ok (example_capsule, [false; false; false; true; false; false]).
Proof. vm_compute. reflexivity. Qed.

(* ===================================================================== *)
(** * keyDelivery.ts, commitment.ts: hex strings                           *)
(* ===================================================================== *)

Section HexCodec.
Context `{rt : Runtime}.

Lemma digits_not_prefixed (bytes : list byte) :
  Text.startsWith (Hex.digits bytes) "0x" = false.
Proof.
  destruct bytes as [|b bytes]; [reflexivity|].
  cbn [Hex.digits]. unfold Text.startsWith.
  destruct (of_byte_shape b) as (d1 & d2 & E).
  assert (Hd : d2 <> "x"%char).
  { intros ->. revert E. destruct b; discriminate. }
  rewrite E.
  change (String d1 (String d2 EmptyString) +:+ Hex.digits bytes)
    with (String d1 (String d2 (Hex.digits bytes))).
  cbn [String.prefix].
  destruct (ascii_dec "0" d1); [|reflexivity].
  destruct (ascii_dec "x" d2); [congruence|reflexivity].
Qed.

Lemma length_digits (bytes : list byte) :
  String.length (Hex.digits bytes) = (2 * length bytes)%nat.
Proof.
  induction bytes as [|b bytes IH]; [reflexivity|].
  cbn [Hex.digits]. destruct (of_byte_shape b) as (d1 & d2 & ->).
  change (String d1 (String d2 EmptyString) +:+ Hex.digits bytes)
    with (String d1 (String d2 (Hex.digits bytes))).
  cbn [String.length length]. rewrite IH. lia.
Qed.

Lemma pairs_digits_odd (bytes : list byte) (c : ascii) :
  Hex.pairs (Hex.digits bytes +:+ String c EmptyString) = bytes.
Proof.
  induction bytes as [|b bytes IH]; [reflexivity|].
  cbn [Hex.digits].
  destruct (of_byte_shape b) as (d1 & d2 & E).
  pose proof (parse_of_byte b) as P. rewrite E in *.
  change ((String d1 (String d2 EmptyString) +:+ Hex.digits bytes) +:+ String c EmptyString)
    with (String d1 (String d2 (Hex.digits bytes +:+ String c EmptyString))).
  cbn [Hex.pairs]. rewrite P, IH. reflexivity.
Qed.

Lemma length_pairs (s : string) : length (Hex.pairs s) = (String.length s / 2)%nat.
Proof.
  assert (H : forall n s, (String.length s <= n)%nat ->
                          length (Hex.pairs s) = (String.length s / 2)%nat).
  { clear s. induction n as [|n IH]; intros s Hn.
    - destruct s; [reflexivity|cbn in Hn; lia].
    - destruct s as [|a [|b r]]; [reflexivity|reflexivity|].
      cbn [Hex.pairs length String.length]. rewrite IH by (cbn in Hn; lia).
      change (S (S (String.length r))) with (1 * 2 + String.length r)%nat.
      rewrite Nat.div_add_l by lia. lia. }
  apply (H (String.length s)). lia.
Qed.

(** X1. [toHex] and [fromHex] of keyDelivery.ts are inverse on byte
    arrays: [fromHex (toHex bytes)] is [bytes], with the [0x] prefix or
    without it; [toHex bytes] has two characters per byte after the
    prefix, and different arrays have different hex strings. *)
Theorem hex_roundtrip (bytes : list byte) :
  Hex.fromHex (Hex.toHex bytes) = bytes
  /\ Hex.fromHex (Hex.digits bytes) = bytes
  /\ String.length (Hex.toHex bytes) = (2 + 2 * length bytes)%nat
  /\ (forall bytes', Hex.toHex bytes = Hex.toHex bytes' -> bytes = bytes').
Proof.
  split; [apply fromHex_toHex|]. split; [|split].
  - unfold Hex.fromHex. rewrite digits_not_prefixed. apply pairs_digits.
  - unfold Hex.toHex.
    change ("0x" +:+ Hex.digits bytes) with (String "0" (String "x" (Hex.digits bytes))).
    cbn [String.length]. rewrite length_digits. lia.
  - intros bytes' E. rewrite <- (fromHex_toHex bytes), <- (fromHex_toHex bytes'), E.
    reflexivity.
Qed.

Lemma pair_without_digit (a b : ascii) :
  Hex.digit_value a = None -> Hex.is_space a = false -> a <> "+"%char -> a <> "-"%char ->
  Hex.parseInt16 (String a (String b EmptyString)) = None.
Proof.
  intros Hd Hs Hp Hm.
  destruct a as [[] [] [] [] [] [] [] []];
    vm_compute in Hd, Hs; try discriminate Hd; try discriminate Hs;
    try (exfalso; apply Hp; reflexivity); try (exfalso; apply Hm; reflexivity);
    vm_compute; reflexivity.
Qed.

Lemma digit_not_space (a : ascii) (d : Z) :
  Hex.digit_value a = Some d -> Hex.is_space a = false.
Proof.
  intros H. destruct a as [[] [] [] [] [] [] [] []];
    vm_compute in H |- *; first [reflexivity | discriminate H].
Qed.

Lemma pair_with_one_digit (a b : ascii) (d : Z) :
  Hex.digit_value a = Some d -> Hex.digit_value b = None ->
  Hex.to_uint8 (Hex.parseInt16 (String a (String b EmptyString))) = Hex.to_uint8 (Some d).
Proof.
  intros Ha Hb. unfold Hex.parseInt16. cbn [Hex.skip_spaces].
  rewrite (digit_not_space a d Ha).
  destruct a as [[] [] [] [] [] [] [] []]; try discriminate Ha;
    injection Ha as <-; cbn -[Z.mul Z.add Ascii.eqb]; rewrite ?Hb;
    try reflexivity;
    destruct (Ascii.eqb b "x" || Ascii.eqb b "X"); cbn; rewrite ?Hb; reflexivity.
Qed.

(** X2. [fromHex] validates nothing and never throws; on ASCII input:
    the array has one byte per pair of characters after an optional
    [0x]; the character left over by an odd length is dropped; a pair
    that begins with no hex digit (nor with white space or a sign, which
    [parseInt] skips) is the byte 0; and a digit followed by a character
    that is no digit is the value of that one digit. *)
Theorem fromHex_never_rejects :
  (forall hex : string,
      is_ascii hex = true ->
      length (Hex.fromHex hex)
      = (String.length (if Text.startsWith hex "0x" then Text.slice_from 2 hex else hex) / 2)%nat)
  /\ (forall (bytes : list byte) (c : ascii),
      is_ascii_char c = true ->
      Hex.fromHex (Hex.toHex bytes +:+ String c EmptyString) = bytes)
  /\ (forall (a b : ascii) (rest : string),
      is_ascii (String a (String b rest)) = true ->
      Hex.digit_value a = None -> Hex.is_space a = false ->
      a <> "+"%char -> a <> "-"%char ->
      Hex.pairs (String a (String b rest)) = x00 :: Hex.pairs rest)
  /\ (forall (a b : ascii) (d : Z) (rest : string),
      is_ascii (String a (String b rest)) = true ->
      Hex.digit_value a = Some d -> Hex.digit_value b = None ->
      Hex.pairs (String a (String b rest)) = Hex.to_uint8 (Some d) :: Hex.pairs rest).
Proof.
  split; [|split; [|split]].
  - intros hex _. unfold Hex.fromHex. apply length_pairs.
  - intros bytes c _. unfold Hex.fromHex, Hex.toHex.
    change (("0x" +:+ Hex.digits bytes) +:+ String c EmptyString)
      with (String "0" (String "x" (Hex.digits bytes +:+ String c EmptyString))).
    cbn.
    replace (String.prefix "" (Hex.digits bytes +:+ String c EmptyString)) with true
      by (destruct (Hex.digits bytes +:+ String c EmptyString); reflexivity).
    apply pairs_digits_odd.
  - intros a b rest _ Hd Hs Hp Hm. cbn [Hex.pairs].
    rewrite (pair_without_digit a b Hd Hs Hp Hm). reflexivity.
  - intros a b d rest _ Ha Hb. cbn [Hex.pairs].
    rewrite (pair_with_one_digit a b d Ha Hb). reflexivity.
Qed.

Lemma all_hex_digits_digits (bytes : list byte) :
  all_hex_digits (Hex.digits bytes) = true.
Proof.
  induction bytes as [|b bytes IH]; [reflexivity|].
  cbn [Hex.digits].
  assert (H : forall s, all_hex_digits (Hex.of_byte b +:+ s) = all_hex_digits s).
  { intros s. destruct b; reflexivity. }
  rewrite H. exact IH.
Qed.

(** X3. A commitment has a fixed format: when keccak-256 gives its 32
    bytes, [hashBytes data] is [0x] followed by 64 lowercase hex digits,
    66 characters in all, and [fromHex] reads the digest back from it.
    The sentinel [ZERO_BYTES32] is [toHex] of 32 zero bytes. *)
Theorem hashBytes_format (data : list byte) :
  length (keccak_256 data) = 32%nat ->
  String.length (hashBytes data) = 66%nat
  /\ Text.startsWith (hashBytes data) "0x" = true
  /\ all_hex_digits (Text.slice_from 2 (hashBytes data)) = true
  /\ Text.toLowerCase (hashBytes data) = hashBytes data
  /\ Hex.fromHex (hashBytes data) = keccak_256 data
  /\ ZERO_BYTES32 = Hex.toHex (List.repeat x00 32).
Proof.
  intros Hlen. unfold hashBytes. split_and!.
  - unfold Hex.toHex.
    change ("0x" +:+ Hex.digits (keccak_256 data))
      with (String "0" (String "x" (Hex.digits (keccak_256 data)))).
    cbn [String.length]. rewrite length_digits, Hlen. reflexivity.
  - apply toHex_0x.
  - unfold Hex.toHex.
    change ("0x" +:+ Hex.digits (keccak_256 data))
      with (String "0" (String "x" (Hex.digits (keccak_256 data)))).
    cbn [Text.slice_from]. apply all_hex_digits_digits.
  - apply toHex_lower.
  - apply fromHex_toHex.
  - reflexivity.
Qed.

End HexCodec.

Lemma hashBytes_format_witness :
  length (@keccak_256 Reference.runtime [x01; x02]) = 32%nat
  /\ String.length (hashBytes (rt := Reference.runtime) [x01; x02]) = 66%nat.
Proof.
  split; [reflexivity|].
  apply (hashBytes_format (rt := Reference.runtime) [x01; x02]). reflexivity.
Defined.

(* ===================================================================== *)
(** * keyDelivery.ts: the envelope identifier                              *)
(* ===================================================================== *)

Section EnvelopeId.
Context `{rt : Runtime}.
Variable toLowerCase : string -> string.

Lemma lower_hex_digits_digits (bytes : list byte) :
  lower_hex_digits (Hex.digits bytes) = true.
Proof.
  induction bytes as [|b bytes IH]; [reflexivity|].
  cbn [Hex.digits].
  assert (H : forall s, lower_hex_digits (Hex.of_byte b +:+ s) = lower_hex_digits s).
  { intros s. destruct b; reflexivity. }
  rewrite H. exact IH.
Qed.

(** C6. [computeEnvelopeId] renders the keccak-256 digest of the UTF-8
    bytes of the three lowercased arguments joined by colons: its result
    starts with [0x], [fromHex] reads the digest back from it, and when
    the digest has its 32 bytes the result is [0x] followed by 64
    lowercase hex digits.  It depends on each argument only through what
    [toLowerCase] makes of it, so it is invariant under a change of
    letter case.  This holds whatever the host's [toLowerCase] does to a
    string. *)
Theorem computeEnvelopeId_spec (tokenAddress checkpointId consumerAddress : string) :
  let input :=
    toLowerCase tokenAddress +:+ ":" +:+ toLowerCase checkpointId +:+ ":" +:+
    toLowerCase consumerAddress in
  let id := Host.computeEnvelopeId toLowerCase tokenAddress checkpointId consumerAddress in
  (length (keccak_256 (Text.encode input)) = 32%nat ->
   String.length id = 66%nat
   /\ lower_hex_digits (Text.slice_from 2 id) = true)
  /\ Text.startsWith id "0x" = true
  /\ Hex.fromHex id = keccak_256 (Text.encode input)
  /\ (forall tokenAddress' checkpointId' consumerAddress',
      toLowerCase tokenAddress' = toLowerCase tokenAddress ->
      toLowerCase checkpointId' = toLowerCase checkpointId ->
      toLowerCase consumerAddress' = toLowerCase consumerAddress ->
      Host.computeEnvelopeId toLowerCase tokenAddress' checkpointId' consumerAddress' = id).
Proof.
  intros input id. subst id. unfold Host.computeEnvelopeId. fold input. split_and!.
  - intros Hlen. unfold Hex.toHex.
    change ("0x" +:+ Hex.digits (keccak_256 (Text.encode input)))
      with (String "0" (String "x" (Hex.digits (keccak_256 (Text.encode input))))).
    cbn [String.length Text.slice_from]. rewrite length_digits, Hlen.
    split; [reflexivity|apply lower_hex_digits_digits].
  - apply toHex_0x.
  - apply fromHex_toHex.
  - intros t' c' a' Ht Hc Ha. subst input. rewrite Ht, Hc, Ha. reflexivity.
Qed.

End EnvelopeId.

Lemma host_computeEnvelopeId_ascii `{rt : Runtime}
  (tokenAddress checkpointId consumerAddress : string) :
  Host.computeEnvelopeId Text.toLowerCase tokenAddress checkpointId consumerAddress
  = computeEnvelopeId tokenAddress checkpointId consumerAddress.
Proof. reflexivity. Qed.

Lemma computeEnvelopeId_spec_witness :
  length (@keccak_256 Reference.runtime (Text.encode "0xabc:0xdef:0x123")) = 32%nat
  /\ String.length
       (Host.computeEnvelopeId (rt := Reference.runtime) Text.toLowerCase
          "0xABC" "0xDEF" "0x123") = 66%nat.
Proof.
  split; [reflexivity|].
  apply (computeEnvelopeId_spec (rt := Reference.runtime) Text.toLowerCase
           "0xABC" "0xDEF" "0x123").
  reflexivity.
Defined.

Example computeEnvelopeId_case :
  computeEnvelopeId (rt := Reference.runtime) "0xABC" "0xDEF" "0x123"
  = computeEnvelopeId (rt := Reference.runtime) "0xabc" "0xdef" "0x123".
Proof. vm_compute. reflexivity. Qed.

(* ===================================================================== *)
(** * encryption.ts: round trips                                           *)
(* ===================================================================== *)

Section EncryptionRoundTrips.
Context `{rt : Runtime}.

(** X4. With a 32-byte key, and AES-256-GCM doing its part, [encrypt]
    returns the 12 random nonce bytes, the ciphertext and the 16-byte
    tag, in this order, and [decrypt] with the same key gives the
    plaintext back.  Two encryptions whose nonces differ give different
    outputs. *)
Theorem encrypt_decrypt_roundtrip (plaintext key : list byte) (ent : Entropy) :
  AES_GCM_correct -> length key = 32%nat ->
  exists sealed ent',
    encrypt plaintext key ent = Ok (sealed, ent')
    /\ decrypt sealed key = Ok plaintext
    /\ take 12 sealed = (randomBytes 12 ent).1
    /\ length sealed
       = (12 + length (aes_256_gcm_encrypt key (randomBytes 12 ent).1 plaintext).1 + 16)%nat
    /\ ent' = (randomBytes 12 ent).2
    /\ (forall ent2 sealed2 ent2',
        encrypt plaintext key ent2 = Ok (sealed2, ent2') ->
        (randomBytes 12 ent).1 <> (randomBytes 12 ent2).1 ->
        sealed <> sealed2).
Proof.
  intros Hgcm Hk.
  destruct (decrypt_encrypt plaintext key ent Hgcm Hk) as (sealed & ent' & Henc & Hdec).
  exists sealed, ent'. split; [exact Henc|]. split; [exact Hdec|].
  pose proof (encrypt_layout plaintext key ent Hgcm Hk) as Hlay. cbv zeta in Hlay.
  rewrite Henc in Hlay. unfold IV_LENGTH in Hlay.
  pose proof (randomBytes_length 12 ent) as Hiv.
  destruct (Hgcm key (randomBytes 12 ent).1 plaintext Hk Hiv) as [Htag _].
  set (iv := (randomBytes 12 ent).1) in *.
  set (out := aes_256_gcm_encrypt key iv plaintext) in *.
  assert (Es : sealed = iv ++ out.1 ++ out.2) by congruence.
  assert (Ee : ent' = (randomBytes 12 ent).2) by congruence.
  clear Hlay. rewrite Es. split_and!.
  - rewrite <- Hiv at 1. apply take_app_length.
  - rewrite !length_app, Hiv, Htag. lia.
  - exact Ee.
  - intros ent2 sealed2 ent2' Henc2 Hne E. apply Hne.
    pose proof (encrypt_layout plaintext key ent2 Hgcm Hk) as Hlay2. cbv zeta in Hlay2.
    rewrite Henc2 in Hlay2. unfold IV_LENGTH in Hlay2.
    pose proof (randomBytes_length 12 ent2) as Hiv2.
    set (iv2 := (randomBytes 12 ent2).1) in *.
    assert (Es2 : sealed2 = iv2 ++ (aes_256_gcm_encrypt key iv2 plaintext).1
                              ++ (aes_256_gcm_encrypt key iv2 plaintext).2) by congruence.
    rewrite Es2 in E. apply (f_equal (take 12)) in E.
    rewrite <- Hiv in E at 1. rewrite take_app_length in E.
    rewrite <- Hiv2 in E at 1. rewrite take_app_length in E. exact E.
Qed.

(** X5. Key wrapping round trip: when tweetnacl's box does its part,
    [wrapKey] for a recipient's public key succeeds, the envelope names
    the sender's public key and a 24-byte nonce, and [unwrapKey] with the
    recipient's secret key gives the content key back; the helpers
    [wrapKeyForRecipient] and [unwrapKeyFromEnvelope] of sealed.ts do the
    same. *)
Theorem wrap_unwrap_roundtrip
  (contentKey senderSecretKey recipientSecretKey senderPublicKey recipientPublicKey : list byte)
  (ent : Entropy) :
  NaCl_box_correct ->
  nacl_box_keyPair_fromSecretKey senderSecretKey = Returns senderPublicKey ->
  nacl_box_keyPair_fromSecretKey recipientSecretKey = Returns recipientPublicKey ->
  exists envelope ent',
    wrapKey contentKey recipientPublicKey senderSecretKey ent = Ok (envelope, ent')
    /\ wrapKeyForRecipient contentKey recipientPublicKey senderSecretKey ent
       = Ok (envelope, ent')
    /\ Envelope.senderPublicKey envelope = senderPublicKey
    /\ length (Envelope.nonce envelope) = 24%nat
    /\ unwrapKey envelope recipientSecretKey = Ok contentKey
    /\ unwrapKeyFromEnvelope envelope recipientSecretKey = Ok contentKey.
Proof.
  intros Hbox Hs Hr.
  pose proof (randomBytes_length nacl_box_nonceLength ent) as Hn.
  unfold wrapKeyForRecipient, unwrapKeyFromEnvelope, wrapKey, unwrapKey.
  destruct (randomBytes nacl_box_nonceLength ent) as [nonce ent1]. cbn [fst] in Hn.
  destruct (Hbox contentKey nonce senderSecretKey recipientSecretKey
              senderPublicKey recipientPublicKey Hn Hs Hr) as (boxed & Hb & Ho).
  rewrite Hs, Hb. cbn. eexists _, _. split; [reflexivity|]. split; [reflexivity|].
  cbn. rewrite Ho. cbn. repeat split. exact Hn.
Qed.

End EncryptionRoundTrips.

Lemma reference_box_correct : NaCl_box_correct (rt := Reference.runtime).
Proof.
  intros msg nonce sks skr pks pkr Hn Hs Hr.
  change (@nacl_box_keyPair_fromSecretKey Reference.runtime)
    with Reference.box_keyPair_fromSecretKey in *.
  change (@nacl_box Reference.runtime) with Reference.box.
  change (@nacl_box_open Reference.runtime) with Reference.box_open.
  unfold Reference.box_keyPair_fromSecretKey in *.
  destruct (decide (length sks = 32%nat)) as [Ls|]; [|discriminate].
  destruct (decide (length skr = 32%nat)) as [Lr|]; [|discriminate].
  injection Hs as <-. injection Hr as <-.
  exists (List.repeat x00 16 ++ msg). unfold Reference.box, Reference.box_open.
  rewrite !length_rev.
  destruct (decide (length skr = 32%nat ∧ length sks = 32%nat)) as [_|H]; [|tauto].
  destruct (decide (length sks = 32%nat ∧ length skr = 32%nat)) as [_|H]; [|tauto].
  destruct (decide (length nonce = 24%nat)) as [_|H]; [|contradiction].
  split; [reflexivity|].
  destruct (decide _) as [_|H]; [reflexivity|contradiction H; reflexivity].
Qed.

Lemma encrypt_decrypt_roundtrip_witness :
  AES_GCM_correct (rt := Reference.runtime)
  /\ length publisher_secret = 32%nat
  /\ exists sealed ent',
       encrypt (rt := Reference.runtime) [x68; x69] publisher_secret counting
       = Ok (sealed, ent')
       /\ decrypt (rt := Reference.runtime) sealed publisher_secret = Ok [x68; x69].
Proof.
  split; [exact reference_gcm_correct|]. split; [reflexivity|].
  destruct (encrypt_decrypt_roundtrip (rt := Reference.runtime) [x68; x69] publisher_secret
              counting reference_gcm_correct eq_refl)
    as (sealed & ent' & Henc & Hdec & _).
  exists sealed, ent'. split; assumption.
Defined.

Lemma wrap_unwrap_roundtrip_witness :
  NaCl_box_correct (rt := Reference.runtime)
  /\ nacl_box_keyPair_fromSecretKey (Runtime := Reference.runtime) publisher_secret
     = Returns (rev publisher_secret)
  /\ nacl_box_keyPair_fromSecretKey (Runtime := Reference.runtime) consumer_secret
     = Returns consumer_public
  /\ exists envelope ent',
       wrapKey (rt := Reference.runtime) (List.repeat x07 32) consumer_public
         publisher_secret counting = Ok (envelope, ent')
       /\ unwrapKey (rt := Reference.runtime) envelope consumer_secret
          = Ok (List.repeat x07 32).
Proof.
  split; [exact reference_box_correct|]. split; [reflexivity|]. split; [reflexivity|].
  destruct (wrap_unwrap_roundtrip (rt := Reference.runtime) (List.repeat x07 32)
              publisher_secret consumer_secret (rev publisher_secret) consumer_public
              counting reference_box_correct eq_refl eq_refl)
    as (envelope & ent' & Hw & _ & _ & _ & Hu & _).
  exists envelope, ent'. split; assumption.
Defined.

(* ===================================================================== *)
(** * capsule.ts: validation, serialization and construction               *)
(* ===================================================================== *)

Section CapsuleFacts.
Context `{rt : Runtime}.

Lemma length_zero_iff (s : string) : (String.length s =? 0)%nat = true <-> s = "".
Proof. destruct s; cbn; split; congruence. Qed.

Lemma assertValidCapsule_valid (capsule : JsValue) :
  assertValidCapsule capsule = Ok tt <->
  exists props version payload,
    capsule = JObject props
    /\ props !! "version" = Some (JString version) /\ version <> ""
    /\ props !! "payload" = Some (JObject payload).
Proof.
  split.
  - destruct capsule as [| | | | |items|props|]; try discriminate.
    unfold assertValidCapsule. cbn [Js.is_null Js.is_object_type Js.typeof orb negb Js.get].
    destruct (props !! "version") as [[| | | |version| | |]|] eqn:Hv; cbn; try discriminate.
    destruct (String.length version =? 0)%nat eqn:Hl; [discriminate|].
    destruct (props !! "payload") as [[| | | | | |payload|]|] eqn:Hp; cbn; try discriminate.
    intros _. exists props, version, payload.
    split; [reflexivity|]. split; [exact Hv|]. split; [|exact Hp].
    intros ->. discriminate Hl.
  - intros (props & version & payload & -> & Hv & Hne & Hp).
    unfold assertValidCapsule. cbn [Js.is_null Js.is_object_type Js.typeof orb negb Js.get].
    rewrite Hv, Hp. cbn.
    destruct (String.length version =? 0)%nat eqn:Hl; [|reflexivity].
    apply length_zero_iff in Hl. contradiction.
Qed.

(** X6. [assertValidCapsule] accepts exactly the plain objects with a
    non-empty string [version] and a plain-object [payload].  A value
    that is no object is refused with the not-an-object error, an array
    with the version error.  [serializeCapsule] gives bytes only for a
    valid capsule, and a validation error comes before anything
    [canonicalize] would report: it is also the error of
    [serializeCapsule] and of [computeStateCommitment]. *)
Theorem assertValidCapsule_characterised (capsule : JsValue) :
  (assertValidCapsule capsule = Ok tt <->
   exists props version payload,
     capsule = JObject props
     /\ props !! "version" = Some (JString version) /\ version <> ""
     /\ props !! "payload" = Some (JObject payload))
  /\ (assertValidCapsule capsule = Err CapsuleNotObject <->
      (forall props, capsule <> JObject props) /\ (forall items, capsule <> JArray items))
  /\ (forall items, assertValidCapsule (JArray items) = Err CapsuleVersionInvalid)
  /\ (forall bytes, serializeCapsule capsule = Ok bytes ->
      assertValidCapsule capsule = Ok tt /\ canonicalBytes capsule = Ok bytes)
  /\ (forall e, assertValidCapsule capsule = Err e ->
      serializeCapsule capsule = Err e /\ computeStateCommitment capsule = Err e).
Proof.
  split; [apply assertValidCapsule_valid|]. split; [|split; [|split]].
  - split.
    + intros H. split; [intros props ->|intros items ->]; revert H;
        unfold assertValidCapsule;
        cbn [Js.is_null Js.is_object_type Js.typeof orb negb Js.get].
      * destruct (match default JUndefined (props !! "version") with
                  | JString s => (String.length s =? 0)%nat | _ => true end);
          [discriminate|].
        destruct (_ || _); discriminate.
      * discriminate.
    + intros [Ho Ha]. destruct capsule; try reflexivity.
      * exfalso. eapply Ha. reflexivity.
      * exfalso. eapply Ho. reflexivity.
  - reflexivity.
  - intros bytes. unfold serializeCapsule.
    destruct (assertValidCapsule capsule) as [[]|e]; cbn; [|discriminate].
    intros H. split; [reflexivity|exact H].
  - intros e He. unfold computeStateCommitment, serializeCapsule. rewrite He.
    split; reflexivity.
Qed.

(** X7. Serialization round trip: for a valid capsule that [JSON.parse]
    reads back from its canonical text, [deserializeCapsule] of
    [serializeCapsule]'s bytes is the capsule, the state commitment is
    the digest of those bytes, and [verifyStateCommitment] accepts it. *)
Theorem capsule_roundtrip (capsule : Capsule) :
  assertValidCapsule capsule = Ok tt ->
  JSON_representable capsule ->
  exists bytes,
    serializeCapsule capsule = Ok bytes
    /\ deserializeCapsule bytes = Ok capsule
    /\ computeStateCommitment capsule = Ok (hashBytes bytes)
    /\ verifyStateCommitment capsule (hashBytes bytes) = Ok true.
Proof.
  intros Hvalid (text & Hcanon & Hparse). exists (Text.encode text).
  assert (Hser : serializeCapsule capsule = Ok (Text.encode text)).
  { unfold serializeCapsule, canonicalBytes. rewrite Hvalid, Hcanon. reflexivity. }
  split; [exact Hser|]. split; [|split].
  - unfold deserializeCapsule. rewrite decode_encode, Hparse, Hvalid. reflexivity.
  - unfold computeStateCommitment. rewrite Hser. reflexivity.
  - unfold verifyStateCommitment, computeStateCommitment. rewrite Hser. cbn.
    destruct (decide (_ ≠ _)) as [Hne|_]; [contradiction Hne; reflexivity|reflexivity].
Qed.

(** X8. For input bytes that are ASCII, [deserializeCapsule] never
    returns an invalid capsule: a result is what [JSON.parse] read and it
    passes [assertValidCapsule].  The parse error is reported exactly
    when [JSON.parse] throws, with its message; a document that parses
    but is no valid capsule gets the validation error. *)
Theorem deserializeCapsule_validates (bytes : list byte) :
  ascii_bytes bytes = true ->
  (forall capsule,
      deserializeCapsule bytes = Ok capsule <->
      JSON_parse (Text.decode bytes) = Returns capsule
      /\ assertValidCapsule capsule = Ok tt)
  /\ (forall msg,
      deserializeCapsule bytes = Err (CapsuleParseFailed msg) <->
      JSON_parse (Text.decode bytes) = Throws msg)
  /\ (forall parsed e,
      JSON_parse (Text.decode bytes) = Returns parsed ->
      assertValidCapsule parsed = Err e ->
      deserializeCapsule bytes = Err e).
Proof.
  intros _. unfold deserializeCapsule.
  destruct (JSON_parse (Text.decode bytes)) as [parsed|msg']; split_and!.
  - intros capsule. destruct (assertValidCapsule parsed) as [[]|e] eqn:Hv; cbn.
    + split.
      * intros [= <-]. split; [reflexivity|exact Hv].
      * intros [[= <-] _]. reflexivity.
    + split; [discriminate|]. intros [[= <-] H]. congruence.
  - intros msg. split; [|discriminate].
    destruct (assertValidCapsule parsed) as [[]|e] eqn:Hv; cbn; [discriminate|].
    intros [= ->]. exfalso. revert Hv. unfold assertValidCapsule.
    destruct (_ || _); [discriminate|].
    destruct (match Js.get parsed "version" with
              | JString s => (String.length s =? 0)%nat | _ => true end); [discriminate|].
    destruct (_ || _); discriminate.
  - intros p e [= <-] He. rewrite He. reflexivity.
  - intros capsule. split; [discriminate|]. intros [H _]. discriminate H.
  - intros msg. split; congruence.
  - intros p e H. discriminate H.
Qed.

Lemma createCapsule_object (props : gmap string JsValue) (options : option CapsuleOptions.t) :
  createCapsule (JObject props) options =
    Ok (JObject
          (match options ≫= CapsuleOptions.schema with
           | Some schema =>
               if String.eqb schema "" then
                 list_to_map [ ("version", JString (default "1.0.0"
                                                      (options ≫= CapsuleOptions.version)));
                               ("payload", JObject props) ]
               else
                 <["schema" := JString schema]>
                   (list_to_map [ ("version", JString (default "1.0.0"
                                                         (options ≫= CapsuleOptions.version)));
                                  ("payload", JObject props) ])
           | None =>
               list_to_map [ ("version", JString (default "1.0.0"
                                                    (options ≫= CapsuleOptions.version)));
                             ("payload", JObject props) ]
           end)).
Proof.
  unfold createCapsule. cbn [Js.truthy Js.is_object_type Js.typeof Js.isArray negb orb].
  destruct (options ≫= CapsuleOptions.schema) as [schema|]; [|reflexivity].
  destruct (String.eqb schema ""); reflexivity.
Qed.

Lemma createCapsule_cases (payload : JsValue) (options : option CapsuleOptions.t) :
  ((forall props, payload <> JObject props)
   /\ createCapsule payload options = Err PayloadNotObject)
  \/ exists props, payload = JObject props.
Proof.
  destruct payload as [| |b|n|s|items|props|]; try (left; split; [discriminate|]);
    try (right; eexists; reflexivity); unfold createCapsule; cbn.
  - reflexivity.
  - reflexivity.
  - destruct b; reflexivity.
  - destruct (n =? 0)%Z; reflexivity.
  - destruct (String.eqb s ""); reflexivity.
  - reflexivity.
  - reflexivity.
Qed.

(** X9. [createCapsule] accepts exactly the plain-object payloads; any
    other payload is refused.  The capsule it returns holds the payload
    as given, the version given or ["1.0.0"], and the schema when one is
    given and not empty.  It is a valid capsule unless the caller passed
    the empty string as version: that capsule is returned all the same,
    and [serializeCapsule] rejects it. *)
Theorem createCapsule_spec (payload : JsValue) (options : option CapsuleOptions.t) :
  ((exists capsule, createCapsule payload options = Ok capsule) <->
   exists props, payload = JObject props)
  /\ ((forall props, payload <> JObject props) ->
      createCapsule payload options = Err PayloadNotObject)
  /\ (forall capsule,
      createCapsule payload options = Ok capsule ->
      Js.get capsule "payload" = payload
      /\ Js.get capsule "version"
         = JString (default "1.0.0" (options ≫= CapsuleOptions.version))
      /\ Js.get capsule "schema"
         = match options ≫= CapsuleOptions.schema with
           | Some schema => if String.eqb schema "" then JUndefined else JString schema
           | None => JUndefined
           end
      /\ (assertValidCapsule capsule = Ok tt <->
          options ≫= CapsuleOptions.version <> Some "")
      /\ (options ≫= CapsuleOptions.version = Some "" ->
          serializeCapsule capsule = Err CapsuleVersionInvalid)).
Proof.
  destruct (createCapsule_cases payload options) as [(Hno & Herr)|[props ->]].
  { rewrite Herr. split_and!.
    - split; [intros [c Hc]; discriminate Hc|intros [props ->]; exfalso; eapply Hno; reflexivity].
    - reflexivity.
    - intros c Hc. discriminate Hc. }
  rewrite createCapsule_object. split_and!.
  - split; eauto.
  - intros H. exfalso. eapply H. reflexivity.
  - intros capsule [= <-].
    set (version := default "1.0.0" (options ≫= CapsuleOptions.version)).
    assert (Hver : version = "" <-> options ≫= CapsuleOptions.version = Some "").
    { subst version. destruct (options ≫= CapsuleOptions.version) as [v|]; cbn.
      - split; congruence.
      - split; discriminate. }
    assert (Hget : forall m : gmap string JsValue,
               m = list_to_map [ ("version", JString version); ("payload", JObject props) ]
               \/ (exists schema, m = <["schema" := JString schema]>
                     (list_to_map [ ("version", JString version);
                                    ("payload", JObject props) ])) ->
               m !! "version" = Some (JString version)
               /\ m !! "payload" = Some (JObject props)).
    { intros m [->|[schema ->]]; split; reflexivity. }
    destruct (options ≫= CapsuleOptions.schema) as [schema|] eqn:Hs;
      [destruct (String.eqb schema "") eqn:Hse|];
      (match goal with
       | |- Js.get (JObject ?m) _ = _ /\ _ =>
           destruct (Hget m) as [Hv Hp]; [solve [left; reflexivity | right; eauto]|]
       end);
      (split; [cbn [Js.get]; rewrite Hp; reflexivity|]);
      (split; [cbn [Js.get]; rewrite Hv; reflexivity|]);
      (split; [reflexivity|]);
      (split;
       [ rewrite assertValidCapsule_valid; split;
         [ intros (props' & v & p & [= <-] & Hv' & Hne & _) Hbad;
           rewrite Hv in Hv'; injection Hv' as <-; apply Hne, Hver, Hbad
         | intros Hok; eexists _, version, props; split; [reflexivity|];
           split; [exact Hv|]; split; [|exact Hp];
           intros Hbad; apply Hok, Hver, Hbad ]
       | intros Hbad; apply Hver in Hbad; unfold serializeCapsule, assertValidCapsule;
         cbn [Js.is_null Js.is_object_type Js.typeof orb negb Js.get];
         rewrite Hv; cbn [default]; rewrite Hbad; reflexivity ]).
Qed.

(** X10. [createAgentCapsule] requires an identity kernel with a truthy
    [id], then an execution manifest with a truthy [modelId], and reports
    the first that is missing.  Whenever it returns, the capsule is valid
    for [serializeCapsule]'s check, has version ["1.0.0"] and schema
    ["agent/v1"], and its payload holds the kernel and the manifest as
    given and the memory index given or, when that is absent or [null],
    an empty one. *)
Theorem createAgentCapsule_spec (identityKernel executionManifest memoryIndex : JsValue) :
  (Js.truthy identityKernel && Js.truthy (Js.get identityKernel "id") = false ->
   createAgentCapsule identityKernel executionManifest memoryIndex
   = Err IdentityKernelRequired)
  /\ (Js.truthy identityKernel && Js.truthy (Js.get identityKernel "id") = true ->
      Js.truthy executionManifest && Js.truthy (Js.get executionManifest "modelId") = false ->
      createAgentCapsule identityKernel executionManifest memoryIndex
      = Err ExecutionManifestRequired)
  /\ (Js.truthy identityKernel && Js.truthy (Js.get identityKernel "id") = true ->
      Js.truthy executionManifest && Js.truthy (Js.get executionManifest "modelId") = true ->
      exists capsule,
        createAgentCapsule identityKernel executionManifest memoryIndex = Ok capsule)
  /\ (forall capsule,
      createAgentCapsule identityKernel executionManifest memoryIndex = Ok capsule ->
      assertValidCapsule capsule = Ok tt
      /\ Js.get capsule "version" = JString "1.0.0"
      /\ Js.get capsule "schema" = JString "agent/v1"
      /\ Js.get (Js.get capsule "payload") "identityKernel" = identityKernel
      /\ Js.get (Js.get capsule "payload") "executionManifest" = executionManifest
      /\ Js.get (Js.get capsule "payload") "memoryIndex"
         = if Js.is_null memoryIndex || Js.is_undefined memoryIndex then
             JObject (list_to_map [ ("version", JString "1.0.0"); ("segments", JArray []) ])
           else memoryIndex).
Proof.
  unfold createAgentCapsule.
  destruct (Js.truthy identityKernel) eqn:Hi; cbn [negb orb andb];
    [destruct (Js.truthy (Js.get identityKernel "id")) eqn:Hid; cbn [negb orb andb]|];
    [destruct (Js.truthy executionManifest) eqn:Hm; cbn [negb orb andb];
       [destruct (Js.truthy (Js.get executionManifest "modelId")) eqn:Hmid;
          cbn [negb orb andb]|]| |];
    split_and!; try discriminate; try reflexivity; try (intros; reflexivity);
    try (intros; discriminate); try (intros; eexists; reflexivity).
  intros capsule [= <-]. split_and!; reflexivity.
Qed.

(** X11. [serializeManifest] requires [modelId] to be a non-empty string
    and refuses any other manifest that is not [null] or [undefined] with
    the modelId-required error; for a manifest it accepts it gives the
    canonical bytes of the whole manifest, the bytes
    [computeMetadataHash] hashes. *)
Theorem serializeManifest_spec (manifest : JsValue) :
  (forall bytes,
      serializeManifest manifest = Ok bytes ->
      (exists modelId, Js.get manifest "modelId" = JString modelId /\ modelId <> "")
      /\ serializeCanonical manifest = Ok bytes
      /\ computeMetadataHash manifest = Ok (hashBytes bytes))
  /\ (forall modelId,
      Js.get manifest "modelId" = JString modelId -> modelId <> "" ->
      serializeManifest manifest = serializeCanonical manifest)
  /\ (manifest <> JNull -> manifest <> JUndefined ->
      (forall modelId, Js.get manifest "modelId" = JString modelId -> modelId = "") ->
      serializeManifest manifest = Err ManifestModelIdRequired).
Proof.
  unfold serializeManifest, serializeCanonical, computeMetadataHash, serializeCanonical.
  split_and!.
  - intros bytes.
    destruct (Js.is_null manifest || Js.is_undefined manifest); [discriminate|].
    destruct (Js.get manifest "modelId") as [| | | |modelId| | |] eqn:Hg; cbn;
      try discriminate; try (destruct b; discriminate);
      try (destruct (negb _); discriminate).
    destruct (String.eqb_spec modelId ""); cbn; [discriminate|].
    intros H. split; [eauto|]. split; [exact H|]. rewrite H. reflexivity.
  - intros modelId Hg Hne.
    destruct manifest; try discriminate Hg. cbn [Js.is_null Js.is_undefined orb].
    rewrite Hg. cbn. destruct (String.eqb_spec modelId ""); [contradiction|reflexivity].
  - intros Hn Hu Hbad.
    destruct manifest; try contradiction; cbn [Js.is_null Js.is_undefined orb];
      try reflexivity.
    destruct (Js.get (JObject props) "modelId") as [| | | |modelId| | |] eqn:Hg;
      cbn; try reflexivity; try (destruct b; reflexivity);
      try (destruct (negb _); reflexivity).
    rewrite (Hbad modelId eq_refl). reflexivity.
Qed.

End CapsuleFacts.

Lemma capsule_roundtrip_witness :
  assertValidCapsule example_capsule = Ok tt
  /\ JSON_representable (rt := Reference.runtime) example_capsule
  /\ exists bytes,
       serializeCapsule (rt := Reference.runtime) example_capsule = Ok bytes
       /\ deserializeCapsule (rt := Reference.runtime) bytes = Ok example_capsule.
Proof.
  split; [vm_compute; reflexivity|]. split; [exact example_capsule_representable|].
  destruct (capsule_roundtrip (rt := Reference.runtime) example_capsule)
    as (bytes & Hs & Hd & _).
  - vm_compute. reflexivity.
  - exact example_capsule_representable.
  - exists bytes. split; assumption.
Defined.

Lemma deserializeCapsule_validates_witness :
  let bytes := Text.encode (Reference.canonical example_capsule) in
  ascii_bytes bytes = true
  /\ deserializeCapsule (rt := Reference.runtime) bytes = Ok example_capsule.
Proof.
  intros bytes.
  assert (Ha : ascii_bytes bytes = true) by (vm_compute; reflexivity).
  split; [exact Ha|].
  destruct (deserializeCapsule_validates (rt := Reference.runtime) bytes Ha) as (H & _).
  apply H. split; vm_compute; reflexivity.
Defined.

(* ===================================================================== *)
(** * sealed.ts, verify.ts: what sealing commits to and what is checked    *)
(* ===================================================================== *)

Section SealingFacts.
Context `{rt : Runtime}.

Lemma falsy_values (v : JsValue) :
  Js.truthy v = false <->
  v = JUndefined \/ v = JNull \/ v = JBool false \/ v = JNumber 0 \/ v = JString "".
Proof.
  split.
  - destruct v as [| |b|n|s| | |]; cbn; try discriminate; eauto.
    + destruct b; [discriminate|eauto].
    + destruct (Z.eqb_spec n 0); [subst; eauto 6|discriminate].
    + destruct (String.eqb_spec s ""); [subst; eauto 6|discriminate].
  - intros [->|[->|[->|[->| ->]]]]; reflexivity.
Qed.

(** X12. What a sealed capsule holds, whenever [seal] returns one: the
    capsule was valid; the state commitment is the one
    [computeStateCommitment] gives; the content hash is the digest of the
    ciphertext, so [verifyCiphertextHash] accepts it; the key is the 32
    random bytes drawn first and the ciphertext is [encrypt] of the
    canonical bytes under it; and the metadata hash is the digest of the
    metadata when that is truthy and the zero sentinel when it is falsy,
    so [undefined], [null], [false], [0] and the empty string all count
    as no metadata. *)
Theorem seal_commitments (capsule : Capsule) (metadata : JsValue) (ent : Entropy)
  (sealed : SealedCapsule) (ent' : Entropy) :
  seal capsule metadata ent = Ok (sealed, ent') ->
  assertValidCapsule capsule = Ok tt
  /\ computeStateCommitment capsule = Ok (Sealed.stateCommitment sealed)
  /\ Sealed.contentHash sealed = hashBytes (Sealed.ciphertext sealed)
  /\ verifyCiphertextHash (Sealed.ciphertext sealed) (Sealed.contentHash sealed) = Ok true
  /\ Sealed.encryptionKey sealed = (randomBytes 32 ent).1
  /\ length (Sealed.encryptionKey sealed) = 32%nat
  /\ (exists plaintext,
        serializeCapsule capsule = Ok plaintext
        /\ encrypt plaintext (Sealed.encryptionKey sealed) (randomBytes 32 ent).2
           = Ok (Sealed.ciphertext sealed, ent'))
  /\ (Js.truthy metadata = true ->
      computeMetadataHash metadata = Ok (Sealed.metadataHash sealed))
  /\ (metadata = JUndefined \/ metadata = JNull \/ metadata = JBool false
      \/ metadata = JNumber 0 \/ metadata = JString "" ->
      Sealed.metadataHash sealed = ZERO_BYTES32).
Proof.
  unfold seal, generateContentKey, KEY_LENGTH.
  destruct (serializeCapsule capsule) as [plaintext|e] eqn:Hser; cbn [mbind result_bind];
    [|discriminate].
  destruct (computeStateCommitment capsule) as [commitment|e] eqn:Hc;
    cbn [mbind result_bind]; [|discriminate].
  destruct (if Js.truthy metadata then computeMetadataHash metadata
            else Ok ("0x" +:+ Text.repeat_char "0" 64)) as [metadataHash|e] eqn:Hm;
    cbn [mbind result_bind]; [|discriminate].
  pose proof (randomBytes_length 32 ent) as Hlen.
  destruct (randomBytes 32 ent) as [key ent1]. cbn [fst snd] in *.
  destruct (encrypt plaintext key ent1) as [[ciphertext ent2]|e] eqn:He;
    cbn [mbind result_bind]; [|discriminate].
  intros [= <- <-]. cbn [Sealed.stateCommitment Sealed.contentHash Sealed.ciphertext
                        Sealed.encryptionKey Sealed.metadataHash].
  split_and!.
  - revert Hser. unfold serializeCapsule.
    destruct (assertValidCapsule capsule) as [[]|e]; [reflexivity|discriminate].
  - reflexivity.
  - reflexivity.
  - unfold verifyCiphertextHash, computeCiphertextHash.
    destruct (decide (_ ≠ _)) as [Hne|_]; [contradiction Hne; reflexivity|reflexivity].
  - reflexivity.
  - exact Hlen.
  - exists plaintext. split; [reflexivity|exact He].
  - intros Ht. rewrite Ht in Hm. exact Hm.
  - intros Hf. apply falsy_values in Hf. rewrite Hf in Hm. injection Hm as <-. reflexivity.
Qed.

Lemma verifyStateCommitment_true (capsule : Capsule) (expected : string) (b : bool) :
  verifyStateCommitment capsule expected = Ok b -> b = true.
Proof.
  unfold verifyStateCommitment.
  destruct (computeStateCommitment capsule); cbn [mbind result_bind]; [|discriminate].
  destruct (decide (_ ≠ _)); congruence.
Qed.

(** X13. The checks of [unseal] are optional and an empty string switches
    one off like an absent argument.  With both commitments given and
    not empty, [unseal] is [verifyAndDecrypt]; with none it decrypts and
    deserializes only.  A check can only turn a result into an error:
    what [unseal] returns with checks it returns without them, and a
    result returned under a state commitment passes
    [verifyStateCommitment] against it. *)
Theorem unseal_optional_checks (ciphertext key : list byte) :
  (forall stateCommitment ciphertextHash : string,
      stateCommitment <> "" -> ciphertextHash <> "" ->
      unseal ciphertext key (Some stateCommitment) (Some ciphertextHash)
      = verifyAndDecrypt ciphertext key stateCommitment ciphertextHash)
  /\ unseal ciphertext key (Some "") (Some "") = unseal ciphertext key None None
  /\ unseal ciphertext key None None
     = (plaintext ← decrypt ciphertext key; deserializeCapsule plaintext)
  /\ (forall stateCommitment ciphertextHash capsule,
      unseal ciphertext key stateCommitment ciphertextHash = Ok capsule ->
      unseal ciphertext key None None = Ok capsule)
  /\ (forall stateCommitment ciphertextHash capsule,
      stateCommitment <> "" ->
      unseal ciphertext key (Some stateCommitment) ciphertextHash = Ok capsule ->
      verifyStateCommitment capsule stateCommitment = Ok true)
  /\ (forall stateCommitment ciphertextHash capsule,
      ciphertextHash <> "" ->
      unseal ciphertext key stateCommitment (Some ciphertextHash) = Ok capsule ->
      verifyCiphertextHash ciphertext ciphertextHash = Ok true).
Proof.
  assert (Hnone : unseal ciphertext key None None
                  = (plaintext ← decrypt ciphertext key; deserializeCapsule plaintext)).
  { unfold unseal, when_given. cbn [mbind result_bind].
    destruct (decrypt ciphertext key) as [plaintext|e]; cbn [mbind result_bind];
      [|reflexivity].
    destruct (deserializeCapsule plaintext); reflexivity. }
  split_and!.
  - intros sc ch Hsc Hch. unfold unseal, verifyAndDecrypt, when_given.
    apply String.eqb_neq in Hsc, Hch. rewrite Hsc, Hch. reflexivity.
  - reflexivity.
  - exact Hnone.
  - intros sc ch capsule. rewrite Hnone. unfold unseal.
    destruct (when_given ch (verifyCiphertextHash ciphertext)); cbn [mbind result_bind];
      [|discriminate].
    destruct (decrypt ciphertext key) as [plaintext|e]; cbn [mbind result_bind];
      [|discriminate].
    destruct (deserializeCapsule plaintext) as [c|e]; cbn [mbind result_bind];
      [|discriminate].
    destruct (when_given sc (verifyStateCommitment c)); cbn [mbind result_bind];
      [|discriminate].
    intros H. exact H.
  - intros sc ch capsule Hsc. unfold unseal.
    destruct (when_given ch (verifyCiphertextHash ciphertext)); cbn [mbind result_bind];
      [|discriminate].
    destruct (decrypt ciphertext key) as [plaintext|e]; cbn [mbind result_bind];
      [|discriminate].
    destruct (deserializeCapsule plaintext) as [c|e]; cbn [mbind result_bind];
      [|discriminate].
    unfold when_given. apply String.eqb_neq in Hsc. rewrite Hsc.
    destruct (verifyStateCommitment c sc) as [b|e] eqn:Hv; cbn [mbind result_bind];
      [|discriminate].
    intros [= <-]. rewrite Hv. f_equal. exact (verifyStateCommitment_true _ _ _ Hv).
  - intros sc ch capsule Hch. unfold unseal. cbn [when_given].
    apply String.eqb_neq in Hch. rewrite Hch.
    destruct (verifyCiphertextHash ciphertext ch) as [b|e] eqn:Hv; cbn [mbind result_bind];
      [|discriminate].
    intros _. f_equal. revert Hv. unfold verifyCiphertextHash.
    destruct (decide (_ ≠ _)); congruence.
Qed.

End SealingFacts.

Section VerifyAndDecrypt.
Context `{rt : Runtime}.

(** X14. [verifyAndDecrypt] returns a capsule only after every check: the
    ciphertext has the expected hash, the key has 32 bytes and the input
    at least 28, the capsule is what [deserializeCapsule] makes of the
    decrypted bytes, it is a valid capsule, and its state commitment is
    the expected one; both comparisons ignore letter case. *)
Theorem verifyAndDecrypt_sound (ciphertext key : list byte)
  (expectedStateCommitment expectedCiphertextHash : string) (capsule : Capsule) :
  verifyAndDecrypt ciphertext key expectedStateCommitment expectedCiphertextHash
  = Ok capsule ->
  Text.eq_nocase (computeCiphertextHash ciphertext) expectedCiphertextHash
  /\ length key = 32%nat
  /\ (28 <= length ciphertext)%nat
  /\ (exists plaintext,
        decrypt ciphertext key = Ok plaintext
        /\ deserializeCapsule plaintext = Ok capsule)
  /\ assertValidCapsule capsule = Ok tt
  /\ (exists computed,
        computeStateCommitment capsule = Ok computed
        /\ Text.eq_nocase computed expectedStateCommitment).
Proof.
  unfold verifyAndDecrypt, verifyCiphertextHash, Text.eq_nocase.
  destruct (decide (_ ≠ _)) as [|Hh]; cbn [mbind result_bind]; [discriminate|].
  apply dec_stable in Hh.
  destruct (decrypt ciphertext key) as [plaintext|e] eqn:Hd; cbn [mbind result_bind];
    [|discriminate].
  destruct (deserializeCapsule plaintext) as [c|e] eqn:Hc; cbn [mbind result_bind];
    [|discriminate].
  unfold verifyStateCommitment.
  destruct (computeStateCommitment c) as [computed|e] eqn:Hs; cbn [mbind result_bind];
    [|discriminate].
  destruct (decide (_ ≠ _)) as [|Hm]; cbn [mbind result_bind]; [discriminate|].
  apply dec_stable in Hm. intros [= <-].
  assert (Hk : length key = 32%nat /\ (28 <= length ciphertext)%nat).
  { revert Hd. unfold decrypt, KEY_LENGTH, IV_LENGTH, AUTH_TAG_LENGTH.
    destruct (decide (length key ≠ 32%nat)) as [|Hk]; [discriminate|].
    destruct (decide (length ciphertext < 12 + 16)%nat); [discriminate|].
    intros _. apply dec_stable in Hk. lia. }
  destruct Hk as [Hk Hl]. split_and!; try assumption.
  - exists plaintext. split; [reflexivity|exact Hc].
  - revert Hc. unfold deserializeCapsule.
    destruct (JSON_parse (Text.decode plaintext)) as [parsed|]; [|discriminate].
    destruct (assertValidCapsule parsed) as [[]|] eqn:Hv; cbn [mbind result_bind];
      [|discriminate].
    intros [= <-]. exact Hv.
  - exists computed. split; [exact Hs|exact Hm].
Qed.

(** X15. The order of the checks of [verifyAndDecrypt].  A ciphertext
    whose hash is not the expected one is rejected with the hash
    mismatch whatever the key is, a key of the wrong length included;
    only then is the key used, the plaintext parsed and validated, and
    the state commitment compared last. *)
Theorem verifyAndDecrypt_order (ciphertext key : list byte)
  (expectedStateCommitment expectedCiphertextHash : string) :
  (~ Text.eq_nocase (computeCiphertextHash ciphertext) expectedCiphertextHash ->
   verifyAndDecrypt ciphertext key expectedStateCommitment expectedCiphertextHash
   = Err (CiphertextHashMismatch (computeCiphertextHash ciphertext) expectedCiphertextHash))
  /\ (Text.eq_nocase (computeCiphertextHash ciphertext) expectedCiphertextHash ->
      (forall e, decrypt ciphertext key = Err e ->
         verifyAndDecrypt ciphertext key expectedStateCommitment expectedCiphertextHash
         = Err e)
      /\ (forall plaintext e,
            decrypt ciphertext key = Ok plaintext ->
            deserializeCapsule plaintext = Err e ->
            verifyAndDecrypt ciphertext key expectedStateCommitment expectedCiphertextHash
            = Err e)
      /\ (forall plaintext capsule computed,
            decrypt ciphertext key = Ok plaintext ->
            deserializeCapsule plaintext = Ok capsule ->
            computeStateCommitment capsule = Ok computed ->
            ~ Text.eq_nocase computed expectedStateCommitment ->
            verifyAndDecrypt ciphertext key expectedStateCommitment expectedCiphertextHash
            = Err (StateCommitmentMismatch computed expectedStateCommitment))).
Proof.
  unfold verifyAndDecrypt, verifyCiphertextHash, Text.eq_nocase. split.
  - intros Hne. destruct (decide (_ ≠ _)) as [_|H]; [reflexivity|contradiction].
  - intros Heq. destruct (decide (_ ≠ _)) as [H|_]; [contradiction|].
    cbn [mbind result_bind]. split_and!.
    + intros e ->. reflexivity.
    + intros plaintext e -> Hc. cbn [mbind result_bind]. rewrite Hc. reflexivity.
    + intros plaintext capsule computed -> Hc Hs Hne. cbn [mbind result_bind].
      rewrite Hc. cbn [mbind result_bind]. unfold verifyStateCommitment. rewrite Hs.
      cbn [mbind result_bind].
      destruct (decide (_ ≠ _)) as [_|H]; [reflexivity|contradiction].
Qed.

End VerifyAndDecrypt.

Lemma seal_commitments_witness :
  seal (rt := Reference.runtime) example_capsule JUndefined counting
  = Ok (example_sealed, (randomBytes 12 (randomBytes 32 counting).2).2)
  /\ Sealed.metadataHash example_sealed = ZERO_BYTES32
  /\ length (Sealed.encryptionKey example_sealed) = 32%nat.
Proof.
  assert (H : seal (rt := Reference.runtime) example_capsule JUndefined counting
              = Ok (example_sealed, (randomBytes 12 (randomBytes 32 counting).2).2))
    by (vm_compute; reflexivity).
  split; [exact H|].
  destruct (seal_commitments (rt := Reference.runtime) _ _ _ _ _ H)
    as (_ & _ & _ & _ & _ & Hlen & _ & _ & Hzero).
  split; [apply Hzero; left; reflexivity|exact Hlen].
Defined.

Lemma verifyAndDecrypt_sound_witness :
  verifyAndDecrypt (rt := Reference.runtime) (Sealed.ciphertext example_sealed)
    (Sealed.encryptionKey example_sealed) (Sealed.stateCommitment example_sealed)
    (Sealed.contentHash example_sealed) = Ok example_capsule
  /\ assertValidCapsule example_capsule = Ok tt.
Proof.
  assert (H : verifyAndDecrypt (rt := Reference.runtime) (Sealed.ciphertext example_sealed)
                (Sealed.encryptionKey example_sealed) (Sealed.stateCommitment example_sealed)
                (Sealed.contentHash example_sealed) = Ok example_capsule)
    by (vm_compute; reflexivity).
  split; [exact H|].
  apply (verifyAndDecrypt_sound (rt := Reference.runtime) _ _ _ _ _ H).
Defined.

(* ===================================================================== *)
(** * tierPolicy.ts: PromotionTierPolicy                                   *)
(* ===================================================================== *)

Section TierPolicy.
Import PromotionTierPolicy.

Lemma label_in_spec (set : gset string) (context : TierContext.t) :
  label_in set (TierContext.label context) = true <-> label_matches set context.
Proof.
  unfold label_in, label_matches.
  destruct (TierContext.label context) as [l|].
  - rewrite andb_true_iff, negb_true_iff, String.eqb_neq, bool_decide_eq_true. split.
    + intros [Hne Hin]. eauto.
    + intros (l' & [= <-] & Hne & Hin). eauto.
  - split; [discriminate|]. intros (l & H & _). discriminate.
Qed.

Lemma some_tag_in_list (set : gset string) (tags : list string) :
  some_tag_in set tags = true <-> exists tag, tag ∈ tags /\ Text.toLowerCase tag ∈ set.
Proof.
  induction tags as [|t tags IH]; cbn [some_tag_in].
  - split; [discriminate|]. intros (tag & Hin & _). apply elem_of_nil in Hin. contradiction.
  - destruct (bool_decide (Text.toLowerCase t ∈ set)) eqn:Ht.
    + apply bool_decide_eq_true in Ht. split; [|reflexivity].
      intros _. exists t. split; [constructor|exact Ht].
    + apply bool_decide_eq_false in Ht. rewrite IH. split.
      * intros (tag & Hin & Hs). exists tag. split; [constructor 2; exact Hin|exact Hs].
      * intros (tag & Hin & Hs). apply elem_of_cons in Hin as [->|Hin]; [contradiction|].
        eauto.
Qed.

Lemma some_tag_in_spec (set : gset string) (context : TierContext.t) :
  match TierContext.tags context with
  | Some tags => some_tag_in set tags
  | None => false
  end = true <-> tag_matches set context.
Proof.
  unfold tag_matches. destruct (TierContext.tags context) as [tags|].
  - rewrite some_tag_in_list. split.
    + intros (tag & Hin & Hs). eauto.
    + intros (tags' & tag & [= <-] & Hin & Hs). eauto.
  - split; [discriminate|]. intros (tags & tag & H & _). discriminate.
Qed.

Lemma genesis_spec (p : t) (context : TierContext.t) :
  promoteGenesis p && default false (TierContext.isGenesis context) = true
  <-> genesis_promoted p context.
Proof.
  unfold genesis_promoted. rewrite andb_true_iff.
  destruct (TierContext.isGenesis context) as [[]|]; cbn; split; intros [? ?];
    split; congruence.
Qed.

Lemma resolveTier_cases (p : t) (context : TierContext.t) :
  resolveTier p context =
    if promoteGenesis p && default false (TierContext.isGenesis context) then Cold
    else if label_in (coldTags p) (TierContext.label context) then Cold
    else if label_in (warmTags p) (TierContext.label context) then Warm
    else if match TierContext.tags context with
            | Some tags => some_tag_in (coldTags p) tags | None => false end then Cold
    else if match TierContext.tags context with
            | Some tags => some_tag_in (warmTags p) tags | None => false end then Warm
    else Hot.
Proof. unfold resolveTier. destruct (TierContext.tags context); reflexivity. Qed.

(** X16. The precedence of [PromotionTierPolicy.resolveTier], for a
    context whose label and tags are ASCII.  The tier is cold exactly
    when the checkpoint is a promoted genesis, or its label is a cold
    tag, or its label is no warm tag and one of its tags is a cold tag;
    warm exactly when none of that holds and the label is a warm tag or
    one of the tags is; hot otherwise.  So a warm label outranks a cold
    tag, and a cold tag outranks every warm tag wherever it stands in the
    list. *)
Theorem resolveTier_precedence (p : PromotionTierPolicy.t) (context : TierContext.t) :
  ascii_context context ->
  (resolveTier p context = Cold <->
   genesis_promoted p context
   \/ label_matches (coldTags p) context
   \/ (~ label_matches (warmTags p) context /\ tag_matches (coldTags p) context))
  /\ (resolveTier p context = Warm <->
      ~ genesis_promoted p context
      /\ ~ label_matches (coldTags p) context
      /\ (label_matches (warmTags p) context
          \/ (~ tag_matches (coldTags p) context /\ tag_matches (warmTags p) context)))
  /\ (resolveTier p context = Hot <->
      ~ genesis_promoted p context
      /\ ~ label_matches (coldTags p) context
      /\ ~ label_matches (warmTags p) context
      /\ ~ tag_matches (coldTags p) context
      /\ ~ tag_matches (warmTags p) context).
Proof.
  intros _. rewrite resolveTier_cases.
  rewrite <- genesis_spec, <- !label_in_spec, <- !some_tag_in_spec.
  destruct (promoteGenesis p && default false (TierContext.isGenesis context));
    destruct (label_in (coldTags p) (TierContext.label context));
    destruct (label_in (warmTags p) (TierContext.label context));
    destruct (match TierContext.tags context with
              | Some tags => some_tag_in (coldTags p) tags | None => false end);
    destruct (match TierContext.tags context with
              | Some tags => some_tag_in (warmTags p) tags | None => false end);
    split_and!; split; try discriminate; try tauto; try (intros; intuition discriminate);
    try (intros; intuition congruence).
Qed.

Lemma some_tag_in_Permutation (set : gset string) (tags tags' : list string) :
  tags ≡ₚ tags' -> some_tag_in set tags = some_tag_in set tags'.
Proof.
  intros Hp. apply eq_true_iff_eq. rewrite !some_tag_in_list.
  split; intros (tag & Hin & Hs); exists tag; (split; [|exact Hs]).
  - rewrite <- Hp. exact Hin.
  - rewrite Hp. exact Hin.
Qed.

Lemma some_tag_in_lower (set : gset string) (tags : list string) :
  some_tag_in set (Text.toLowerCase <$> tags) = some_tag_in set tags.
Proof.
  induction tags as [|t tags IH]; [reflexivity|].
  cbn [fmap list_fmap some_tag_in]. rewrite toLowerCase_idem.
  change (list_fmap string string Text.toLowerCase tags) with (Text.toLowerCase <$> tags).
  rewrite IH. reflexivity.
Qed.

Lemma label_in_lower (set : gset string) (l : string) :
  label_in set (Some (Text.toLowerCase l)) = label_in set (Some l).
Proof.
  unfold label_in. rewrite toLowerCase_idem. f_equal. f_equal.
  destruct l; reflexivity.
Qed.

Lemma lowercase_only (set : gset string) (x : string) :
  (forall t, t ∈ set -> Text.toLowerCase t <> t) -> Text.toLowerCase x ∉ set.
Proof.
  intros Hset Hin. apply (Hset _ Hin). apply toLowerCase_idem.
Qed.

Lemma label_in_none (set : gset string) (label : option string) :
  (forall x, Text.toLowerCase x ∉ set) -> label_in set label = false.
Proof.
  intros Hset. destruct label as [l|]; [|reflexivity]. unfold label_in.
  rewrite (bool_decide_eq_false_2 _ (Hset l)). apply andb_false_r.
Qed.

Lemma some_tag_in_none (set : gset string) (tags : list string) :
  (forall x, Text.toLowerCase x ∉ set) -> some_tag_in set tags = false.
Proof.
  intros Hset. induction tags as [|t tags IH]; [reflexivity|].
  cbn [some_tag_in]. rewrite (bool_decide_eq_false_2 _ (Hset t)). exact IH.
Qed.

(** X17. [resolveTier] lowercases the label and the tags of the context
    but takes the configured tag sets as given.  The tier does not
    depend on the letter case of the label and the tags, nor on the
    order of the tags; with the default sets a label that spells
    [stable] in any letter case is cold; and a configured tag with an
    uppercase letter never matches anything: a policy whose tags all
    have one, and which does not promote genesis, sends every checkpoint
    to the hot tier. *)
Theorem resolveTier_case_and_order (p : PromotionTierPolicy.t) :
  (forall label tags tags' index genesis,
      tags ≡ₚ tags' ->
      resolveTier p (TierContext.make label (Some tags) index genesis)
      = resolveTier p (TierContext.make label (Some tags') index genesis))
  /\ (forall label tags index genesis,
      resolveTier p (TierContext.make (Some (Text.toLowerCase label))
                       (Some (Text.toLowerCase <$> tags)) index genesis)
      = resolveTier p (TierContext.make (Some label) (Some tags) index genesis))
  /\ (forall label tags index genesis,
      Text.toLowerCase label = "stable" ->
      resolveTier (create None) (TierContext.make (Some label) tags index genesis) = Cold)
  /\ ((forall t, t ∈ coldTags p ∪ warmTags p -> Text.toLowerCase t <> t) ->
      promoteGenesis p = false ->
      forall context, resolveTier p context = Hot).
Proof.
  split_and!.
  - intros label tags tags' index genesis Hp. unfold resolveTier.
    cbn [TierContext.label TierContext.tags TierContext.isGenesis].
    rewrite !(some_tag_in_Permutation _ tags tags' Hp). reflexivity.
  - intros label tags index genesis. unfold resolveTier.
    cbn [TierContext.label TierContext.tags TierContext.isGenesis].
    rewrite !label_in_lower, !some_tag_in_lower. reflexivity.
  - intros label tags index genesis Hl. unfold resolveTier, create.
    cbn [TierContext.label TierContext.tags TierContext.isGenesis promoteGenesis
         coldTags warmTags mbind option_bind default].
    destruct (true && default false genesis); [reflexivity|].
    assert (Hin : label_in (list_to_set ["stable"; "release"; "canonical"; "genesis"])
                    (Some label) = true).
    { unfold label_in. rewrite Hl. apply andb_true_iff. split.
      - destruct label; [discriminate Hl|reflexivity].
      - apply bool_decide_eq_true, elem_of_list_to_set. constructor. }
    rewrite Hin. reflexivity.
  - intros Hset Hg context. rewrite resolveTier_cases, Hg. cbn [andb].
    assert (Hc : forall x, Text.toLowerCase x ∉ coldTags p).
    { intros x. apply lowercase_only. intros t Ht. apply Hset, elem_of_union. left. exact Ht. }
    assert (Hw : forall x, Text.toLowerCase x ∉ warmTags p).
    { intros x. apply lowercase_only. intros t Ht. apply Hset, elem_of_union. right. exact Ht. }
    rewrite !label_in_none by assumption.
    destruct (TierContext.tags context) as [tags|]; [|reflexivity].
    rewrite !some_tag_in_none by assumption. reflexivity.
Qed.

End TierPolicy.

(** A warm label outranks a cold tag: the policy with the default tags
    does not send the context labelled [Archive] and tagged [Stable] to
    the cold tier. *)
Lemma resolveTier_precedence_witness :
  let context := TierContext.make (Some "Archive") (Some ["Stable"]) None None in
  ascii_context context
  /\ PromotionTierPolicy.resolveTier (PromotionTierPolicy.create None) context = Warm
  /\ ~ label_matches (PromotionTierPolicy.coldTags (PromotionTierPolicy.create None)) context.
Proof.
  intros context.
  assert (Ha : ascii_context context).
  { split.
    - intros l [= <-]. reflexivity.
    - intros tags tag [= <-] Hin. apply list_elem_of_singleton in Hin as ->. reflexivity. }
  assert (Hw : PromotionTierPolicy.resolveTier (PromotionTierPolicy.create None) context
               = Warm) by (vm_compute; reflexivity).
  split; [exact Ha|]. split; [exact Hw|].
  destruct (resolveTier_precedence (PromotionTierPolicy.create None) context Ha)
    as (_ & [H _] & _).
  apply H, Hw.
Defined.

(** The examples of the class's documentation. *)
Example resolveTier_examples :
  let policy := PromotionTierPolicy.create None in
  PromotionTierPolicy.resolveTier policy (TierContext.make (Some "stable") None None None) = Cold
  /\ PromotionTierPolicy.resolveTier policy (TierContext.make (Some "archive") None None None)
     = Warm
  /\ PromotionTierPolicy.resolveTier policy (TierContext.make (Some "") None None None) = Hot
  /\ PromotionTierPolicy.resolveTier policy (TierContext.make None None None (Some true))
     = Cold
  /\ PromotionTierPolicy.resolveTier policy
       (TierContext.make (Some "archive") (Some ["stable"]) None None) = Warm.
Proof. vm_compute. repeat split. Qed.

(* ===================================================================== *)
(** * keyDelivery.ts, onChainKeyDelivery.ts: more on the key managers      *)
(* ===================================================================== *)

Section KeyManagers.
Context `{rt : Runtime}.

Lemma importKeys_fold_lookup (entries : list (string * string))
  (acc : gmap string (list byte)) (k : string) :
  NoDup entries.*1 ->
  (forall id hex, (id, hex) ∈ entries -> Text.toLowerCase id = id) ->
  fold_left (fun acc '(id, hex) => <[Text.toLowerCase id := Hex.fromHex hex]> acc)
    entries acc !! k
  = match (list_to_map entries : gmap string string) !! k with
    | Some hex => Some (Hex.fromHex hex)
    | None => acc !! k
    end.
Proof.
  revert acc. induction entries as [|[id hex] entries IH]; intros acc Hnd Hlow.
  - cbn. rewrite lookup_empty. reflexivity.
  - cbn [fold_left]. cbn [fmap list_fmap fst] in Hnd. apply NoDup_cons in Hnd as [Hid Hnd].
    rewrite IH; [|exact Hnd|intros i x Hin; apply (Hlow i x); constructor 2; exact Hin].
    rewrite (Hlow id hex) by constructor.
    change (list_to_map ((id, hex) :: entries) : gmap string string)
      with (<[id := hex]> (list_to_map entries : gmap string string)).
    destruct (decide (k = id)) as [->|Hne].
    + rewrite (not_elem_of_list_to_map_1 _ _ Hid). rewrite !lookup_insert_eq. reflexivity.
    + rewrite !lookup_insert_ne by congruence. reflexivity.
Qed.

Lemma exportKeys_fold_lookup (entries : list (string * list byte))
  (acc : gmap string string) (k : string) :
  NoDup entries.*1 ->
  fold_left (fun result '(id, key) => PublisherKeyManager.assign_property result id (Hex.toHex key))
    entries acc !! k
  = if String.eqb k "__proto__" then acc !! k
    else match (list_to_map entries : gmap string (list byte)) !! k with
         | Some key => Some (Hex.toHex key)
         | None => acc !! k
         end.
Proof.
  revert acc. induction entries as [|[id key] entries IH]; intros acc Hnd.
  - cbn. rewrite lookup_empty. destruct (String.eqb k "__proto__"); reflexivity.
  - cbn [fold_left]. cbn [fmap list_fmap fst] in Hnd. apply NoDup_cons in Hnd as [Hid Hnd].
    rewrite IH by exact Hnd.
    change (list_to_map ((id, key) :: entries) : gmap string (list byte))
      with (<[id := key]> (list_to_map entries : gmap string (list byte))).
    unfold PublisherKeyManager.assign_property.
    destruct (String.eqb_spec k "__proto__") as [Hk|Hk].
    + destruct (String.eqb_spec id "__proto__") as [Hi|Hi]; [reflexivity|].
      apply lookup_insert_ne. congruence.
    + destruct (decide (k = id)) as [->|Hne].
      * rewrite (not_elem_of_list_to_map_1 _ _ Hid), lookup_insert_eq.
        apply String.eqb_neq in Hk. rewrite Hk. apply lookup_insert_eq.
      * rewrite (lookup_insert_ne (list_to_map entries)) by congruence.
        destruct (list_to_map entries !! k); [reflexivity|].
        destruct (String.eqb id "__proto__"); [reflexivity|].
        apply lookup_insert_ne. congruence.
Qed.

Lemma exportKeys_lookup (m : PublisherKeyManager.t) (k : string) :
  PublisherKeyManager.exportKeys m !! k
  = if String.eqb k "__proto__" then None else Hex.toHex <$> PublisherKeyManager.keys m !! k.
Proof.
  unfold PublisherKeyManager.exportKeys.
  rewrite exportKeys_fold_lookup by apply NoDup_fst_map_to_list.
  rewrite list_to_map_to_list, lookup_empty.
  destruct (String.eqb k "__proto__"); [reflexivity|].
  destruct (PublisherKeyManager.keys m !! k); reflexivity.
Qed.

(** X18. Backup round trip of [PublisherKeyManager], for a store whose
    identifiers are lowercase ASCII strings, as [storeKey] and
    [importKeys] leave hex identifiers: importing what [exportKeys] gave
    into a fresh manager restores every key under its identifier, except
    a key stored under [__proto__], which the exported object does not
    hold; without such a key the store is restored as it was. *)
Theorem exportKeys_importKeys (m : PublisherKeyManager.t)
  (publicKey secretKey : list byte) :
  lowercase_keys (PublisherKeyManager.keys m) ->
  ascii_keys (PublisherKeyManager.keys m) ->
  PublisherKeyManager.keys
    (PublisherKeyManager.importKeys (PublisherKeyManager.create publicKey secretKey)
       (map_to_list (PublisherKeyManager.exportKeys m)))
  = delete "__proto__" (PublisherKeyManager.keys m)
  /\ (PublisherKeyManager.keys m !! "__proto__" = None ->
      PublisherKeyManager.keys
        (PublisherKeyManager.importKeys (PublisherKeyManager.create publicKey secretKey)
           (map_to_list (PublisherKeyManager.exportKeys m)))
      = PublisherKeyManager.keys m)
  /\ PublisherKeyManager.exportKeys m !! "__proto__" = None.
Proof.
  intros Hlow _.
  assert (E : PublisherKeyManager.keys
                (PublisherKeyManager.importKeys
                   (PublisherKeyManager.create publicKey secretKey)
                   (map_to_list (PublisherKeyManager.exportKeys m)))
              = delete "__proto__" (PublisherKeyManager.keys m)).
  { apply map_eq. intros k.
    unfold PublisherKeyManager.importKeys, PublisherKeyManager.with_keys,
      PublisherKeyManager.create.
    cbn [PublisherKeyManager.keys].
    rewrite importKeys_fold_lookup.
    - rewrite list_to_map_to_list, exportKeys_lookup, lookup_empty.
      destruct (String.eqb_spec k "__proto__") as [Hk|Hk].
      + rewrite Hk, lookup_delete_eq. reflexivity.
      + rewrite lookup_delete_ne by congruence.
        destruct (PublisherKeyManager.keys m !! k) as [K|]; cbn; [|reflexivity].
        rewrite fromHex_toHex. reflexivity.
    - apply NoDup_fst_map_to_list.
    - intros id hex Hin. apply elem_of_map_to_list in Hin.
      rewrite exportKeys_lookup in Hin. apply Hlow.
      destruct (String.eqb id "__proto__"); [discriminate|].
      destruct (PublisherKeyManager.keys m !! id); [eauto|discriminate]. }
  split; [exact E|]. split.
  - intros Hno. rewrite E. apply delete_id. exact Hno.
  - rewrite exportKeys_lookup. reflexivity.
Qed.

(** X19. When [fulfillRedemption] delivers nothing.  With no key stored
    for the checkpoint, an ASCII identifier, it throws the no-key error,
    which names the identifier as given; with a key stored and a consumer
    public key that is not 32 bytes long it throws the key-length error;
    when [wrapKey] fails its error is passed on.  In these cases the
    delivery provider is not called at all.  Otherwise it is called
    exactly once, with the wrapped envelope bound to the checkpoint, and
    the outcome is the way that call settles.
    [OnChainPublisherKeyManager.fulfillRedemption] with the same store and
    secret key does the same. *)
Theorem fulfillRedemption_failures {W : Type} (h : Handler W) (w : W)
  (m : PublisherKeyManager.t) (tokenAddress checkpointId consumerAddress : string)
  (consumerPublicKey : list byte) (ent : Entropy) :
  let p := PublisherKeyManager.fulfillRedemption m tokenAddress checkpointId
             consumerAddress consumerPublicKey ent in
  (is_ascii checkpointId = true ->
   PublisherKeyManager.keys m !! Text.toLowerCase checkpointId = None ->
   run h p w = (Err (NoKeyStored checkpointId), w, []))
  /\ (forall K,
      PublisherKeyManager.keys m !! Text.toLowerCase checkpointId = Some K ->
      length consumerPublicKey <> 32%nat ->
      run h p w = (Err (ConsumerKeyLength (length consumerPublicKey)), w, []))
  /\ (forall K e,
      PublisherKeyManager.keys m !! Text.toLowerCase checkpointId = Some K ->
      length consumerPublicKey = 32%nat ->
      wrapKey K consumerPublicKey (PublisherKeyManager.secretKey m) ent = Err e ->
      run h p w = (Err e, w, []))
  /\ (forall K envelope ent',
      PublisherKeyManager.keys m !! Text.toLowerCase checkpointId = Some K ->
      length consumerPublicKey = 32%nat ->
      wrapKey K consumerPublicKey (PublisherKeyManager.secretKey m) ent
      = Ok (envelope, ent') ->
      let call :=
        DeliveryStoreEnvelope tokenAddress checkpointId consumerAddress
          {| Envelope.checkpointId := checkpointId;
             Envelope.wrappedKey := Envelope.wrappedKey envelope;
             Envelope.nonce := Envelope.nonce envelope;
             Envelope.senderPublicKey := Envelope.senderPublicKey envelope |} in
      run h p w = ((h unit call w).1, (h unit call w).2, [Called call (h unit call w).1]))
  /\ (length (trace (run h p w)) <= 1)%nat
  /\ (forall m' : OnChainPublisherKeyManager.t,
      OnChainPublisherKeyManager.keys m' = PublisherKeyManager.keys m ->
      OnChainPublisherKeyManager.secretKey m' = PublisherKeyManager.secretKey m ->
      OnChainPublisherKeyManager.fulfillRedemption m' tokenAddress checkpointId
        consumerAddress consumerPublicKey ent = p).
Proof.
  intros p. subst p. unfold PublisherKeyManager.fulfillRedemption. split_and!.
  - intros _ ->. reflexivity.
  - intros K -> Hlen. destruct (decide (length consumerPublicKey ≠ 32%nat)); [reflexivity|].
    contradiction.
  - intros K e -> Hlen Hw.
    destruct (decide (length consumerPublicKey ≠ 32%nat)); [contradiction|].
    rewrite Hw. reflexivity.
  - intros K envelope ent' -> Hlen Hw. cbv zeta.
    destruct (decide (length consumerPublicKey ≠ 32%nat)); [contradiction|].
    rewrite Hw. cbn [lift mbind prog_mbind prog_bind]. apply run_await.
  - destruct (PublisherKeyManager.keys m !! Text.toLowerCase checkpointId) as [K|];
      [|cbn; lia].
    destruct (decide (length consumerPublicKey ≠ 32%nat)); [cbn; lia|].
    destruct (wrapKey K consumerPublicKey (PublisherKeyManager.secretKey m) ent)
      as [[envelope ent']|e]; [|cbn; lia].
    cbn [lift mbind prog_mbind prog_bind]. rewrite run_await. cbn. lia.
  - intros m' Hk Hs. unfold OnChainPublisherKeyManager.fulfillRedemption.
    rewrite Hk, Hs. reflexivity.
Qed.

End KeyManagers.

Lemma exportKeys_importKeys_witness :
  let m :=
    PublisherKeyManager.storeKey
      (PublisherKeyManager.storeKey (PublisherKeyManager.create [] []) "0xCp1" [x01; xff])
      "__proto__" [x02] in
  lowercase_keys (PublisherKeyManager.keys m)
  /\ ascii_keys (PublisherKeyManager.keys m)
  /\ PublisherKeyManager.keys
       (PublisherKeyManager.importKeys (PublisherKeyManager.create [] [])
          (map_to_list (PublisherKeyManager.exportKeys m)))
     = {[ "0xcp1" := [x01; xff] ]}.
Proof.
  intros m.
  assert (Hkeys : forall k, is_Some (PublisherKeyManager.keys m !! k) ->
                            k = "__proto__" \/ k = "0xcp1").
  { intros k [v Hv]. subst m. cbn in Hv.
    apply lookup_insert_Some in Hv as [[<- _]|[_ Hv]]; [left; reflexivity|].
    apply lookup_insert_Some in Hv as [[<- _]|[_ Hv]]; [right; reflexivity|].
    rewrite lookup_empty in Hv. discriminate. }
  assert (Hlow : lowercase_keys (PublisherKeyManager.keys m)).
  { intros k Hk. destruct (Hkeys k Hk) as [-> | ->]; reflexivity. }
  assert (Hasc : ascii_keys (PublisherKeyManager.keys m)).
  { intros k Hk. destruct (Hkeys k Hk) as [-> | ->]; reflexivity. }
  split; [exact Hlow|]. split; [exact Hasc|].
  destruct (exportKeys_importKeys m [] [] Hlow Hasc) as (E & _).
  rewrite E. subst m. cbn [PublisherKeyManager.storeKey PublisherKeyManager.with_keys
                           PublisherKeyManager.keys PublisherKeyManager.create].
  change (Text.toLowerCase "__proto__") with "__proto__".
  change (Text.toLowerCase "0xCp1") with "0xcp1".
  rewrite delete_insert_eq, insert_empty. apply delete_id.
  apply lookup_singleton_ne. discriminate.
Defined.

(* ===================================================================== *)
(** * keyDelivery.ts: StorageKeyDelivery                                   *)
(* ===================================================================== *)

Section StorageDelivery.
Context `{rt : Runtime} {S : Type} (storage : StorageProvider.t S).
Import StorageKeyDelivery.






End StorageDelivery.

Section Descriptions.
Import StorageKeyDelivery.

Lemma JsMap_get_set_eq {V : Type} (k : string) (v : V) (m : JsMap.t V) :
  JsMap.get k (JsMap.set k v m) = Some v.
Proof.
  induction m as [|[k' v'] m IH]; cbn.
  - rewrite String.eqb_refl. reflexivity.
  - destruct (String.eqb_spec k k') as [->|Hne]; cbn.
    + rewrite String.eqb_refl. reflexivity.
    + apply String.eqb_neq in Hne. rewrite Hne. exact IH.
Qed.

Lemma JsMap_get_set_ne {V : Type} (k k0 : string) (v : V) (m : JsMap.t V) :
  k0 <> k -> JsMap.get k0 (JsMap.set k v m) = JsMap.get k0 m.
Proof.
  intros Hne. induction m as [|[k' v'] m IH]; cbn.
  - apply String.eqb_neq in Hne. rewrite Hne. reflexivity.
  - destruct (String.eqb_spec k k') as [->|Hkk]; cbn.
    + apply String.eqb_neq in Hne. rewrite Hne. reflexivity.
    + destruct (String.eqb k0 k'); [reflexivity|exact IH].
Qed.

Lemma JsMap_keys_set {V : Type} (k : string) (v : V) (m : JsMap.t V) :
  JsMap.keys (JsMap.set k v m)
  = match JsMap.get k m with
    | Some _ => JsMap.keys m
    | None => JsMap.keys m ++ [k]
    end.
Proof.
  induction m as [|[k' v'] m IH]; cbn; [reflexivity|].
  destruct (String.eqb_spec k k') as [->|Hkk]; cbn; [reflexivity|].
  unfold JsMap.keys in IH. rewrite IH. destruct (JsMap.get k m); reflexivity.
Qed.

(** X22. Checkpoint descriptions of [StorageKeyDelivery].
    [setDescription] refuses a description whose checkpoint identifier
    is empty and otherwise files it under the lowercased identifier:
    [getDescription] then finds it under every spelling of the
    identifier and, for ASCII identifiers, answers as before for any
    other checkpoint.  With an ASCII identifier, a second description
    for the same checkpoint takes the place of the first and leaves the
    order of the keys as it was; a new checkpoint is added at the end,
    and only then does [getAllDescriptions] grow, by one.  The envelope
    index is not touched. *)
Theorem setDescription_getDescription (d : StorageKeyDelivery.t)
  (desc : CheckpointDescription) :
  (Description.checkpointId desc = "" <-> setDescription d desc = Err DescriptionIdRequired)
  /\ (Description.checkpointId desc <> "" -> exists d', setDescription d desc = Ok d')
  /\ (forall d',
      setDescription d desc = Ok d' ->
      (forall checkpointId,
          Text.eq_nocase checkpointId (Description.checkpointId desc) ->
          getDescription d' checkpointId = Some desc)
      /\ (forall checkpointId,
          is_ascii checkpointId = true ->
          is_ascii (Description.checkpointId desc) = true ->
          ~ Text.eq_nocase checkpointId (Description.checkpointId desc) ->
          getDescription d' checkpointId = getDescription d checkpointId)
      /\ (is_ascii (Description.checkpointId desc) = true ->
          JsMap.keys (descriptions d')
          = match getDescription d (Description.checkpointId desc) with
            | Some _ => JsMap.keys (descriptions d)
            | None =>
                JsMap.keys (descriptions d)
                ++ [Text.toLowerCase (Description.checkpointId desc)]
            end
          /\ length (getAllDescriptions d')
             = match getDescription d (Description.checkpointId desc) with
               | Some _ => length (getAllDescriptions d)
               | None => Datatypes.S (length (getAllDescriptions d))
               end)
      /\ index d' = index d).
Proof.
  unfold setDescription, getDescription, getAllDescriptions.
  destruct (String.eqb_spec (Description.checkpointId desc) "") as [He|Hne]; split_and!.
  - split; [reflexivity|intros _; exact He].
  - intros H. contradiction.
  - intros d' H. discriminate H.
  - split; [intros H; contradiction|discriminate].
  - intros _. eexists. reflexivity.
  - intros d' [= <-]. cbn [descriptions index]. split_and!.
    + intros checkpointId Hc. unfold Text.eq_nocase in Hc. rewrite Hc.
      apply JsMap_get_set_eq.
    + intros checkpointId _ _ Hc. apply JsMap_get_set_ne. exact Hc.
    + intros _. split; [apply JsMap_keys_set|].
      pose proof (JsMap_keys_set (Text.toLowerCase (Description.checkpointId desc)) desc
                    (descriptions d)) as Hk.
      apply (f_equal length) in Hk. unfold JsMap.keys, JsMap.values in *.
      rewrite !length_fmap in *. rewrite Hk.
      destruct (JsMap.get _ (descriptions d)); [rewrite length_fmap; reflexivity|].
      rewrite length_app, length_fmap. cbn. lia.
    + reflexivity.
Qed.

End Descriptions.


(* ===================================================================== *)
(** * sealed.ts: seal and upload, download and unseal                      *)
(* ===================================================================== *)

Section SealedTransport.
Context `{rt : Runtime} {S : Type} (storage : StorageProvider.t S).

Lemma seal_then_unseal (capsule : Capsule) (metadata : JsValue) (ent : Entropy) :
  AES_GCM_correct ->
  assertValidCapsule capsule = Ok tt ->
  JSON_representable capsule ->
  Js.truthy metadata = false \/ canonicalizable metadata ->
  exists sealed ent',
    seal capsule metadata ent = Ok (sealed, ent')
    /\ unseal (Sealed.ciphertext sealed) (Sealed.encryptionKey sealed)
         (Some (Sealed.stateCommitment sealed)) (Some (Sealed.contentHash sealed))
       = Ok capsule.
Proof.
  intros Hgcm Hvalid (text & Hcanon & Hparse) Hmeta.
  assert (Hser : serializeCapsule capsule = Ok (Text.encode text)).
  { unfold serializeCapsule, canonicalBytes. rewrite Hvalid, Hcanon. reflexivity. }
  assert (Hcommit : computeStateCommitment capsule = Ok (hashBytes (Text.encode text))).
  { unfold computeStateCommitment. rewrite Hser. reflexivity. }
  assert (Hmd : exists h,
    (if Js.truthy metadata then computeMetadataHash metadata
     else Ok ("0x" +:+ Text.repeat_char "0" 64)) = Ok h).
  { destruct Hmeta as [-> | (mtext & Hm)]; [eauto|].
    destruct (Js.truthy metadata); [|eauto].
    unfold computeMetadataHash, serializeCanonical, canonicalBytes.
    rewrite Hm. cbn. eauto. }
  destruct Hmd as [metadataHash Hmd].
  pose proof (randomBytes_length KEY_LENGTH ent) as Hkey.
  unfold seal, generateContentKey. rewrite Hser, Hcommit.
  cbn [mbind result_bind]. rewrite Hmd. cbn [mbind result_bind].
  destruct (randomBytes KEY_LENGTH ent) as [key ent1]. cbn [fst] in Hkey.
  destruct (decrypt_encrypt (Text.encode text) key ent1 Hgcm Hkey)
    as (ciphertext & ent2 & Henc & Hdec).
  rewrite Henc. cbn [mbind result_bind]. eexists _, _. split; [reflexivity|].
  cbn [Sealed.ciphertext Sealed.encryptionKey Sealed.stateCommitment Sealed.contentHash].
  unfold unseal, when_given, computeCiphertextHash.
  rewrite !hashBytes_nonempty.
  unfold verifyCiphertextHash, computeCiphertextHash.
  destruct (decide (_ ≠ _)) as [Hne|_]; [contradiction Hne; reflexivity|]. cbn.
  rewrite Hdec. cbn.
  unfold deserializeCapsule. rewrite decode_encode, Hparse, Hvalid. cbn.
  unfold verifyStateCommitment. rewrite Hcommit. cbn.
  destruct (decide (_ ≠ _)) as [Hne|_]; [contradiction Hne; reflexivity|].
  reflexivity.
Qed.

(** X23. Off-chain transport round trip: with a storage provider that
    keeps what it takes, AES-256-GCM doing its part, and a valid capsule
    that [JSON.parse] reads back, [sealAndUpload] succeeds and
    [downloadAndUnseal] of the returned URI, with the sealed key and the
    two commitments of the receipt, returns the capsule. *)
Theorem sealAndUpload_downloadAndUnseal (capsule : Capsule) (metadata : JsValue)
  (ent : Entropy) (now : string) (st : S) :
  AES_GCM_correct ->
  keeps_uploads storage ->
  assertValidCapsule capsule = Ok tt ->
  JSON_representable capsule ->
  Js.truthy metadata = false \/ canonicalizable metadata ->
  exists uploaded ent' st1 st2,
    sealAndUpload capsule storage metadata ent now st = (Ok (uploaded, ent'), st1)
    /\ downloadAndUnseal (Uploaded.uri uploaded)
         (Sealed.encryptionKey (Uploaded.sealed uploaded)) storage
         (Some (Receipt.stateCommitment (Uploaded.receipt uploaded)))
         (Some (Receipt.ciphertextHash (Uploaded.receipt uploaded))) st1
       = (Ok capsule, st2).
Proof.
  intros Hgcm Hkeep Hvalid Hrep Hmeta.
  destruct (seal_then_unseal capsule metadata ent Hgcm Hvalid Hrep Hmeta)
    as (sealed & ent' & Hseal & Hunseal).
  destruct (Hkeep (Sealed.ciphertext sealed) st) as (uri & st1 & st2 & Hup & Hdown).
  unfold sealAndUpload, downloadAndUnseal. rewrite Hseal, Hup.
  eexists _, ent', st1, st2. split; [reflexivity|].
  cbn [Uploaded.uri Uploaded.sealed Uploaded.receipt Receipt.stateCommitment
       Receipt.ciphertextHash].
  rewrite Hdown, Hunseal. reflexivity.
Qed.

(** X24. What [sealAndUpload] and [downloadAndUnseal] leave alone and
    pass on.  When [seal] throws nothing is uploaded; a rejected upload
    or download is the error of the call.  Whenever [sealAndUpload]
    returns, the sealed capsule is the one [seal] gives, the ciphertext
    is what went to the storage provider, and the receipt repeats the
    state commitment, the content hash, the metadata hash and the URI
    and carries the time given. *)
Theorem sealAndUpload_receipt (capsule : Capsule) (metadata : JsValue)
  (ent : Entropy) (now : string) (st : S) :
  (forall e, seal capsule metadata ent = Err e ->
     sealAndUpload capsule storage metadata ent now st = (Err e, st))
  /\ (forall sealed ent' e st',
      seal capsule metadata ent = Ok (sealed, ent') ->
      StorageProvider.upload storage (Sealed.ciphertext sealed) st = (Err e, st') ->
      sealAndUpload capsule storage metadata ent now st = (Err e, st'))
  /\ (forall uploaded ent' st',
      sealAndUpload capsule storage metadata ent now st = (Ok (uploaded, ent'), st') ->
      seal capsule metadata ent = Ok (Uploaded.sealed uploaded, ent')
      /\ StorageProvider.upload storage (Sealed.ciphertext (Uploaded.sealed uploaded)) st
         = (Ok (Uploaded.uri uploaded), st')
      /\ Uploaded.receipt uploaded
         = {| Receipt.stateCommitment := Sealed.stateCommitment (Uploaded.sealed uploaded);
              Receipt.ciphertextHash := Sealed.contentHash (Uploaded.sealed uploaded);
              Receipt.metadataHash := Sealed.metadataHash (Uploaded.sealed uploaded);
              Receipt.ciphertextUri := Uploaded.uri uploaded;
              Receipt.sealedAt := now |})
  /\ (forall uri key stateCommitment ciphertextHash e st',
      StorageProvider.download storage uri st = (Err e, st') ->
      downloadAndUnseal uri key storage stateCommitment ciphertextHash st = (Err e, st')).
Proof.
  unfold sealAndUpload, downloadAndUnseal. split_and!.
  - intros e ->. reflexivity.
  - intros sealed ent' e st' -> ->. reflexivity.
  - intros uploaded ent' st'.
    destruct (seal capsule metadata ent) as [[sealed ent1]|e]; [|discriminate].
    destruct (StorageProvider.upload storage (Sealed.ciphertext sealed) st)
      as [[uri|e] st1] eqn:Hup; [|discriminate].
    intros [= <- <- <-]. cbn [Uploaded.sealed Uploaded.uri Uploaded.receipt].
    split_and!; [reflexivity|exact Hup|reflexivity].
  - intros uri key sc ch e st' ->. reflexivity.
Qed.

End SealedTransport.

Lemma content_store_keeps_uploads : keeps_uploads content_store.
Proof.
  intros data st. eexists _, _, _. split; [reflexivity|].
  cbn [content_store StorageProvider.download]. rewrite lookup_insert_eq. reflexivity.
Qed.

Lemma sealAndUpload_downloadAndUnseal_witness :
  AES_GCM_correct (rt := Reference.runtime)
  /\ keeps_uploads content_store
  /\ assertValidCapsule example_capsule = Ok tt
  /\ JSON_representable (rt := Reference.runtime) example_capsule
  /\ exists uploaded ent' st1 st2,
       sealAndUpload (rt := Reference.runtime) example_capsule content_store JUndefined
         counting "2026-01-01T00:00:00.000Z" ∅ = (Ok (uploaded, ent'), st1)
       /\ downloadAndUnseal (rt := Reference.runtime) (Uploaded.uri uploaded)
            (Sealed.encryptionKey (Uploaded.sealed uploaded)) content_store
            (Some (Receipt.stateCommitment (Uploaded.receipt uploaded)))
            (Some (Receipt.ciphertextHash (Uploaded.receipt uploaded))) st1
          = (Ok example_capsule, st2).
Proof.
  split; [exact reference_gcm_correct|].
  split; [exact content_store_keeps_uploads|].
  split; [vm_compute; reflexivity|].
  split; [exact example_capsule_representable|].
  apply (sealAndUpload_downloadAndUnseal (rt := Reference.runtime) content_store
           example_capsule JUndefined counting "2026-01-01T00:00:00.000Z" ∅).
  - exact reference_gcm_correct.
  - exact content_store_keeps_uploads.
  - vm_compute. reflexivity.
  - exact example_capsule_representable.
  - left. reflexivity.
Defined.

(* ===================================================================== *)
(** * client.ts: what consume returns and what it calls                    *)
(* ===================================================================== *)

Section ConsumeFacts.
Context `{rt : Runtime}.

Lemma verifyCiphertextHash_true (ciphertext : list byte) (expected : string) (b : bool) :
  verifyCiphertextHash ciphertext expected = Ok b -> b = true.
Proof.
  unfold verifyCiphertextHash. destruct (decide (_ ≠ _)); congruence.
Qed.

Lemma deserializeCapsule_valid (bytes : list byte) (capsule : Capsule) :
  deserializeCapsule bytes = Ok capsule -> assertValidCapsule capsule = Ok tt.
Proof.
  unfold deserializeCapsule.
  destruct (JSON_parse (Text.decode bytes)) as [parsed|]; [|discriminate].
  destruct (assertValidCapsule parsed) as [[]|] eqn:Hv; cbn [mbind result_bind];
    [|discriminate].
  intros [= <-]. exact Hv.
Qed.

(** The steps of [consume] once the envelope is in hand: a result means
    two calls, both answered, and every check passed. *)
Lemma consume_rest_sound {W : Type} (h : Handler W) (w : W)
  (tokenAddress checkpointId : string) (keyEnvelope : KeyEnvelope) (secretKey : list byte)
  (capsule : Capsule) (checkpoint : CheckpointRecord) :
  outcome (run h (MindstateClient.consume_rest tokenAddress checkpointId
                    keyEnvelope secretKey) w) = Ok (capsule, checkpoint) ->
  exists raw ciphertext contentKey plaintext,
    trace (run h (MindstateClient.consume_rest tokenAddress checkpointId
                    keyEnvelope secretKey) w)
    = [ Called (ContractGetCheckpoint tokenAddress checkpointId) (Ok raw);
        Called (StorageDownload (Raw.ciphertextUri raw)) (Ok ciphertext) ]
    /\ checkpoint = MindstateExplorer.parseCheckpointFromContract checkpointId raw
    /\ verifyCiphertextHash ciphertext (Raw.ciphertextHash raw) = Ok true
    /\ unwrapKey keyEnvelope secretKey = Ok contentKey
    /\ decrypt ciphertext contentKey = Ok plaintext
    /\ deserializeCapsule plaintext = Ok capsule
    /\ verifyStateCommitment capsule (Raw.stateCommitment raw) = Ok true.
Proof.
  unfold MindstateClient.consume_rest, MindstateClient.getCheckpoint, trace, outcome.
  cbn.
  destruct (h _ (ContractGetCheckpoint tokenAddress checkpointId) w) as [[raw|e] w1]; cbn;
    [|discriminate].
  destruct (h _ (StorageDownload (Raw.ciphertextUri raw)) w1) as [[ciphertext|e] w2]; cbn;
    [|discriminate].
  destruct (verifyCiphertextHash ciphertext (Raw.ciphertextHash raw)) as [b1|e] eqn:H1; cbn;
    [|discriminate].
  destruct (unwrapKey keyEnvelope secretKey) as [contentKey|e] eqn:H2; cbn; [|discriminate].
  destruct (decrypt ciphertext contentKey) as [plaintext|e] eqn:H3; cbn; [|discriminate].
  destruct (deserializeCapsule plaintext) as [c|e] eqn:H4; cbn; [|discriminate].
  destruct (verifyStateCommitment c (Raw.stateCommitment raw)) as [b2|e] eqn:H5; cbn;
    [|discriminate].
  intros [= <- <-].
  apply verifyCiphertextHash_true in H1 as E1. apply verifyStateCommitment_true in H5 as E2.
  subst b1 b2. exists raw, ciphertext, contentKey, plaintext.
  split_and!; try assumption; reflexivity.
Qed.

Ltac answer h :=
  match goal with
  | |- context [h ?X ?call ?w] =>
      let r := fresh "r" in let w' := fresh "w" in
      destruct (h X call w) as [r w']; destruct r as [?v|?err];
      cbn -[MindstateClient.consume_rest]
  end.

(** X25. What [consume] has done when it returns a capsule.  It made
    these calls and no other, each answered: the signer's address, which
    is not empty; [hasRedeemed]; [fetchEnvelope] for that address;
    [redeem], exactly when [hasRedeemed] answered [false]; [getCheckpoint];
    and the download of the record's URI.  The record returned is the one
    read from the contract, the ciphertext downloaded has the record's
    hash, the content key is what [unwrapKey] makes of the envelope, and
    the capsule is the valid capsule deserialized from the decrypted
    bytes, with the record's state commitment. *)
Theorem consume_sound {W : Type} (h : Handler W) (w : W)
  (client : MindstateClient.t) (tokenAddress checkpointId : string)
  (secretKey : list byte) (capsule : Capsule) (checkpoint : CheckpointRecord) :
  outcome (run h (MindstateClient.consume client tokenAddress checkpointId secretKey) w)
  = Ok (capsule, checkpoint) ->
  exists address alreadyRedeemed envelope raw ciphertext contentKey plaintext,
    trace (run h (MindstateClient.consume client tokenAddress checkpointId secretKey) w)
    = [ Called SignerGetAddress (Ok address);
        Called (ContractHasRedeemed tokenAddress address checkpointId) (Ok alreadyRedeemed);
        Called (DeliveryFetchEnvelope tokenAddress checkpointId address) (Ok envelope) ]
      ++ (if alreadyRedeemed then []
          else [ Called (ContractRedeem tokenAddress checkpointId) (Ok tt) ])
      ++ [ Called (ContractGetCheckpoint tokenAddress checkpointId) (Ok raw);
           Called (StorageDownload (Raw.ciphertextUri raw)) (Ok ciphertext) ]
    /\ address <> ""
    /\ checkpoint = MindstateExplorer.parseCheckpointFromContract checkpointId raw
    /\ verifyCiphertextHash ciphertext (Checkpoint.ciphertextHash checkpoint) = Ok true
    /\ unwrapKey envelope secretKey = Ok contentKey
    /\ decrypt ciphertext contentKey = Ok plaintext
    /\ deserializeCapsule plaintext = Ok capsule
    /\ assertValidCapsule capsule = Ok tt
    /\ verifyStateCommitment capsule (Checkpoint.stateCommitment checkpoint) = Ok true.
Proof.
  pose proof (fun w e => consume_rest_sound h w tokenAddress checkpointId e secretKey
                           capsule checkpoint) as Hrest.
  unfold MindstateClient.consume, MindstateClient.hasRedeemed, MindstateClient.redeem.
  unfold trace, outcome in *.
  destruct (MindstateClient.signer client); cbn -[MindstateClient.consume_rest];
    [|discriminate].
  answer h; [|discriminate].
  match goal with v : string |- _ => destruct v as [|c address] end;
    cbn -[MindstateClient.consume_rest]; [discriminate|].
  answer h; [|discriminate].
  match goal with v : bool |- _ => destruct v end; cbn -[MindstateClient.consume_rest].
  - answer h; [|discriminate].
    match goal with |- context [run h (MindstateClient.consume_rest _ _ ?e _) ?w'] =>
      specialize (Hrest w' e);
      destruct (run h (MindstateClient.consume_rest tokenAddress checkpointId e secretKey) w')
        as [[? ?] ?]
    end.
    cbn [fst snd] in *. intros Hres.
    destruct (Hrest Hres) as (raw & ct & key & pt & -> & -> & Hh & Hu & Hd & Hc & Hs).
    eexists (String c address), true, _, raw, ct, key, pt.
    split_and!; try eassumption; try reflexivity; try discriminate.
    eapply deserializeCapsule_valid; eassumption.
  - answer h; [|discriminate].
    answer h; [|discriminate].
    match goal with |- context [run h (MindstateClient.consume_rest _ _ ?e _) ?w'] =>
      specialize (Hrest w' e);
      destruct (run h (MindstateClient.consume_rest tokenAddress checkpointId e secretKey) w')
        as [[? ?] ?]
    end.
    cbn [fst snd] in *. intros Hres.
    destruct (Hrest Hres) as (raw & ct & key & pt & -> & -> & Hh & Hu & Hd & Hc & Hs).
    match goal with u : unit |- _ => destruct u end.
    eexists (String c address), false, _, raw, ct, key, pt.
    split_and!; try eassumption; try reflexivity; try discriminate.
    eapply deserializeCapsule_valid; eassumption.
Qed.

Lemma consume_rest_calls {W : Type} (h : Handler W) (w : W)
  (tokenAddress checkpointId : string) (keyEnvelope : KeyEnvelope) (secretKey : list byte) :
  let tr := trace (run h (MindstateClient.consume_rest tokenAddress checkpointId
                            keyEnvelope secretKey) w) in
  Forall (addressed_to tokenAddress checkpointId) tr
  /\ (length tr <= 2)%nat
  /\ filter (fun ev => is_redeem ev = true) tr = [].
Proof.
  unfold MindstateClient.consume_rest, MindstateClient.getCheckpoint, trace.
  cbn.
  destruct (h _ (ContractGetCheckpoint tokenAddress checkpointId) w) as [[cp|e] w1]; cbn.
  2:{ split_and!; [repeat constructor|lia|reflexivity]. }
  destruct (h _ (StorageDownload (Raw.ciphertextUri cp)) w1) as [[ciphertext|e] w2]; cbn.
  2:{ split_and!; [repeat constructor|lia|reflexivity]. }
  repeat match goal with
         | |- context [lift ?r] => destruct r; cbn
         end; (split_and!; [repeat constructor|lia|reflexivity]).
Qed.

Ltac rest_calls h Hc :=
  match goal with
  | |- context [run h (MindstateClient.consume_rest ?t ?c ?e ?s) ?w] =>
      let HF := fresh "HF" in let HL := fresh "HL" in let HR := fresh "HR" in
      destruct (Hc w e) as (HF & HL & HR);
      destruct (run h (MindstateClient.consume_rest t c e s) w) as [[? ?] ?];
      cbn [fst snd] in *
  end.

Ltac calls_leaf :=
  cbn; split_and!;
  [ repeat first [ assumption
                 | apply Forall_nil_2
                 | apply Forall_cons_2; [cbn; first [exact I | split; reflexivity]|] ]
  | cbn; lia
  | repeat match goal with
           | |- context [decide (?b = true)] =>
               destruct (decide (b = true)) as [?|?]; try congruence; cbn
           end;
    try match goal with
        | HR : _ = [] |- context [filter ?P ?l] =>
            replace (filter P l) with (@nil Event) by (symmetry; exact HR)
        end;
    cbn; lia ].

(** X26. The calls of [consume], whatever their answers.  Every call is
    about the token and the checkpoint asked for, or names neither (the
    signer's address, the download); no envelope is ever stored; there
    are at most six calls and at most one of them is [redeem].  Without
    a signer, or with a signer whose address is empty, [consume] fails
    with the signer-required error, in the first case without a call
    and in the second with that one. *)
Theorem consume_calls {W : Type} (h : Handler W) (w : W)
  (client : MindstateClient.t) (tokenAddress checkpointId : string)
  (secretKey : list byte) :
  let x := run h (MindstateClient.consume client tokenAddress checkpointId secretKey) w in
  (Forall (addressed_to tokenAddress checkpointId) (trace x)
   /\ (length (trace x) <= 6)%nat
   /\ (length (filter (fun ev => is_redeem ev = true) (trace x)) <= 1)%nat)
  /\ (MindstateClient.signer client = false ->
      x = (Err SignerRequiredToConsume, w, []))
  /\ (MindstateClient.signer client = true ->
      (h string SignerGetAddress w).1 = Ok "" ->
      x = (Err SignerRequiredToConsume, (h string SignerGetAddress w).2,
           [Called SignerGetAddress (Ok "")])).
Proof.
  pose proof (fun w e => consume_rest_calls h w tokenAddress checkpointId e secretKey) as Hc.
  cbv zeta in Hc.
  unfold MindstateClient.consume, MindstateClient.hasRedeemed, MindstateClient.redeem.
  unfold trace in *.
  destruct (MindstateClient.signer client); cbn -[MindstateClient.consume_rest].
  2:{ split; [calls_leaf|]. split; [reflexivity|discriminate]. }
  destruct (h string SignerGetAddress w) as [[[|c address]|err] w1] eqn:Ha;
    cbn -[MindstateClient.consume_rest].
  { split; [calls_leaf|]. split; [discriminate|reflexivity]. }
  2:{ split; [calls_leaf|]. split; discriminate. }
  split; [|split; discriminate].
  answer h; [|calls_leaf].
  match goal with v : bool |- _ => destruct v end; cbn -[MindstateClient.consume_rest].
  - answer h; [|calls_leaf]. rest_calls h Hc. calls_leaf.
  - answer h; [|calls_leaf]. answer h; [|calls_leaf]. rest_calls h Hc. calls_leaf.
Qed.

End ConsumeFacts.

Lemma consume_sound_witness :
  outcome (run Mock.handler
             (MindstateClient.consume (rt := Reference.runtime) (MindstateClient.make true)
                "0xToken" "0xcp01" consumer_secret) delivered_world)
  = Ok (example_capsule,
        MindstateExplorer.parseCheckpointFromContract "0xcp01" example_checkpoint)
  /\ verifyStateCommitment (rt := Reference.runtime) example_capsule
       (Sealed.stateCommitment example_sealed) = Ok true.
Proof.
  assert (H : outcome (run Mock.handler
                (MindstateClient.consume (rt := Reference.runtime) (MindstateClient.make true)
                   "0xToken" "0xcp01" consumer_secret) delivered_world)
              = Ok (example_capsule,
                    MindstateExplorer.parseCheckpointFromContract "0xcp01" example_checkpoint))
    by (vm_compute; reflexivity).
  split; [exact H|].
  destruct (consume_sound (rt := Reference.runtime) _ _ _ _ _ _ _ _ H)
    as (address & redeemed & envelope & raw & ct & key & pt & _ & _ & _ & _ & _ & _ & _ & _ & Hs).
  exact Hs.
Defined.

(* ===================================================================== *)
(** * explorer.ts: the shape of a lineage                                  *)
(* ===================================================================== *)

Section LineageShape.

Lemma lineage_walk_chain {W : Type} (h : Handler W) (tokenAddress : string)
  (maxDepth : nat) (n : nat) :
  forall (currentId : string) (lineage : list CheckpointRecord)
         (visited : gset string) (w : W) (result : list CheckpointRecord),
    (maxDepth - length lineage <= n)%nat ->
    outcome (run h (MindstateExplorer.lineage_walk tokenAddress maxDepth currentId lineage
                      visited) w)
    = Ok result ->
    exists more,
      result = lineage ++ more
      /\ chained currentId more
      /\ lookups (trace (run h (MindstateExplorer.lineage_walk tokenAddress maxDepth currentId
                                  lineage visited) w))
         = Checkpoint.checkpointId <$> more.
Proof.
  induction n as [|n IH]; intros currentId lineage visited w result Hn;
    rewrite lineage_walk_unfold.
  - destruct (decide _) as [[_ Hlt]|_]; [lia|]. cbn. intros [= <-].
    exists []. rewrite app_nil_r. repeat split.
  - destruct (decide _) as [[Hz Hlt]|_].
    2:{ cbn. intros [= <-]. exists []. rewrite app_nil_r. repeat split. }
    destruct (decide (Text.toLowerCase currentId ∈ visited)); [discriminate|].
    cbn. destruct (h Raw.t (ContractGetCheckpoint tokenAddress currentId) w) as [[cp|e] w1];
      [|discriminate].
    destruct (decide (Raw.publishedAt cp = 0%Z)); [discriminate|].
    specialize (IH (Raw.predecessorId cp)
                  (lineage ++ [MindstateExplorer.parseCheckpointFromContract currentId cp])
                  (visited ∪ {[Text.toLowerCase currentId]}) w1 result).
    rewrite length_app in IH. cbn [length] in IH.
    destruct (run h _ w1) as [[res w2] tr]. unfold trace, outcome, lookups in *.
    cbn [fst snd] in *. intros Hres.
    destruct IH as (more & -> & Hch & Hlook); [lia|exact Hres|].
    exists (MindstateExplorer.parseCheckpointFromContract currentId cp :: more).
    split; [rewrite <- app_assoc; reflexivity|]. split.
    + split; [reflexivity|exact Hch].
    + cbn. rewrite Hlook. reflexivity.
Qed.

Lemma chained_link (start : string) (lineage : list CheckpointRecord) :
  chained start lineage ->
  forall j r r',
    lineage !! j = Some r -> lineage !! Datatypes.S j = Some r' ->
    Checkpoint.checkpointId r' = Checkpoint.predecessorId r.
Proof.
  revert start. induction lineage as [|a lineage IH]; intros start Hch j r r' Hj Hj'.
  - discriminate Hj.
  - destruct Hch as [_ Hch]. destruct j as [|j].
    + injection Hj as <-. destruct lineage as [|b lineage]; [discriminate Hj'|].
      injection Hj' as <-. destruct Hch as [Hb _]. exact Hb.
    + exact (IH _ Hch j r r' Hj Hj').
Qed.

(** A chain that ends at the zero sentinel, read oldest first, is a valid
    lineage. *)
Lemma chained_reverse_valid (start : string) (lineage : list CheckpointRecord) :
  chained start lineage ->
  last (start :: (Checkpoint.predecessorId <$> lineage)) = Some ZERO_BYTES32 ->
  verifyCheckpointLineage (reverse lineage) = Ok true.
Proof.
  intros Hch Hlast.
  destruct (reverse lineage) as [|first rest] eqn:Hrev; [reflexivity|].
  assert (Hlen : length lineage = Datatypes.S (length rest)).
  { rewrite <- (length_reverse lineage), Hrev. reflexivity. }
  assert (Hfirst : last lineage = Some first).
  { rewrite <- head_reverse, Hrev. reflexivity. }
  assert (Hgen : Checkpoint.predecessorId first = ZERO_BYTES32).
  { rewrite last_cons, fmap_last, Hfirst in Hlast. cbn in Hlast.
    injection Hlast as ->. reflexivity. }
  unfold verifyCheckpointLineage. rewrite Hgen.
  destruct (decide (Text.toLowerCase ZERO_BYTES32 ≠ ZERO_BYTES32)) as [Hne|_];
    [contradiction Hne; reflexivity|].
  rewrite <- Hrev.
  destruct (lineage_links_spec (reverse lineage) (length (reverse lineage) - 1) 1)
    as [[Hok _]|(i & prev & curr & Hi & Hp & Hc & Hbad & _)];
    [lia|rewrite length_reverse; lia|exact Hok|].
  exfalso. apply Hbad. unfold Text.eq_nocase. f_equal.
  rewrite length_reverse in Hi.
  apply reverse_lookup_Some in Hp as [Hp _]. apply reverse_lookup_Some in Hc as [Hc _].
  replace (length lineage - Datatypes.S (i - 1))%nat
    with (Datatypes.S (length lineage - Datatypes.S i)) in Hp by lia.
  symmetry. exact (chained_link _ _ Hch _ _ _ Hc Hp).
Qed.

(** X27. The records [getLineage] returns form the chain it walked: the
    first is the starting checkpoint and each next one is the checkpoint
    the one before it names as predecessor, looked up under exactly that
    identifier; the lookups made are those of the records returned, in
    order.  When fewer than [maxDepth] records come back the chain is
    complete, and read oldest first it passes
    [verifyCheckpointLineage]. *)
Theorem getLineage_chain {W : Type} (h : Handler W) (w : W)
  (tokenAddress checkpointId : string) (maxDepth : nat) (lineage : list CheckpointRecord) :
  outcome (run h (MindstateExplorer.getLineage tokenAddress checkpointId maxDepth) w)
  = Ok lineage ->
  chained checkpointId lineage
  /\ lookups (trace (run h (MindstateExplorer.getLineage tokenAddress checkpointId maxDepth) w))
     = Checkpoint.checkpointId <$> lineage
  /\ ((length lineage < maxDepth)%nat ->
      verifyCheckpointLineage (reverse lineage) = Ok true).
Proof.
  intros Hres. unfold MindstateExplorer.getLineage in *.
  destruct (lineage_walk_chain h tokenAddress maxDepth maxDepth checkpointId [] ∅ w lineage)
    as (more & E & Hch & Hlook); [cbn; lia|exact Hres|].
  cbn [app] in E. subst more. split; [exact Hch|]. split; [exact Hlook|].
  intros Hlt.
  destruct (lineage_walk_bounds h tokenAddress maxDepth maxDepth checkpointId [] ∅ w)
    as (_ & _ & _ & _ & _ & Hend); [cbn; lia|].
  destruct (Hend lineage Hres) as (more & E & [Hfull|Hzero]).
  - lia.
  - cbn [app] in E. subst more. exact (chained_reverse_valid _ _ Hch Hzero).
Qed.

(** X28. The edges of [getLineage].  Starting at the zero sentinel, or
    with [maxDepth] 0, it returns the empty lineage without a lookup.
    Otherwise the first call looks up the starting identifier as given:
    when that call is rejected the rejection is the error; when it
    answers with a record never published ([publishedAt] 0) the error is
    checkpoint-not-found naming the identifier.  In both cases there is
    no second call. *)
Theorem getLineage_edges {W : Type} (h : Handler W) (w : W)
  (tokenAddress checkpointId : string) (maxDepth : nat) :
  run h (MindstateExplorer.getLineage tokenAddress ZERO_BYTES32 maxDepth) w = (Ok [], w, [])
  /\ run h (MindstateExplorer.getLineage tokenAddress checkpointId 0) w = (Ok [], w, [])
  /\ (checkpointId <> ZERO_BYTES32 -> (0 < maxDepth)%nat ->
      let call := ContractGetCheckpoint tokenAddress checkpointId in
      (exists rest,
          trace (run h (MindstateExplorer.getLineage tokenAddress checkpointId maxDepth) w)
          = Called call (h _ call w).1 :: rest)
      /\ (forall e,
          (h _ call w).1 = Err e ->
          run h (MindstateExplorer.getLineage tokenAddress checkpointId maxDepth) w
          = (Err e, (h _ call w).2, [Called call (Err e)]))
      /\ (forall raw,
          (h _ call w).1 = Ok raw -> Raw.publishedAt raw = 0%Z ->
          run h (MindstateExplorer.getLineage tokenAddress checkpointId maxDepth) w
          = (Err (CheckpointNotFound checkpointId), (h _ call w).2,
             [Called call (Ok raw)]))).
Proof.
  unfold MindstateExplorer.getLineage. split_and!.
  - rewrite lineage_walk_unfold.
    destruct (decide _) as [[Hz _]|_]; [contradiction Hz; reflexivity|reflexivity].
  - rewrite lineage_walk_unfold.
    destruct (decide _) as [[_ Hlt]|_]; [cbn in Hlt; lia|reflexivity].
  - intros Hne Hpos. cbv zeta. rewrite lineage_walk_unfold.
    destruct (decide _) as [_|Hno]; [|contradiction Hno; split; [exact Hne|exact Hpos]].
    destruct (decide (Text.toLowerCase checkpointId ∈ ∅)) as [Hin|_];
      [apply elem_of_empty in Hin; contradiction|].
    cbn [run].
    destruct (h Raw.t (ContractGetCheckpoint tokenAddress checkpointId) w) as [[raw|e] w1].
    + cbn [fst snd]. split_and!.
      * destruct (decide (Raw.publishedAt raw = 0%Z)); cbn; [eauto|].
        destruct (run h _ w1) as [[res w2] tr]. cbn. eauto.
      * intros e H. discriminate H.
      * intros raw' [= <-] Hz.
        destruct (decide (Raw.publishedAt raw = 0%Z)); [reflexivity|contradiction].
    + cbn. split_and!; [eauto| |intros raw H; discriminate H].
      intros e' [= <-]. reflexivity.
Qed.

End LineageShape.

Lemma getLineage_chain_witness :
  outcome (run Mock.handler (MindstateExplorer.getLineage "0xToken" "0xb2" 10) two_chain)
  = Ok [ Checkpoint.make "0xb2" "0xa1" "" "" "" "" 1 1;
         Checkpoint.make "0xa1" ZERO_BYTES32 "" "" "" "" 1 1 ]
  /\ verifyCheckpointLineage
       (reverse [ Checkpoint.make "0xb2" "0xa1" "" "" "" "" 1 1;
                  Checkpoint.make "0xa1" ZERO_BYTES32 "" "" "" "" 1 1 ]) = Ok true.
Proof.
  assert (H : outcome (run Mock.handler
                         (MindstateExplorer.getLineage "0xToken" "0xb2" 10) two_chain)
              = Ok [ Checkpoint.make "0xb2" "0xa1" "" "" "" "" 1 1;
                     Checkpoint.make "0xa1" ZERO_BYTES32 "" "" "" "" 1 1 ])
    by (vm_compute; reflexivity).
  split; [exact H|].
  destruct (getLineage_chain _ _ _ _ _ _ H) as (_ & _ & Hv).
  apply Hv. cbn. lia.
Defined.

(* ===================================================================== *)
(** * keyDelivery.ts, encryption.ts: the key reaches the consumer          *)
(* ===================================================================== *)

Section DeliveredKey.
Context `{rt : Runtime}.

(** X29. The publisher's side and the consumer's side fit:
    [fulfillRedemption] for a checkpoint whose key [K] is stored, under
    any spelling of the identifier, makes one delivery, of an envelope
    bound to the checkpoint as asked for and naming the publisher's
    public key, and [unwrapKey] of that envelope with the consumer's
    secret key is [K].  This holds when tweetnacl's box does its part,
    the consumer's public key is the one of the secret key and has 32
    bytes. *)
Theorem fulfillRedemption_unwrapKey {W : Type} (h : Handler W) (w : W)
  (m : PublisherKeyManager.t) (tokenAddress checkpointId consumerAddress : string)
  (K publisherPublicKey consumerSecretKey consumerPublicKey : list byte) (ent : Entropy) :
  NaCl_box_correct ->
  PublisherKeyManager.keys m !! Text.toLowerCase checkpointId = Some K ->
  nacl_box_keyPair_fromSecretKey (PublisherKeyManager.secretKey m)
  = Returns publisherPublicKey ->
  nacl_box_keyPair_fromSecretKey consumerSecretKey = Returns consumerPublicKey ->
  length consumerPublicKey = 32%nat ->
  exists envelope,
    trace (run h (PublisherKeyManager.fulfillRedemption m tokenAddress checkpointId
                    consumerAddress consumerPublicKey ent) w)
    = [ Called (DeliveryStoreEnvelope tokenAddress checkpointId consumerAddress envelope)
          (h unit (DeliveryStoreEnvelope tokenAddress checkpointId consumerAddress
                     envelope) w).1 ]
    /\ Envelope.checkpointId envelope = checkpointId
    /\ Envelope.senderPublicKey envelope = publisherPublicKey
    /\ unwrapKey envelope consumerSecretKey = Ok K.
Proof.
  intros Hbox HK Hp Hc Hlen.
  pose proof (randomBytes_length nacl_box_nonceLength ent) as Hn.
  unfold PublisherKeyManager.fulfillRedemption. rewrite HK.
  destruct (decide (length consumerPublicKey ≠ 32%nat)) as [Hne|_]; [contradiction|].
  unfold wrapKey.
  destruct (randomBytes nacl_box_nonceLength ent) as [nonce ent1]. cbn [fst] in Hn.
  destruct (Hbox K nonce (PublisherKeyManager.secretKey m) consumerSecretKey
              publisherPublicKey consumerPublicKey Hn Hp Hc) as (boxed & Hb & Ho).
  rewrite Hp, Hb. cbn [propagate mbind result_bind lift prog_mbind prog_bind
                       Envelope.wrappedKey Envelope.nonce Envelope.senderPublicKey].
  rewrite run_await. unfold trace. cbn [snd].
  eexists. split; [reflexivity|]. split; [reflexivity|]. split; [reflexivity|].
  unfold unwrapKey. cbn [Envelope.wrappedKey Envelope.nonce Envelope.senderPublicKey].
  rewrite Ho. reflexivity.
Qed.

End DeliveredKey.

Lemma fulfillRedemption_unwrapKey_witness :
  let m :=
    PublisherKeyManager.storeKey
      (PublisherKeyManager.create (rev publisher_secret) publisher_secret)
      "0xCP01" (List.repeat x07 32) in
  exists envelope,
    omap stored_envelope
      (trace (run Mock.handler
                (PublisherKeyManager.fulfillRedemption (rt := Reference.runtime) m
                   "0xToken" "0xcp01" "0xc0ffee" consumer_public counting) Mock.empty))
    = [envelope]
    /\ unwrapKey (rt := Reference.runtime) envelope consumer_secret
       = Ok (List.repeat x07 32).
Proof.
  intros m.
  destruct (fulfillRedemption_unwrapKey (rt := Reference.runtime) Mock.handler Mock.empty m
              "0xToken" "0xcp01" "0xc0ffee" (List.repeat x07 32) (rev publisher_secret)
              consumer_secret consumer_public counting)
    as (envelope & Htr & _ & _ & Hu);
    [exact reference_box_correct|reflexivity|reflexivity|reflexivity|reflexivity|].
  exists envelope. split; [rewrite Htr; reflexivity|exact Hu].
Defined.
